(** * MvMM-RegNet: the image data provider ([src_3d/core/image_dataset.py])

    A shallow embedding of [ImageDataProvider]: the pairing of target and
    atlas names, the patch geometry of [__getitem__], the label encoder, the
    image normaliser and the two foreground computations, followed by the
    properties established about them.

    Conventions.
    - A Python call that may raise is a value of [result]; the exception
      classes that this module can raise are the constructors of [exn].
    - [np.int16] values are integers of [Z] reduced by [wrap16]; a conversion
      to [np.int16] wraps a value out of range.
    - A volume is a nested list indexed [x][y][z]; a voxel is a rational
      (every finite float is one).  Label intensities are integers.
    - File names are ASCII strings.
    - The collaborators that are not part of this module (the glob scan and
      [utils.strsort], [np.percentile], [scipy.stats.zscore], the random
      filter, the random source) are inputs of the functions that use them;
      the volumes are given as loaded. *)

From Stdlib Require Import ZArith QArith Qround Qminmax Lqa String Ascii List Lia.
From stdpp Require Import gmap strings list.

Local Open Scope string_scope.
Local Open Scope list_scope.
Local Open Scope Z_scope.

(* ===================================================================== *)
(** ** Exceptions *)
(* ===================================================================== *)

Inductive exn : Type :=
| AssertionError
| ValueError
| IndexError
| TypeError
| UnboundLocalError.

Inductive result (A : Type) : Type :=
| Ok (a : A)
| Raise (e : exn).

Arguments Ok {A} a.
Arguments Raise {A} e.

#[global] Instance result_ret : MRet result := fun _ a => Ok a.
#[global] Instance result_bind : MBind result := fun _ _ f m =>
  match m with
  | Ok a => f a
  | Raise e => Raise e
  end.

Definition raises {A} (r : result A) : Prop := exists e, r = Raise e.

(** [assert c] of Python. *)
Definition py_assert (c : bool) : result unit :=
  if c then Ok tt else Raise AssertionError.

(* ===================================================================== *)
(** ** Strings: [in], [os.path.basename], slices *)
(* ===================================================================== *)

(** [needle in hay]. *)
Fixpoint contains (needle hay : string) : bool :=
  if String.prefix needle hay then true
  else match hay with
       | EmptyString => false
       | String _ rest => contains needle rest
       end.

(** [os.path.basename] (POSIX): what follows the last slash. *)
Fixpoint basename_from (acc p : string) : string :=
  match p with
  | EmptyString => acc
  | String c rest =>
      if Ascii.eqb c "/"%char then basename_from EmptyString rest
      else basename_from (String.append acc (String c EmptyString)) rest
  end.

Definition basename (p : string) : string := basename_from EmptyString p.

(** A slice bound of Python: negative bounds count from the end, and every
    bound is clamped to [0, len]. *)
Definition slice_index (len i : Z) : Z :=
  if i <? 0 then Z.max (i + len) 0 else Z.min i len.

(** [s[b:e]]. *)
Definition py_slice (s : string) (b e : Z) : string :=
  let len := Z.of_nat (String.length s) in
  let b' := slice_index len b in
  let e' := slice_index len e in
  String.substring (Z.to_nat b') (Z.to_nat (e' - b')) s.

(* ===================================================================== *)
(** ** [itertools] *)
(* ===================================================================== *)

(** [itertools.combinations(l, r)] for [r >= 0]: the subsequences of [l] of
    length [r], in lexicographic order of positions. *)
Fixpoint combinations {A} (l : list A) (r : nat) {struct l} : list (list A) :=
  match r, l with
  | O, _ => [[]]
  | S _, [] => []
  | S r', x :: t => List.map (cons x) (combinations t r') ++ combinations t r
  end.

(** [itertools.combinations] raises [ValueError] on a negative [r]. *)
Definition py_combinations {A} (l : list A) (r : Z) : result (list (list A)) :=
  if r <? 0 then Raise ValueError else Ok (combinations l (Z.to_nat r)).

(** [itertools.product(xs, ys)]. *)
Definition product {A B} (xs : list A) (ys : list B) : list (A * B) :=
  List.flat_map (fun x => List.map (pair x) ys) xs.

(** The binomial coefficient, by Pascal's rule. *)
Fixpoint binomial (n k : nat) : nat :=
  match k, n with
  | O, _ => 1%nat
  | S _, O => 0%nat
  | S k', S n' => (binomial n' k' + binomial n' k)%nat
  end.

(** [c] is a subsequence of [l]: positions strictly increasing, no
    repetition, order of [l] kept. *)
Inductive subseq {A} : list A -> list A -> Prop :=
| subseq_nil : subseq [] []
| subseq_skip x c l : subseq c l -> subseq c (x :: l)
| subseq_take x c l : subseq c l -> subseq (x :: c) (x :: l).

(* ===================================================================== *)
(** ** Three-axis vectors and [np.int16] *)
(* ===================================================================== *)

Record vec3 : Type := V3 { ax0 : Z; ax1 : Z; ax2 : Z }.

Definition v3map (f : Z -> Z) (v : vec3) : vec3 :=
  V3 (f (ax0 v)) (f (ax1 v)) (f (ax2 v)).

Definition v3map2 (f : Z -> Z -> Z) (a b : vec3) : vec3 :=
  V3 (f (ax0 a) (ax0 b)) (f (ax1 a) (ax1 b)) (f (ax2 a) (ax2 b)).

(** [np.all(a <= b)]. *)
Definition v3all_le (a b : vec3) : bool :=
  (ax0 a <=? ax0 b) && (ax1 a <=? ax1 b) && (ax2 a <=? ax2 b).

Definition v3le (a b : vec3) : Prop :=
  ax0 a <= ax0 b /\ ax1 a <= ax1 b /\ ax2 a <= ax2 b.

Definition v3const (c : Z) : vec3 := V3 c c c.

(** Two's-complement reduction to 16 bits. *)
Definition wrap16 (z : Z) : Z := (z + 32768) mod 65536 - 32768.

Definition int16_range (z : Z) : Prop := -32768 <= z <= 32767.

(** [np.asarray(v, dtype=np.int16)]. *)
Definition asarray16 (v : vec3) : vec3 := v3map wrap16 v.

(** Arithmetic between [np.int16] arrays stays in [np.int16]. *)
Definition sub16 (a b : vec3) : vec3 := v3map2 (fun x y => wrap16 (x - y)) a b.
Definition add16 (a b : vec3) : vec3 := v3map2 (fun x y => wrap16 (x + y)) a b.
(** [a // 2] (floor division; the quotient of an [int16] by 2 is in range). *)
Definition half16 (a : vec3) : vec3 := v3map (fun x => x / 2) a.

(* ===================================================================== *)
(** ** Volumes *)
(* ===================================================================== *)

(** A three-axis array: its shape and the voxel at each index.  Only the
    indices below the shape are meaningful. *)
Record volume (A : Type) : Type :=
  Volume { vshape : nat * nat * nat; vox : nat -> nat -> nat -> A }.

Arguments Volume {A} vshape vox.
Arguments vshape {A} v.
Arguments vox {A} v i j k.

Definition shape_vec (s : nat * nat * nat) : vec3 :=
  let '(nx, ny, nz) := s in V3 (Z.of_nat nx) (Z.of_nat ny) (Z.of_nat nz).

(** Element-wise operation. *)
Definition vmap {A B} (f : A -> B) (v : volume A) : volume B :=
  Volume (vshape v) (fun i j k => f (vox v i j k)).

(** The indices of an array in C order. *)
Definition coords (s : nat * nat * nat) : list (nat * nat * nat) :=
  let '(nx, ny, nz) := s in
  List.flat_map (fun i =>
    List.flat_map (fun j =>
      List.map (fun k => (i, j, k)) (seq 0 nz)) (seq 0 ny)) (seq 0 nx).

Definition vox_at {A} (v : volume A) (c : nat * nat * nat) : A :=
  let '(i, j, k) := c in vox v i j k.

(** The voxels of an array in C order. *)
Definition flatten {A} (v : volume A) : list A :=
  List.map (vox_at v) (coords (vshape v)).

(** [np.argwhere(flag)]: the indices where [flag] holds. *)
Definition argwhere (flag : volume bool) : list (nat * nat * nat) :=
  List.filter (vox_at flag) (coords (vshape flag)).

(** A value of a float array after a division: a number or NaN. *)
Inductive flt : Type :=
| Num (q : Q)
| NaN.

(** A clipping bound: a number or an infinity. *)
Inductive bound : Type :=
| NegInf
| Fin (q : Q)
| PosInf.

(** [np.maximum(x, lo)] and [np.minimum(x, hi)] for one voxel. *)
Definition clip_below (lo : bound) (x : Q) : Q :=
  match lo with
  | NegInf => x
  | Fin l => if Qle_bool l x then x else l
  | PosInf => x  (* unreachable: the lower bound is a number or -inf *)
  end.

Definition clip_above (hi : option bound) (x : Q) : Q :=
  match hi with
  | None => x
  | Some PosInf => x
  | Some (Fin h) => if Qle_bool x h then x else h
  | Some NegInf => x  (* unreachable: the upper bound is a number or +inf *)
  end.

(** [np.clip(data, lo, hi)]: [minimum(maximum(data, lo), hi)]; an upper bound
    [None] leaves the data unbounded above. *)
Definition np_clip (data : volume Q) (lo : bound) (hi : option bound) : volume Q :=
  vmap (fun x => clip_above hi (clip_below lo x)) data.

(** [np.around] for one voxel: to the nearest integer, halves to even. *)
Definition around (x : Q) : Z :=
  let f := Qfloor x in
  let r := (x - inject_Z f)%Q in
  match (r ?= 1 # 2)%Q with
  | Lt => f
  | Gt => f + 1
  | Eq => if Z.even f then f else f + 1
  end.

(** [np.min] and [np.max] of a whole array; both raise on an empty one. *)
Definition np_min (v : volume Q) : result Q :=
  match flatten v with
  | [] => Raise ValueError
  | x :: xs => Ok (fold_left Qmin xs x)
  end.

Definition np_max (v : volume Q) : result Q :=
  match flatten v with
  | [] => Raise ValueError
  | x :: xs => Ok (fold_left Qmax xs x)
  end.

(** The truth value of a NumPy boolean array: defined for one element only
    (an empty array is false under the legacy rule). *)
Definition ndarray_bool (a : list bool) : result bool :=
  match a with
  | [] => Ok false
  | [b] => Ok b
  | _ :: _ :: _ => Raise ValueError
  end.

Definition v3list (v : vec3) : list Z := [ax0 v; ax1 v; ax2 v].

(** Python's [max(a, b)] for a scalar [a] and an array [b]: the builtin keeps
    [a] and replaces it when [b > a] is true, so it needs the truth value of
    the array [b > a]. *)
Definition py_max_scalar_array (a : Z) (b : vec3) : result (Z + vec3) :=
  t ← ndarray_bool (List.map (fun x => a <? x) (v3list b));
  Ok (if t : bool then inr b else inl a).

(** [np.random.randint(low, high)]: uniform on [low, high); [draw] is the
    value taken from the random source.  An empty range raises. *)
Definition randint (draw low high : Z) : result Z :=
  if low <? high then Ok (low + draw mod (high - low)) else Raise ValueError.

(** Reading a local variable of a Python function: unbound locals raise. *)
Definition read_local {A} (x : option A) : result A :=
  match x with
  | Some v => Ok v
  | None => Raise UnboundLocalError
  end.

(* ===================================================================== *)
(** ** The provider and its construction *)
(* ===================================================================== *)

(** A sample key: a target name and a tuple of atlas names. *)
Abbreviation sample_key := (string * list string)%type.

(** The attributes of an [ImageDataProvider] instance that the methods below
    read.  [a_max] can hold [None]; [a_min] cannot (line 78). *)
Record provider : Type := Provider {
  a_min : bound;
  a_max : option bound;
  image_suffix : string;
  n_atlas : Z;
  crop_patch : bool;
  random_crop : bool;
  patch_size : vec3;
  crop_roi : bool;
  patch_center : option vec3;
  n_class : Z;
  channels : nat;
  label_intensity : list Z;
  target_modality : string;
  atlas_modality : string;
  stage : string;
  image_normalization : bool;
  image_augmentation : bool;
  image_name_index_begin : Z;
  image_name_index_end : Z;
  kwargs : gmap string string;
  target_atlas_image_names : list sample_key
}.

Definition set_names (self : provider) (names : list sample_key) : provider :=
  Provider (a_min self) (a_max self) (image_suffix self) (n_atlas self)
    (crop_patch self) (random_crop self) (patch_size self) (crop_roi self)
    (patch_center self) (n_class self) (channels self) (label_intensity self)
    (target_modality self) (atlas_modality self) (stage self)
    (image_normalization self) (image_augmentation self)
    (image_name_index_begin self) (image_name_index_end self)
    (kwargs self) names.

Definition set_kwargs (self : provider) (kw : gmap string string) : provider :=
  Provider (a_min self) (a_max self) (image_suffix self) (n_atlas self)
    (crop_patch self) (random_crop self) (patch_size self) (crop_roi self)
    (patch_center self) (n_class self) (channels self) (label_intensity self)
    (target_modality self) (atlas_modality self) (stage self)
    (image_normalization self) (image_augmentation self)
    (image_name_index_begin self) (image_name_index_end self)
    kw (target_atlas_image_names self).

(** The marker that ties an atlas name to a target (line 293):
    ['target-' + t_name[image_name_index_begin:image_name_index_end]]. *)
Definition correlation_marker (self : provider) (target_name : string) : string :=
  let t_name := basename target_name in
  String.append "target-"
    (py_slice t_name (image_name_index_begin self) (image_name_index_end self)).

(** The body of the [for target_name in target_names] loop of the multi-stage
    pairing (lines 289-299); [all_names] is the accumulator of the loop. *)
Fixpoint multi_stage_loop (self : provider) (atlas_names targets : list string)
    (all_names : list (list sample_key)) : result (list (list sample_key)) :=
  match targets with
  | [] => Ok all_names
  | target_name :: rest =>
      let a_names :=
        List.filter (contains (correlation_marker self target_name)) atlas_names in
      comb_atlas_names ← py_combinations a_names (n_atlas self);
      multi_stage_loop self atlas_names rest
        (all_names ++ [product [target_name] comb_atlas_names])
  end.

(** [_find_data_names] (lines 276-312).  [all_target_files] and
    [all_atlas_files] are the sorted results of the two glob scans. *)
Definition _find_data_names (self : provider)
    (all_target_files all_atlas_files : list string) (name_suffix : string)
    : result (list sample_key) :=
  let target_names := List.filter (contains name_suffix) all_target_files in
  _ ← py_assert (0 <? Z.of_nat (length target_names));
  let atlas_names := List.filter (contains name_suffix) all_atlas_files in
  if String.eqb (stage self) "multi" then
    all_names ← multi_stage_loop self atlas_names target_names [];
    Ok (concat all_names)
  else if String.eqb (stage self) "single" then
    comb_atlas_names ← py_combinations atlas_names (n_atlas self);
    Ok (product target_names comb_atlas_names)
  else Raise UnboundLocalError.

(** The arguments of the constructor. *)
Record init_args : Type := InitArgs {
  arg_a_min : option Q;
  arg_a_max : option Q;
  arg_image_suffix : string;
  arg_n_atlas : Z;
  arg_crop_patch : bool;
  arg_random_crop : bool;
  arg_patch_size : vec3;
  arg_crop_roi : bool;
  arg_patch_center : option vec3;
  arg_channels : nat;
  arg_n_class : Z;
  arg_label_intensity : list Z;
  arg_image_normalization : bool;
  arg_image_augmentation : bool;
  arg_stage : string;
  arg_target_modality : string;
  arg_atlas_modality : string;
  arg_image_name_index_begin : Z;
  arg_image_name_index_end : Z;
  arg_kwargs : gmap string string
}.

Definition is_modality (m : string) : bool :=
  String.eqb m "mr" || String.eqb m "ct".

(** The attributes stored by lines 78-107, before the names are found.
    Line 79 tests [a_min], not [a_max]. *)
Definition init_attributes (args : init_args) : provider :=
  let self_a_min :=
    match arg_a_min args with Some v => Fin v | None => NegInf end in
  let self_a_max :=
    match arg_a_min args with
    | Some _ => match arg_a_max args with Some v => Some (Fin v) | None => None end
    | None => Some PosInf
    end in
  Provider self_a_min self_a_max (arg_image_suffix args) (arg_n_atlas args)
    (arg_crop_patch args) (arg_random_crop args)
    (asarray16 (arg_patch_size args)) (arg_crop_roi args)
    (arg_patch_center args) (arg_n_class args) (arg_channels args)
    (arg_label_intensity args)
    (arg_target_modality args) (arg_atlas_modality args) (arg_stage args)
    (arg_image_normalization args) (arg_image_augmentation args)
    (arg_image_name_index_begin args) (arg_image_name_index_end args)
    (delete "logger" (arg_kwargs args)) [].

(** [__init__] (lines 75-114) from the results of the two scans of lines
    277-278 on; the call with its search patterns, where the second scan can
    raise, is [construct] below. *)
Definition __init__ (args : init_args)
    (all_target_files all_atlas_files : list string) : result provider :=
  _ ← py_assert (String.eqb (arg_stage args) "single"
                 || String.eqb (arg_stage args) "multi");
  _ ← py_assert (is_modality (arg_target_modality args));
  _ ← py_assert (is_modality (arg_atlas_modality args));
  let self := init_attributes args in
  names ← _find_data_names self all_target_files all_atlas_files
             (arg_image_suffix args);
  let self := set_names self names in
  _ ← py_assert (Z.of_nat (length (label_intensity self)) =? n_class self);
  Ok self.

(** [__len__] (lines 270-271). *)
Definition __len__ (self : provider) : Z :=
  Z.of_nat (length (target_atlas_image_names self)).

(** [get_image_names] (lines 273-274), for a non-negative index. *)
Definition get_image_names (self : provider) (index : nat) : result sample_key :=
  match target_atlas_image_names self !! index with
  | Some key => Ok key
  | None => Raise IndexError
  end.

(* ===================================================================== *)
(** ** The label encoder *)
(* ===================================================================== *)

Definition b2z (b : bool) : Z := if b then 1 else 0.

(** [np.sum] of a list of channels. *)
Definition zsum (l : list Z) : Z := fold_right Z.add 0 l.

(** The loop [for k in range(1, n_class): label[..., k] = (gt == label_intensity[k])]
    (lines 337-338); [ks] is what is left of the range. *)
Fixpoint label_loop (self : provider) (gt : volume Z) (ks : list nat)
    (label : volume (list Z)) : result (volume (list Z)) :=
  match ks with
  | [] => Ok label
  | k :: rest =>
      match label_intensity self !! k with
      | None => Raise IndexError
      | Some v =>
          label_loop self gt rest
            (Volume (vshape label)
               (fun i j l => <[k := b2z (vox gt i j l =? v)]> (vox label i j l)))
      end
  end.

(** [_process_label] (lines 327-342).  The result has a leading axis of
    length one; the class axis is the list held at each voxel.
    [np.logical_not(s)] is [s == 0]. *)
Definition _process_label (self : provider) (gt : volume Q)
    : result (list (volume (list Z))) :=
  let gt := vmap around gt in
  if n_class self <? 0 then Raise ValueError
  else
    let n := Z.to_nat (n_class self) in
    let label := vmap (fun _ => replicate n 0) gt in
    label ← label_loop self gt (seq 1 (n - 1)) label;
    if n_class self =? 0 then Raise IndexError
    else
      let label :=
        vmap (fun chans =>
                <[0%nat := b2z (zsum (drop 1 chans) =? 0)]> chans)
             label in
      Ok [label].

(* ===================================================================== *)
(** ** Foreground: centre and region of interest *)
(* ===================================================================== *)

(** The foreground mask (lines 398-399 and 412-413): the voxels equal to one
    of [label_intensity[1:]].  [np.concatenate] raises on an empty tuple. *)
Definition foreground_flag (self : provider) (label : volume Q)
    : result (volume bool) :=
  match tail (label_intensity self) with
  | [] => Raise ValueError
  | ks => Ok (vmap (fun x => existsb (fun k => Qeq_bool x (inject_Z k)) ks) label)
  end.

Definition idx0 (c : nat * nat * nat) : Z := Z.of_nat (fst (fst c)).
Definition idx1 (c : nat * nat * nat) : Z := Z.of_nat (snd (fst c)).
Definition idx2 (c : nat * nat * nat) : Z := Z.of_nat (snd c).

(** [np.min(arg_index, axis=0)] and [np.max(arg_index, axis=0)] for one
    axis: both raise on an array without rows. *)
Definition axis_min (xs : list Z) : result Z :=
  match xs with
  | [] => Raise ValueError
  | x :: t => Ok (fold_left Z.min t x)
  end.

Definition axis_max (xs : list Z) : result Z :=
  match xs with
  | [] => Raise ValueError
  | x :: t => Ok (fold_left Z.max t x)
  end.

(** [get_roi_coordinates] (lines 402-422); the margin is computed on
    rationals. *)
Definition get_roi_coordinates (self : provider) (label : volume Q)
    (mag_rate : Q) : result (vec3 * vec3) :=
  foreground_flag ← foreground_flag self label;
  let arg_index := argwhere foreground_flag in
  l0 ← axis_min (List.map idx0 arg_index);
  l1 ← axis_min (List.map idx1 arg_index);
  l2 ← axis_min (List.map idx2 arg_index);
  h0 ← axis_max (List.map idx0 arg_index);
  h1 ← axis_max (List.map idx1 arg_index);
  h2 ← axis_max (List.map idx2 arg_index);
  let margin (lo hi : Z) : Q := (inject_Z (hi - lo) * mag_rate / 2)%Q in
  let soft_lo (lo hi : Z) := Z.max (Qfloor (inject_Z lo - margin lo hi)) 0 in
  let soft_hi (lo hi n : Z) := Z.min (Qfloor (inject_Z hi + margin lo hi)) (n - 1) in
  let shape := shape_vec (vshape label) in
  Ok (V3 (soft_lo l0 h0) (soft_lo l1 h1) (soft_lo l2 h2),
      V3 (soft_hi l0 h0 (ax0 shape)) (soft_hi l1 h1 (ax1 shape))
         (soft_hi l2 h2 (ax2 shape))).

Section Numerics.

(** What NumPy and SciPy compute outside this module. *)
Variable percentile99 : volume Q -> Q.          (* np.percentile(data, 99) *)
Variable zscore : volume Q -> volume flt.        (* stats.zscore(., axis=None, ddof=1) *)
Variable randomFilter : volume Q -> volume Q.    (* help.data_augment.randomFilter *)
(** What the cast of NaN to [np.int16] yields on the platform. *)
Variable nan_as_int16 : Z.

(** [np.floor(np.mean(xs)).astype(np.int16)] for the coordinates [xs] of
    one axis: the mean of no coordinates is NaN (a warning, no exception). *)
Definition floor_mean16 (xs : list Z) : Z :=
  match xs with
  | [] => nan_as_int16
  | _ :: _ => wrap16 (zsum xs / Z.of_nat (length xs))
  end.

(** [_get_foreground_center] (lines 391-400). *)
Definition _get_foreground_center (self : provider) (label : volume Q)
    : result vec3 :=
  foreground_flag ← foreground_flag self label;
  let where_idx := argwhere foreground_flag in
  Ok (V3 (floor_mean16 (List.map idx0 where_idx))
         (floor_mean16 (List.map idx1 where_idx))
         (floor_mean16 (List.map idx2 where_idx))).

(* =================================================================== *)
(** ** The image normaliser *)
(* =================================================================== *)

(** The min-max rescaling (lines 369-370).  [np.min] raises on an empty
    array.  After the minimum is subtracted a maximum of zero means that
    every voxel is zero, and zero divided by zero is NaN. *)
Definition min_max (data_aug : volume Q) : result (volume flt) :=
  lo ← np_min data_aug;
  let data_norm := vmap (fun x => (x - lo)%Q) data_aug in
  hi ← np_max data_norm;
  Ok (vmap (fun x => if Qeq_bool hi 0 then NaN else Num (x / hi)%Q) data_norm).

(** What the last line of [_process_image] (line 377) returns when it
    returns: a trailing channel axis holding [channels] copies, and a leading
    axis of length one. *)
Definition expand_tile (channels : nat) (data : volume flt)
    : list (volume (list flt)) :=
  [vmap (fun x => replicate channels x) data].

(** Line 377:
    [np.expand_dims(np.tile(data_expand, np.hstack((np.ones(data.ndim), self.channels))), 0)].
    [np.hstack] makes the repetition counts floats, and [np.tile] takes
    float counts only when every one of them is one: with any other number
    of channels it raises [TypeError]. *)
Definition tile_channels (channels : nat) (data : volume flt)
    : result (list (volume (list flt))) :=
  if Nat.eqb channels 1 then Ok (expand_tile channels data) else Raise TypeError.

(** [_process_image] (lines 344-377).  The method pops the normalisation
    method from [self.kwargs], so it returns the provider as it leaves it,
    also when it raises.  [np.percentile] raises [IndexError] on an array
    without elements (line 352), before the method is popped. *)
Definition _process_image (self : provider) (data : volume Q)
    (modality : string) (normalization augmentation : bool)
    : result (list (volume (list flt))) * provider :=
  let data_clip : result (volume Q) :=
    if String.eqb modality "mr" then
      match flatten data with
      | [] => Raise IndexError
      | _ :: _ => Ok (np_clip data NegInf (Some (Fin (percentile99 data))))
      end
    else if String.eqb modality "ct" then
      Ok (np_clip data (a_min self) (a_max self))
    else Raise UnboundLocalError in
  match data_clip with
  | Raise e => (Raise e, self)
  | Ok data_clip =>
      let data_aug := if augmentation then randomFilter data_clip else data_clip in
      if normalization then
        let method := default "z-score" (kwargs self !! "normalization_method") in
        let self := set_kwargs self (delete "normalization_method" (kwargs self)) in
        let data_norm : result (volume flt) :=
          if String.eqb method "z-score" then Ok (zscore data_aug)
          else if String.eqb method "min-max" then min_max data_aug
          else Raise ValueError in
        (data_norm ← data_norm; tile_channels (channels self) data_norm, self)
      else (tile_channels (channels self) (vmap Num data_aug), self)
  end.

(* =================================================================== *)
(** ** The patch branch of [__getitem__] *)
(* =================================================================== *)

(** The three local variables that the centre policies bind. *)
Record patch_locals : Type := PatchLocals {
  patch_center_local : option vec3;
  target_patch_center_local : option vec3;
  atlas_patch_center_local : option vec3
}.

(** One axis of the unconstrained random centre (lines 173-175). *)
Definition random_axis (ps shape draw : Z) : result Z :=
  randint draw (ps / 2) (shape + ps / 2 - ps + 1).

(** One axis of the foreground-constrained random centre (lines 180-183).
    The first argument of [max] is the scalar of axis [i]; the second is the
    whole array [self.patch_size // 2]. *)
Definition random_roi_axis (self : provider) (roi ps shape draw : Z)
    : result Z :=
  lo ← py_max_scalar_array (wrap16 (roi - ps + ps / 2 + 1))
                           (half16 (patch_size self));
  let hi := Z.min (wrap16 (roi + ps / 2)) (shape + ps / 2 - ps + 1) in
  match lo with
  | inl lo => randint draw lo hi
  | inr _ => Raise ValueError
  end.

(** The selection of the patch centre (lines 169-190).  [draws] holds what
    the random source yields for each axis. *)
Definition select_patch_center (self : provider)
    (target_image_shape : vec3) (target_label : volume Q)
    (atlases_image_shape : vec3) (draws : vec3) : result patch_locals :=
  let ps := patch_size self in
  let shape := shape_vec (vshape target_label) in
  match patch_center self with
  | Some c => Ok (PatchLocals (Some (asarray16 c)) None None)
  | None =>
      if random_crop self && negb (crop_roi self) then
        c0 ← random_axis (ax0 ps) (ax0 shape) (ax0 draws);
        c1 ← random_axis (ax1 ps) (ax1 shape) (ax1 draws);
        c2 ← random_axis (ax2 ps) (ax2 shape) (ax2 draws);
        Ok (PatchLocals (Some (asarray16 (V3 c0 c1 c2))) None None)
      else if random_crop self && crop_roi self then
        roi_center ← _get_foreground_center self target_label;
        c0 ← random_roi_axis self (ax0 roi_center) (ax0 ps) (ax0 shape) (ax0 draws);
        c1 ← random_roi_axis self (ax1 roi_center) (ax1 ps) (ax1 shape) (ax1 draws);
        c2 ← random_roi_axis self (ax2 roi_center) (ax2 ps) (ax2 shape) (ax2 draws);
        Ok (PatchLocals (Some (asarray16 (V3 c0 c1 c2))) None None)
      else if negb (random_crop self) && crop_roi self then
        roi_center ← _get_foreground_center self target_label;
        Ok (PatchLocals (Some roi_center) None None)
      else
        Ok (PatchLocals None
              (Some (half16 (asarray16 target_image_shape)))
              (Some (half16 (asarray16 atlases_image_shape))))
  end.

(** The slicing indices of the patch (lines 192-199). *)
Record patch_bounds : Type := PatchBounds {
  target_begin : vec3;
  target_end : vec3;
  atlas_begin : vec3;
  atlas_end : vec3
}.

(** The patch branch of [__getitem__] up to the slicing indices
    (lines 164-199): the two size assertions, the centre policy, and the
    bounds.  [atlases_label_shape] and [atlases_image_shape] are the shapes
    of the stacked atlas arrays without their atlas axis. *)
Definition getitem_patch_bounds (self : provider)
    (target_image_shape : vec3) (target_label : volume Q)
    (atlases_image_shape atlases_label_shape : vec3) (draws : vec3)
    : result patch_bounds :=
  let ps := patch_size self in
  _ ← py_assert (v3all_le ps (shape_vec (vshape target_label)));
  _ ← py_assert (v3all_le ps atlases_label_shape);
  locals ← select_patch_center self target_image_shape target_label
              atlases_image_shape draws;
  target_patch_center ← read_local (target_patch_center_local locals);
  let target_begin := sub16 target_patch_center (half16 ps) in
  let target_end := add16 (sub16 target_patch_center (half16 ps)) ps in
  atlas_patch_center ← read_local (atlas_patch_center_local locals);
  let atlas_begin := sub16 atlas_patch_center (half16 ps) in
  let atlas_end := add16 (sub16 atlas_patch_center (half16 ps)) ps in
  Ok (PatchBounds target_begin target_end atlas_begin atlas_end).

(** One axis of a slice [a[b:e]] of an axis of length [n]: where it starts
    and how long it is.  Bounds out of range are clamped, negative bounds
    count from the end, and nothing is raised. *)
Definition slice_axis (n : nat) (b e : Z) : nat * nat :=
  let len := Z.of_nat n in
  let b' := slice_index len b in
  let e' := slice_index len e in
  (Z.to_nat b', Z.to_nat (e' - b')).

(** [v[b[0]:e[0], b[1]:e[1], b[2]:e[2]]]. *)
Definition crop {A} (v : volume A) (b e : vec3) : volume A :=
  let '(nx, ny, nz) := vshape v in
  let '(sx, lx) := slice_axis nx (ax0 b) (ax0 e) in
  let '(sy, ly) := slice_axis ny (ax1 b) (ax1 e) in
  let '(sz, lz) := slice_axis nz (ax2 b) (ax2 e) in
  Volume (lx, ly, lz) (fun i j k => vox v (sx + i) (sy + j) (sz + k))%nat.

(** The spatial shape of [np.stack(vs, axis=-1)], which raises on an empty
    list and on arrays of different shapes. *)
Definition np_stack_shape {A} (vs : list (volume A)) : result vec3 :=
  match vs with
  | [] => Raise ValueError
  | v :: rest =>
      if forallb (fun w =>
                    let '(nx, ny, nz) := vshape v in
                    let '(mx, my, mz) := vshape w in
                    Nat.eqb nx mx && Nat.eqb ny my && Nat.eqb nz mz) rest
      then Ok (shape_vec (vshape v))
      else Raise ValueError
  end.

(** The target label and the target image after the crop of lines 201-204,
    before they are normalised and encoded. *)
Record patch_volumes : Type := PatchVolumes {
  cropped_target_label : volume Q;
  cropped_target_image : volume Q
}.

(** The patch branch of [__getitem__] from the stacking of the atlases
    (lines 123-125) to the crop of the target (lines 164-204).  What follows
    line 204 (the normaliser and the encoder on the target, then the crops of
    the atlases) is not part of it. *)
Definition getitem_patch_volumes (self : provider)
    (target_image target_label : volume Q)
    (atlases_image atlases_label : list (volume Q)) (draws : vec3)
    : result patch_volumes :=
  atlases_image_shape ← np_stack_shape atlases_image;
  atlases_label_shape ← np_stack_shape atlases_label;
  b ← getitem_patch_bounds self (shape_vec (vshape target_image)) target_label
         atlases_image_shape atlases_label_shape draws;
  Ok (PatchVolumes
        (crop target_label (target_begin b) (target_end b))
        (crop target_image (target_begin b) (target_end b))).

(** The three crop modes of [__getitem__] (lines 133, 164, 229). *)
Inductive crop_mode : Type :=
| RoiCrop
| PatchCrop
| NoCrop.

Definition getitem_mode (self : provider) : crop_mode :=
  if crop_roi self && negb (crop_patch self) then RoiCrop
  else if crop_patch self then PatchCrop
  else NoCrop.

End Numerics.

(* ===================================================================== *)
(** ** Vocabulary of the statements and example inputs *)
(* ===================================================================== *)

(** What the loop of the multi-stage pairing appends for one target. *)
Definition multi_stage_keys (self : provider) (atlas_names : list string)
    (target_name : string) : list sample_key :=
  product [target_name]
    (combinations
       (List.filter (contains (correlation_marker self target_name)) atlas_names)
       (Z.to_nat (n_atlas self))).

(** The names that pass the suffix filter of lines 280 and 282. *)
Definition discovered (suffix : string) (files : list string) : list string :=
  List.filter (contains suffix) files.

(** The three string operations of line 293 read declaratively; the
    executable [contains], [basename] and [py_slice] are compared with them.
    [occurs_in m a]: the string [m] is a substring of [a]. *)
Definition occurs_in (m a : string) : Prop :=
  exists pre post, a = String.append pre (String.append m post).

(** [base] is what follows the last slash of [p]. *)
Definition is_basename (p base : string) : Prop :=
  ~ In "/"%char (list_ascii_of_string base) /\
  (p = base \/ exists dir, p = String.append dir (String "/"%char base)).

(** [piece] is [s[b:e]]: with [lo] and [hi] the two bounds, counted from the
    end when negative and clamped to the length of [s], the characters of
    [s] from position [lo] up to position [hi], that one left out. *)
Definition is_slice (s : string) (b e : Z) (piece : string) : Prop :=
  let n := Z.of_nat (String.length s) in
  let lo := if b <? 0 then Z.max (b + n) 0 else Z.min b n in
  let hi := if e <? 0 then Z.max (e + n) 0 else Z.min e n in
  exists pre post,
    s = String.append pre (String.append piece post) /\
    Z.of_nat (String.length pre) = lo /\
    Z.of_nat (String.length piece) = Z.max (hi - lo) 0.

(** [m] is ["target-" + basename(t)[begin:end]]. *)
Definition is_correlation_substring (self : provider) (t m : string) : Prop :=
  exists base piece,
    is_basename t base /\
    is_slice base (image_name_index_begin self) (image_name_index_end self)
      piece /\
    m = String.append "target-" piece.

(** [pool] holds exactly the elements of [l] that satisfy [P], in the order
    of [l]. *)
Inductive restricted {A} (P : A -> Prop) : list A -> list A -> Prop :=
| restricted_nil : restricted P [] []
| restricted_keep x l pool :
    P x -> restricted P l pool -> restricted P (x :: l) (x :: pool)
| restricted_drop x l pool :
    ~ P x -> restricted P l pool -> restricted P (x :: l) pool.

(** The arguments of a constructor call that passes the assertions of lines
    75-77 and 113. *)
Definition valid_args (args : init_args) : Prop :=
  is_modality (arg_target_modality args) = true /\
  is_modality (arg_atlas_modality args) = true /\
  Z.of_nat (length (arg_label_intensity args)) = arg_n_class args.

(** The constructor arguments with their defaults, for a given stage,
    number of atlases and slice of the target name. *)
Definition default_args (stage : string) (n_atlas ib ie : Z) : init_args :=
  InitArgs None None "image.nii.gz" n_atlas false false (V3 64 64 64) false
    None 1 2 [0; 205] true false stage "mr" "mr" ib ie ∅.

(** A directory with three subjects. *)
Definition three_subjects : list string :=
  [ "/data/s1_image.nii.gz"; "/data/s1_label.nii.gz";
    "/data/s2_image.nii.gz"; "/data/s2_label.nii.gz";
    "/data/s3_image.nii.gz"; "/data/s3_label.nii.gz" ].

(** Two targets and the four atlases registered to them. *)
Definition two_targets : list string :=
  [ "/data/mr_1001_image.nii.gz"; "/data/mr_1002_image.nii.gz" ].

Definition four_atlases : list string :=
  [ "/warped/target-mr_1001_atlas-a_image.nii.gz";
    "/warped/target-mr_1001_atlas-b_image.nii.gz";
    "/warped/target-mr_1002_atlas-a_image.nii.gz";
    "/warped/target-mr_1002_atlas-b_image.nii.gz" ].


(** Constructor arguments that differ from the defaults in the classes. *)
Definition label_args (n_class : Z) (label_intensity : list Z) : init_args :=
  InitArgs None None "image.nii.gz" 1 false false (V3 64 64 64) false
    None 1 n_class label_intensity true false "single" "mr" "mr" 0 (-1) ∅.

(** Constructor arguments for CT images, with clipping bounds and keyword
    arguments. *)
Definition ct_args (a_min a_max : option Q) (kwargs : gmap string string)
    : init_args :=
  InitArgs a_min a_max "image.nii.gz" 1 false false (V3 64 64 64) false
    None 1 2 [0; 205] true false "single" "ct" "ct" 0 (-1) kwargs.

(** Constructor arguments for patch cropping. *)
Definition patch_args (random_crop crop_roi : bool) (patch_size : vec3)
    (patch_center : option vec3) : init_args :=
  InitArgs None None "image.nii.gz" 1 true random_crop patch_size crop_roi
    patch_center 1 2 [0; 205] true false "single" "mr" "mr" 0 (-1) ∅.

(** A volume with the same value at every voxel. *)
Definition constant_volume (shape : nat * nat * nat) (x : Q) : volume Q :=
  Volume shape (fun _ _ _ => x).

(** A volume that is [x] at the index [c] and zero elsewhere. *)
Definition one_voxel_volume (shape c : nat * nat * nat) (x : Q) : volume Q :=
  Volume shape
    (fun i j k =>
       if (Nat.eqb i (fst (fst c)) && Nat.eqb j (snd (fst c)) && Nat.eqb k (snd c))%bool
       then x else 0%Q).

(** The foreground mask of [label] is empty: no voxel equals one of
    [label_intensity[1:]]. *)
Definition empty_foreground (self : provider) (label : volume Q) : Prop :=
  forall i j k v,
    In (i, j, k) (coords (vshape label)) ->
    In v (tail (label_intensity self)) ->
    ~ (vox label i j k == inject_Z v)%Q.

(** A volume with two voxels, [x] and [y]. *)
Definition two_voxel_volume (x y : Q) : volume Q :=
  Volume (1, 1, 2)%nat (fun _ _ k => if Nat.eqb k 0 then x else y).

(** The percentile of the example inputs: [np.percentile(data, p)] with its
    default linear interpolation between the two nearest ranks, on an array
    with at least one element. *)
Fixpoint insert_sorted (x : Q) (l : list Q) : list Q :=
  match l with
  | [] => [x]
  | y :: t => if Qle_bool x y then x :: l else y :: insert_sorted x t
  end.

Definition percentile_linear (p : Q) (data : volume Q) : Q :=
  let xs := fold_right insert_sorted [] (flatten data) in
  let pos := (inject_Z (Z.of_nat (length xs) - 1) * p / 100)%Q in
  let k := Qfloor pos in
  let a := nth (Z.to_nat k) xs 0%Q in
  let b := nth (Z.to_nat (k + 1)) xs a in
  (a + (pos - inject_Z k) * (b - a))%Q.

(** Every side of a shape is an [np.int16] value. *)
Definition fits_int16 (v : vec3) : Prop :=
  int16_range (ax0 v) /\ int16_range (ax1 v) /\ int16_range (ax2 v).

(** The bounds [b, e] lie within a volume of shape [shape]. *)
Definition within (b e shape : vec3) : Prop :=
  v3le (v3const 0) b /\ v3le e shape.

(** The assignment of one iteration of the loop of [_process_label], at one
    voxel whose rounded label is [g], for an index [k] in range. *)
Definition assign_channel (self : provider) (g : Z) (chans : list Z) (k : nat)
    : list Z :=
  <[k := b2z (g =? default 0 (label_intensity self !! k))]> chans.

(* ===================================================================== *)
(** ** The constructor with its search patterns *)
(* ===================================================================== *)

(** The constructor as it is called, with the two search patterns (lines 35,
    75-77, 111 and 277-278).  [glob] is [glob.glob] and [strsort] is
    [utils.strsort].  Line 111 hands the argument [atlas_search_path] to
    [_find_data_names], not the attribute that line 81 has filled in, and
    [glob.glob(None)] raises [TypeError]; the targets have been scanned by
    then and the assertion on their number has not been reached. *)
Definition construct (glob : string -> list string)
    (strsort : list string -> list string) (args : init_args)
    (target_search_path : string) (atlas_search_path : option string)
    : result provider :=
  _ ← py_assert (String.eqb (arg_stage args) "single"
                 || String.eqb (arg_stage args) "multi");
  _ ← py_assert (is_modality (arg_target_modality args));
  _ ← py_assert (is_modality (arg_atlas_modality args));
  let all_target_files := strsort (glob target_search_path) in
  match atlas_search_path with
  | None => Raise TypeError
  | Some path => __init__ args all_target_files (strsort (glob path))
  end.

(** The number of keys that the multi-stage pairing makes for one target. *)
Definition multi_stage_count (self : provider) (atlas_names : list string)
    (target_name : string) : nat :=
  binomial
    (length (List.filter (contains (correlation_marker self target_name))
               atlas_names))
    (Z.to_nat (n_atlas self)).

(* ===================================================================== *)
(** ** Atlases *)
(* ===================================================================== *)

(** [_process_atlas] (lines 446-454): the atlas is encoded, the encoding is
    bound to a local name, and the atlas itself is returned. *)
Definition _process_atlas (self : provider) (atlas : volume Q)
    : result (volume Q) :=
  binary_atlas ← _process_label self atlas;
  Ok atlas.

(** The index [c] is a foreground voxel of [label]: it lies in the volume
    and its value is one of [label_intensity[1:]]. *)
Definition foreground_voxel (self : provider) (label : volume Q)
    (c : nat * nat * nat) : Prop :=
  In c (coords (vshape label)) /\
  exists v, In v (tail (label_intensity self)) /\ (vox_at label c == inject_Z v)%Q.

(** The index [c] as a vector. *)
Definition idx_vec (c : nat * nat * nat) : vec3 := V3 (idx0 c) (idx1 c) (idx2 c).

(* ===================================================================== *)
(** ** The region-of-interest branch of [__getitem__] *)
(* ===================================================================== *)

(** A number used as a slice bound: a Python or NumPy integer, or a NumPy
    float.  Slicing an array with a float bound raises [TypeError]. *)
Inductive py_number : Type :=
| PyInt (z : Z)
| PyFloat (q : Q).

Definition slice_operand (x : py_number) : result Z :=
  match x with
  | PyInt z => Ok z
  | PyFloat _ => Raise TypeError
  end.

(** The first slicing of the region-of-interest branch (lines 135-138), with
    the default magnification rate.  [get_roi_coordinates] returns what
    [np.floor] computes, arrays of floats, and their entries are the slice
    bounds. *)
Definition getitem_roi_crop (self : provider) (target_label : volume Q)
    : result (volume Q) :=
  roi ← get_roi_coordinates self target_label (1 # 10);
  let roi_begin := fst roi in
  let roi_end := snd roi in
  b0 ← slice_operand (PyFloat (inject_Z (ax0 roi_begin)));
  e0 ← slice_operand (PyFloat (inject_Z (ax0 roi_end + 1)));
  b1 ← slice_operand (PyFloat (inject_Z (ax1 roi_begin)));
  e1 ← slice_operand (PyFloat (inject_Z (ax1 roi_end + 1)));
  b2 ← slice_operand (PyFloat (inject_Z (ax2 roi_begin)));
  e2 ← slice_operand (PyFloat (inject_Z (ax2 roi_end + 1)));
  Ok (crop target_label (V3 b0 b1 b2) (V3 e0 e1 e2)).

(* ===================================================================== *)
(** ** The collation of a batch *)
(* ===================================================================== *)

(** An array of any number of axes: its shape and its elements in C order. *)
Record ndarray : Type := NdArray { nd_shape : list nat; nd_data : list Q }.

Fixpoint shape_eqb (s t : list nat) : bool :=
  match s, t with
  | [], [] => true
  | a :: s', b :: t' => Nat.eqb a b && shape_eqb s' t'
  | _, _ => false
  end.

(** The length of the first axis. *)
Definition leading (a : ndarray) : nat := hd 0%nat (nd_shape a).

(** [np.concatenate(arrays, axis=0)]: it raises on an empty list, on an array
    without axes and on arrays that differ in an axis other than the first;
    in C order the elements of the result are those of the arrays, one array
    after the other. *)
Definition np_concatenate0 (arrays : list ndarray) : result ndarray :=
  match arrays with
  | [] => Raise ValueError
  | a :: rest =>
      match nd_shape a with
      | [] => Raise ValueError
      | _ :: trailing =>
          if forallb (fun b => match nd_shape b with
                               | [] => false
                               | _ :: t => shape_eqb t trailing
                               end) rest
          then Ok (NdArray (list_sum (List.map leading arrays) :: trailing)
                     (concat (List.map nd_data arrays)))
          else Raise ValueError
      end
  end.

(** What [__getitem__] returns; the affine and the header are opaque. *)
Record sample (M H : Type) : Type := Sample {
  s_target_image : ndarray;
  s_target_label : ndarray;
  s_target_weight : ndarray;
  s_target_affine : M;
  s_target_header : H;
  s_atlases_image : ndarray;
  s_atlases_label : ndarray;
  s_atlases_weight : ndarray;
  s_center_percent : ndarray
}.

Arguments Sample {M H}.
Arguments s_target_image {M H} s.
Arguments s_target_label {M H} s.
Arguments s_target_weight {M H} s.
Arguments s_target_affine {M H} s.
Arguments s_target_header {M H} s.
Arguments s_atlases_image {M H} s.
Arguments s_atlases_label {M H} s.
Arguments s_atlases_weight {M H} s.
Arguments s_center_percent {M H} s.

(** What [collate_fn] returns. *)
Record batch (M H : Type) : Type := Batch {
  b_target_image : ndarray;
  b_target_label : ndarray;
  b_target_affine : list M;
  b_target_header : list H;
  b_target_weight : ndarray;
  b_atlases_image : ndarray;
  b_atlases_label : ndarray;
  b_atlases_weight : ndarray;
  b_center_percent : ndarray
}.

Arguments Batch {M H}.
Arguments b_target_image {M H} b.
Arguments b_target_label {M H} b.
Arguments b_target_affine {M H} b.
Arguments b_target_header {M H} b.
Arguments b_target_weight {M H} b.
Arguments b_atlases_image {M H} b.
Arguments b_atlases_label {M H} b.
Arguments b_atlases_weight {M H} b.
Arguments b_center_percent {M H} b.

(** [collate_fn] (lines 481-497). *)
Definition collate_fn {M H} (res_list : list (sample M H)) : result (batch M H) :=
  TI ← np_concatenate0 (List.map s_target_image res_list);
  TL ← np_concatenate0 (List.map s_target_label res_list);
  TW ← np_concatenate0 (List.map s_target_weight res_list);
  let AF := List.map s_target_affine res_list in
  let HE := List.map s_target_header res_list in
  AI ← np_concatenate0 (List.map s_atlases_image res_list);
  AL ← np_concatenate0 (List.map s_atlases_label res_list);
  AW ← np_concatenate0 (List.map s_atlases_weight res_list);
  CP ← np_concatenate0 (List.map s_center_percent res_list);
  Ok (Batch TI TL AF HE TW AI AL AW CP).

(** The array fields of a sample, each with the field of the batch that
    collects it. *)
Definition array_fields {M H}
    : list ((sample M H -> ndarray) * (batch M H -> ndarray)) :=
  [ (s_target_image, b_target_image); (s_target_label, b_target_label);
    (s_target_weight, b_target_weight); (s_atlases_image, b_atlases_image);
    (s_atlases_label, b_atlases_label); (s_atlases_weight, b_atlases_weight);
    (s_center_percent, b_center_percent) ].

(** A sample whose arrays are all [a] and [center_percent] is [cp]. *)
Definition uniform_sample (a cp : ndarray) (affine header : nat) : sample nat nat :=
  Sample a a a affine header a a a cp.

(* ===================================================================== *)
(** * Properties *)
(* ===================================================================== *)

(** ** Combinations and products *)

Section Combinations.

Context {A B : Type}.
Implicit Types (l c : list A) (k : nat).

Lemma combinations_length l : forall k,
  length (combinations l k) = binomial (length l) k.
Proof.
  induction l as [|x t IH]; intros [|k]; simpl; try reflexivity.
  rewrite List.length_app, List.length_map, !IH. reflexivity.
Qed.

Lemma binomial_above n : forall k, (n < k)%nat -> binomial n k = 0%nat.
Proof.
  induction n as [|n IH]; intros [|k] Hk; simpl; try lia.
  rewrite !IH by lia. reflexivity.
Qed.

Lemma combinations_short l k : (length l < k)%nat -> combinations l k = [].
Proof.
  intros Hk. apply length_zero_iff_nil.
  rewrite combinations_length. now apply binomial_above.
Qed.

Lemma subseq_nil_l l : subseq [] l.
Proof. induction l; constructor; assumption. Qed.

Lemma subseq_In c l : subseq c l -> forall a, In a c -> In a l.
Proof.
  induction 1 as [|x c l _ IH|x c l _ IH]; simpl; intros a Ha; auto.
  destruct Ha as [->|Ha]; auto.
Qed.

Lemma combinations_sound l : forall k c,
  In c (combinations l k) -> subseq c l /\ length c = k.
Proof.
  induction l as [|x t IH]; intros [|k] c; simpl.
  - intros [<-|[]]. split; [constructor | reflexivity].
  - intros [].
  - intros [<-|[]]. split; [apply subseq_nil_l | reflexivity].
  - rewrite in_app_iff, in_map_iff. intros [(c' & <- & Hc')|Hc].
    + apply IH in Hc' as [Hs Hl]. split; [now constructor | simpl; now f_equal].
    + apply IH in Hc as [Hs Hl]. split; [now constructor | assumption].
Qed.

Lemma combinations_complete c l :
  subseq c l -> In c (combinations l (length c)).
Proof.
  induction 1 as [|x c l Hs IH|x c l Hs IH]; simpl.
  - now left.
  - destruct c as [|y c']; simpl in *.
    + now left.
    + apply in_app_iff. now right.
  - apply in_app_iff. left. now apply in_map.
Qed.

Lemma combinations_spec l k c :
  In c (combinations l k) <-> subseq c l /\ length c = k.
Proof.
  split; [apply combinations_sound|].
  intros [Hs <-]. now apply combinations_complete.
Qed.

Lemma product_length (xs : list B) (ys : list A) :
  length (product xs ys) = (length xs * length ys)%nat.
Proof.
  unfold product. induction xs as [|x xs IH]; simpl; [reflexivity|].
  now rewrite List.length_app, List.length_map, IH.
Qed.

Lemma product_spec (xs : list B) (ys : list A) x y :
  In (x, y) (product xs ys) <-> In x xs /\ In y ys.
Proof.
  unfold product. rewrite in_flat_map. split.
  - intros (x' & Hx & Hy). apply in_map_iff in Hy as (y' & Heq & Hy).
    injection Heq as -> ->. now split.
  - intros [Hx Hy]. exists x. split; [assumption | now apply in_map].
Qed.

End Combinations.

(** ** The pairing of names *)

Lemma py_combinations_ok {A} (l : list A) (r : Z) :
  0 <= r -> py_combinations l r = Ok (combinations l (Z.to_nat r)).
Proof.
  intros Hr. unfold py_combinations.
  destruct (Z.ltb_spec r 0); [lia | reflexivity].
Qed.

Lemma find_data_names_single self tfiles afiles suffix :
  stage self = "single" ->
  0 <= n_atlas self ->
  List.filter (contains suffix) tfiles <> [] ->
  _find_data_names self tfiles afiles suffix =
    Ok (product (List.filter (contains suffix) tfiles)
          (combinations (List.filter (contains suffix) afiles)
             (Z.to_nat (n_atlas self)))).
Proof.
  intros Hstage Hn Ht. unfold _find_data_names.
  destruct (List.filter (contains suffix) tfiles) as [|t ts] eqn:E; [congruence|].
  rewrite Hstage. simpl. now rewrite py_combinations_ok.
Qed.

Lemma multi_stage_loop_ok self atlas_names targets : forall all_names,
  0 <= n_atlas self ->
  multi_stage_loop self atlas_names targets all_names =
    Ok (all_names ++ List.map (multi_stage_keys self atlas_names) targets).
Proof.
  induction targets as [|t ts IH]; intros acc Hn; simpl.
  - now rewrite app_nil_r.
  - rewrite py_combinations_ok by assumption. simpl.
    rewrite IH by assumption. now rewrite <- app_assoc.
Qed.

Lemma find_data_names_multi self tfiles afiles suffix :
  stage self = "multi" ->
  0 <= n_atlas self ->
  List.filter (contains suffix) tfiles <> [] ->
  _find_data_names self tfiles afiles suffix =
    Ok (concat (List.map
                  (multi_stage_keys self (List.filter (contains suffix) afiles))
                  (List.filter (contains suffix) tfiles))).
Proof.
  intros Hstage Hn Ht. unfold _find_data_names.
  destruct (List.filter (contains suffix) tfiles) as [|t ts] eqn:E; [congruence|].
  rewrite Hstage.
  change (py_assert (0 <? Z.of_nat (length (t :: ts)))) with (Ok tt).
  cbn [mbind result_bind String.eqb Ascii.eqb Bool.eqb].
  rewrite multi_stage_loop_ok by assumption. reflexivity.
Qed.

(** The constructor succeeds as soon as its assertions hold and the names
    are found. *)
Lemma init_ok args tfiles afiles names :
  (arg_stage args = "single" \/ arg_stage args = "multi") ->
  is_modality (arg_target_modality args) = true ->
  is_modality (arg_atlas_modality args) = true ->
  Z.of_nat (length (arg_label_intensity args)) = arg_n_class args ->
  _find_data_names (init_attributes args) tfiles afiles (arg_image_suffix args)
    = Ok names ->
  __init__ args tfiles afiles = Ok (set_names (init_attributes args) names).
Proof.
  intros Hstage Ht Ha Hn Hnames. unfold __init__.
  assert (String.eqb (arg_stage args) "single"
          || String.eqb (arg_stage args) "multi" = true) as ->.
  { destruct Hstage as [-> | ->]; reflexivity. }
  rewrite Ht, Ha. simpl. rewrite Hnames. simpl.
  rewrite Hn, Z.eqb_refl. reflexivity.
Qed.

(** C8.  In single-stage mode the constructor stores the Cartesian product of
    the discovered targets with the combinations of [n_atlas] atlases drawn
    from the whole atlas pool: a key [(t, c)] is stored exactly when [t] is a
    discovered target and [c] is a subsequence of length [n_atlas] of the
    atlas pool.  [len()] is the number of targets times the binomial
    coefficient; with 3 targets and 3 atlases it is 9 for [n_atlas = 1] and
    for [n_atlas = 2]. *)
Theorem single_stage_cartesian_product args tfiles afiles :
  arg_stage args = "single" ->
  valid_args args ->
  0 <= arg_n_atlas args ->
  discovered (arg_image_suffix args) tfiles <> [] ->
  exists self,
    __init__ args tfiles afiles = Ok self /\
    _find_data_names (init_attributes args) tfiles afiles (arg_image_suffix args)
      = Ok (target_atlas_image_names self) /\
    target_atlas_image_names self =
      product (discovered (arg_image_suffix args) tfiles)
        (combinations (discovered (arg_image_suffix args) afiles)
           (Z.to_nat (arg_n_atlas args))) /\
    (forall t c,
        In (t, c) (target_atlas_image_names self) <->
        In t (discovered (arg_image_suffix args) tfiles) /\
        subseq c (discovered (arg_image_suffix args) afiles) /\
        length c = Z.to_nat (arg_n_atlas args)) /\
    __len__ self =
      Z.of_nat (length (discovered (arg_image_suffix args) tfiles)
                * binomial (length (discovered (arg_image_suffix args) afiles))
                    (Z.to_nat (arg_n_atlas args))) /\
    (length (discovered (arg_image_suffix args) tfiles) = 3%nat ->
     length (discovered (arg_image_suffix args) afiles) = 3%nat ->
     arg_n_atlas args = 1 \/ arg_n_atlas args = 2 ->
     __len__ self = 9).
Proof.
  intros Hstage (Ht & Ha & Hn) Hr Htargets.
  pose proof (find_data_names_single (init_attributes args) tfiles afiles
                (arg_image_suffix args) Hstage Hr Htargets) as Hfind.
  eexists. split; [|split; [|split; [|split; [|split]]]].
  - apply init_ok; eauto.
  - exact Hfind.
  - reflexivity.
  - intros t c. cbn [target_atlas_image_names set_names].
    rewrite product_spec, combinations_spec. reflexivity.
  - unfold __len__. cbn [target_atlas_image_names set_names].
    now rewrite product_length, combinations_length.
  - intros H3t H3a Hcase. unfold __len__.
    cbn [target_atlas_image_names set_names].
    rewrite product_length, combinations_length.
    unfold discovered in *. rewrite H3t, H3a.
    cbn [n_atlas init_attributes].
    destruct Hcase as [-> | ->]; reflexivity.
Qed.

(** *** Substrings, base names and slices *)

Lemma string_app_cons c s t :
  String.append (String c s) t = String c (String.append s t).
Proof. reflexivity. Qed.

Lemma string_app_nil_r s : String.append s "" = s.
Proof.
  induction s as [|c s IH]; [reflexivity|].
  now rewrite string_app_cons, IH.
Qed.

Lemma string_app_assoc a b c :
  String.append (String.append a b) c = String.append a (String.append b c).
Proof.
  induction a as [|x a IH]; [reflexivity|].
  now rewrite !string_app_cons, IH.
Qed.

Lemma list_ascii_app a b :
  list_ascii_of_string (String.append a b)
  = list_ascii_of_string a ++ list_ascii_of_string b.
Proof.
  induction a as [|x a IH]; [reflexivity|].
  rewrite string_app_cons. cbn [list_ascii_of_string]. now rewrite IH.
Qed.

Lemma prefix_occurs m : forall a,
  String.prefix m a = true <-> exists post, a = String.append m post.
Proof.
  induction m as [|c m IH]; intros a.
  - split; [intros _; now exists a|intros _; now destruct a].
  - destruct a as [|d a]; cbn [String.prefix].
    + split; [discriminate | intros [post H]; discriminate H].
    + destruct (ascii_dec c d) as [<- | Hne].
      * rewrite IH. split; intros [post H]; exists post.
        -- now rewrite string_app_cons, H.
        -- rewrite string_app_cons in H. now injection H.
      * split; [discriminate|]. intros [post H].
        rewrite string_app_cons in H. injection H as H1 _. congruence.
Qed.

Lemma contains_unfold m a :
  contains m a =
    if String.prefix m a then true
    else match a with
         | EmptyString => false
         | String _ rest => contains m rest
         end.
Proof. destruct a; reflexivity. Qed.

Lemma contains_occurs m a : contains m a = true <-> occurs_in m a.
Proof.
  unfold occurs_in. split.
  - induction a as [|c a IH]; rewrite contains_unfold;
      destruct (String.prefix m _) eqn:E; intros H; try discriminate H.
    + apply prefix_occurs in E as [post ->]. now exists "", post.
    + apply prefix_occurs in E as [post ->]. now exists "", post.
    + destruct (IH H) as (pre & post & ->). now exists (String c pre), post.
  - intros (pre & post & ->). induction pre as [|c pre IH].
    + rewrite contains_unfold.
      destruct (String.prefix m _) eqn:E; [reflexivity|].
      assert (String.prefix m (String.append "" (String.append m post)) = true)
        by (apply prefix_occurs; now exists post).
      congruence.
    + rewrite contains_unfold, string_app_cons.
      destruct (String.prefix m _); [reflexivity | exact IH].
Qed.

Lemma filter_restricted m (l : list string) :
  restricted (occurs_in m) l (List.filter (contains m) l).
Proof.
  induction l as [|a l IH]; cbn [List.filter]; [constructor|].
  destruct (contains m a) eqn:E.
  - apply restricted_keep; [now apply contains_occurs | exact IH].
  - apply restricted_drop; [|exact IH].
    intros H. apply contains_occurs in H. congruence.
Qed.

Lemma basename_from_spec p : forall acc,
  ~ In "/"%char (list_ascii_of_string acc) ->
  ~ In "/"%char (list_ascii_of_string (basename_from acc p)) /\
  (String.append acc p = basename_from acc p \/
   exists dir,
     String.append acc p
     = String.append dir (String "/"%char (basename_from acc p))).
Proof.
  induction p as [|c p IH]; intros acc Hacc; cbn [basename_from].
  - split; [exact Hacc|]. left. apply string_app_nil_r.
  - destruct (Ascii.eqb_spec c "/"%char) as [-> | Hne].
    + destruct (IH "") as [Hr Hsplit]; [intros []|].
      split; [exact Hr|]. right.
      destruct Hsplit as [Heq | [dir Heq]].
      * exists acc. change (String.append "" p) with p in Heq. now rewrite <- Heq.
      * exists (String.append acc (String "/"%char dir)).
        change (String.append "" p) with p in Heq.
        rewrite string_app_assoc, string_app_cons. now rewrite <- Heq.
    + destruct (IH (String.append acc (String c ""))) as [Hr Hsplit].
      { rewrite list_ascii_app. cbn [list_ascii_of_string].
        rewrite in_app_iff. intros [H | [H | []]]; [tauto | congruence]. }
      rewrite string_app_assoc in Hsplit.
      change (String.append (String c "") p) with (String c p) in Hsplit.
      split; assumption.
Qed.

Lemma basename_is_basename p : is_basename p (basename p).
Proof.
  destruct (basename_from_spec p "") as [Hr Hsplit]; [intros []|].
  split; [exact Hr | exact Hsplit].
Qed.

Lemma substring_split s : forall n m,
  (n <= String.length s)%nat ->
  exists pre post,
    s = String.append pre (String.append (String.substring n m s) post) /\
    String.length pre = n /\
    String.length (String.substring n m s) = Nat.min m (String.length s - n).
Proof.
  induction s as [|c s IH]; intros n m Hn.
  - cbn [String.length] in Hn. assert (n = 0%nat) as -> by lia.
    exists "", "". destruct m; repeat split.
  - destruct n as [|n].
    + destruct m as [|m].
      * exists "", (String c s). repeat split.
      * destruct (IH 0%nat m) as (pre & post & Heq & Hpre & Hlen); [lia|].
        destruct pre; [|discriminate Hpre].
        exists "", post. cbn [String.substring]. split; [|split].
        -- change (String.append "" ?x) with x in *.
           rewrite string_app_cons. now rewrite <- Heq.
        -- reflexivity.
        -- cbn [String.length]. rewrite Hlen. lia.
    + cbn [String.length] in Hn.
      destruct (IH n m) as (pre & post & Heq & Hpre & Hlen); [lia|].
      exists (String c pre), post. cbn [String.substring]. split; [|split].
      * rewrite string_app_cons. now rewrite <- Heq.
      * cbn [String.length]. now rewrite Hpre.
      * cbn [String.length]. rewrite Hlen. lia.
Qed.

Lemma py_slice_is_slice s b e : is_slice s b e (py_slice s b e).
Proof.
  unfold is_slice, py_slice, slice_index. cbv zeta.
  set (n := Z.of_nat (String.length s)).
  set (lo := if b <? 0 then Z.max (b + n) 0 else Z.min b n).
  set (hi := if e <? 0 then Z.max (e + n) 0 else Z.min e n).
  assert (Hn : 0 <= n) by (subst n; lia).
  assert (Hlo : 0 <= lo <= n) by (subst lo; destruct (b <? 0) eqn:E; [|apply Z.ltb_ge in E]; lia).
  assert (Hhi : 0 <= hi <= n) by (subst hi; destruct (e <? 0) eqn:E; [|apply Z.ltb_ge in E]; lia).
  destruct (substring_split s (Z.to_nat lo) (Z.to_nat (hi - lo)))
    as (pre & post & Heq & Hpre & Hlen); [subst n; lia|].
  exists pre, post. split; [exact Heq|]. split; [lia|].
  rewrite Hlen. subst n. lia.
Qed.

Lemma marker_is_correlation_substring self t :
  is_correlation_substring self t (correlation_marker self t).
Proof.
  exists (basename t),
         (py_slice (basename t) (image_name_index_begin self)
            (image_name_index_end self)).
  split; [apply basename_is_basename|].
  split; [apply py_slice_is_slice | reflexivity].
Qed.

(** C9.  In multi-stage mode every key holds a discovered target, and for
    every discovered target [t] the marker [m] of line 293 is the string
    ["target-" + basename(t)[begin:end]]; the pool of [t] holds exactly the
    discovered atlas names in which [m] occurs, in their order; the keys of
    [t] are its pairs with the subsequences of length [n_atlas] of that pool;
    so no key pairs [t] with an atlas name in which [m] does not occur. *)
Theorem multi_stage_filtered_pool self tfiles afiles suffix :
  stage self = "multi" ->
  0 <= n_atlas self ->
  discovered suffix tfiles <> [] ->
  exists keys,
    _find_data_names self tfiles afiles suffix = Ok keys /\
    (forall t c, In (t, c) keys -> In t (discovered suffix tfiles)) /\
    (forall t,
        In t (discovered suffix tfiles) ->
        exists m pool,
          m = correlation_marker self t /\
          is_correlation_substring self t m /\
          pool = List.filter (contains m) (discovered suffix afiles) /\
          restricted (occurs_in m) (discovered suffix afiles) pool /\
          (forall c,
              In (t, c) keys <->
              subseq c pool /\ length c = Z.to_nat (n_atlas self)) /\
          (forall c a,
              In (t, c) keys -> In a c ->
              In a (discovered suffix afiles) /\ occurs_in m a)).
Proof.
  intros Hstage Hr Htargets.
  rewrite (find_data_names_multi self tfiles afiles suffix Hstage Hr Htargets).
  eexists. split; [reflexivity|].
  assert (Hmem : forall t c,
    In (t, c) (concat (List.map
                  (multi_stage_keys self (List.filter (contains suffix) afiles))
                  (List.filter (contains suffix) tfiles))) <->
    In t (discovered suffix tfiles) /\
    subseq c (List.filter (contains (correlation_marker self t))
                (discovered suffix afiles)) /\
    length c = Z.to_nat (n_atlas self)).
  { intros t c. rewrite in_concat. unfold discovered. split.
    - intros (ks & Hks & Hin). apply in_map_iff in Hks as (t' & <- & Ht').
      unfold multi_stage_keys in Hin. apply product_spec in Hin as [Hin Hc].
      destruct Hin as [<- | []]. apply combinations_spec in Hc. tauto.
    - intros (Ht & Hs & Hl).
      exists (multi_stage_keys self (List.filter (contains suffix) afiles) t).
      split; [now apply in_map|].
      unfold multi_stage_keys. apply product_spec. split; [now left|].
      apply combinations_spec. tauto. }
  split.
  - intros t c Hkey. apply Hmem in Hkey. tauto.
  - intros t Ht.
    exists (correlation_marker self t),
           (List.filter (contains (correlation_marker self t))
              (discovered suffix afiles)).
    split; [reflexivity|].
    split; [apply marker_is_correlation_substring|].
    split; [reflexivity|].
    split; [apply filter_restricted|].
    split.
    + intros c. rewrite Hmem. tauto.
    + intros c a Hkey Ha. apply Hmem in Hkey as (_ & Hs & _).
      apply (subseq_In _ _ Hs) in Ha. apply filter_In in Ha as [Hin Hc].
      split; [exact Hin | now apply contains_occurs].
Qed.

(** C10.  In single-stage mode, with at least one discovered target and fewer
    discovered atlases than [n_atlas], the constructor succeeds and stores no
    key: [len()] is 0. *)
Theorem single_stage_too_few_atlases args tfiles afiles :
  arg_stage args = "single" ->
  valid_args args ->
  discovered (arg_image_suffix args) tfiles <> [] ->
  Z.of_nat (length (discovered (arg_image_suffix args) afiles)) < arg_n_atlas args ->
  exists self,
    __init__ args tfiles afiles = Ok self /\
    target_atlas_image_names self = [] /\
    __len__ self = 0.
Proof.
  intros Hstage (Ht & Ha & Hn) Htargets Hfew.
  assert (Hr : 0 <= arg_n_atlas args) by lia.
  pose proof (find_data_names_single (init_attributes args) tfiles afiles
                (arg_image_suffix args) Hstage Hr Htargets) as Hfind.
  cbn [n_atlas init_attributes] in Hfind.
  rewrite combinations_short in Hfind by (unfold discovered in Hfind, Hfew; lia).
  assert (Hnil : product (List.filter (contains (arg_image_suffix args)) tfiles)
                   (@nil (list string)) = []).
  { apply length_zero_iff_nil. rewrite product_length. simpl. lia. }
  rewrite Hnil in Hfind.
  eexists. split; [apply init_ok; eauto|]. split; reflexivity.
Qed.

(** Three subjects as targets and as atlases, pairs of atlases: 9 keys. *)
Lemma single_stage_cartesian_product_witness :
  exists self,
    __init__ (default_args "single" 2 0 (-1)) three_subjects three_subjects = Ok self /\
    __len__ self = 9.
Proof.
  destruct (single_stage_cartesian_product (default_args "single" 2 0 (-1))
              three_subjects three_subjects)
    as (self & Hinit & _ & _ & _ & _ & H9).
  - reflexivity.
  - repeat split; reflexivity.
  - simpl; lia.
  - vm_compute; discriminate.
  - exists self. split; [exact Hinit|].
    apply H9; [reflexivity | reflexivity | right; reflexivity].
Defined.

(** Two targets and four atlases registered to them, one atlas per key:
    the marker of the first target is ["target-mr_1001"], its atlas [a] makes
    a key with it, the atlas [a] of the second target does not, and there are
    four keys. *)
Lemma multi_stage_filtered_pool_witness :
  exists keys,
    _find_data_names (init_attributes (default_args "multi" 1 0 7))
      two_targets four_atlases "image.nii.gz" = Ok keys /\
    is_correlation_substring (init_attributes (default_args "multi" 1 0 7))
      "/data/mr_1001_image.nii.gz" "target-mr_1001" /\
    In ("/data/mr_1001_image.nii.gz",
        ["/warped/target-mr_1001_atlas-a_image.nii.gz"]) keys /\
    ~ In ("/data/mr_1001_image.nii.gz",
          ["/warped/target-mr_1002_atlas-a_image.nii.gz"]) keys /\
    length keys = 4%nat.
Proof.
  destruct (multi_stage_filtered_pool (init_attributes (default_args "multi" 1 0 7))
              two_targets four_atlases "image.nii.gz")
    as (keys & Hfind & _ & Hper).
  - reflexivity.
  - simpl; lia.
  - vm_compute; discriminate.
  - destruct (Hper "/data/mr_1001_image.nii.gz")
      as (m & pool & Hm & Hcorr & Hpool & _ & Hmem & _).
    { vm_compute. auto. }
    assert (Hmarker : m = "target-mr_1001") by (rewrite Hm; reflexivity).
    assert (Hp : pool = [ "/warped/target-mr_1001_atlas-a_image.nii.gz";
                          "/warped/target-mr_1001_atlas-b_image.nii.gz" ])
      by (rewrite Hpool, Hmarker; vm_compute; reflexivity).
    exists keys. split; [exact Hfind|].
    split; [rewrite <- Hmarker; exact Hcorr|].
    split; [|split].
    + apply Hmem. rewrite Hp. split; [|reflexivity].
      apply subseq_take, subseq_skip, subseq_nil.
    + intros Hkey. apply Hmem in Hkey as [Hs _]. rewrite Hp in Hs.
      inversion Hs as [|x c l Hs1|]; subst.
      inversion Hs1 as [|x c l Hs2|]; subst.
      inversion Hs2.
    + vm_compute in Hfind. injection Hfind as <-. reflexivity.
Defined.

(** Three atlases and [n_atlas = 4]. *)
Lemma single_stage_too_few_atlases_witness :
  exists self,
    __init__ (default_args "single" 4 0 (-1)) three_subjects three_subjects = Ok self /\
    __len__ self = 0.
Proof.
  destruct (single_stage_too_few_atlases (default_args "single" 4 0 (-1))
              three_subjects three_subjects)
    as (self & Hinit & _ & Hlen).
  - reflexivity.
  - repeat split; reflexivity.
  - vm_compute; discriminate.
  - vm_compute; reflexivity.
  - exists self. split; assumption.
Defined.

(** The pairing on the example inputs, by evaluation. *)
Example multi_stage_two_by_four :
  _find_data_names (init_attributes (default_args "multi" 1 0 7))
    two_targets four_atlases "image.nii.gz"
  = Ok [ ("/data/mr_1001_image.nii.gz",
          ["/warped/target-mr_1001_atlas-a_image.nii.gz"]);
         ("/data/mr_1001_image.nii.gz",
          ["/warped/target-mr_1001_atlas-b_image.nii.gz"]);
         ("/data/mr_1002_image.nii.gz",
          ["/warped/target-mr_1002_atlas-a_image.nii.gz"]);
         ("/data/mr_1002_image.nii.gz",
          ["/warped/target-mr_1002_atlas-b_image.nii.gz"]) ].
Proof. vm_compute. reflexivity. Qed.

Example single_stage_pairs_of_three :
  List.map snd
    (product ["t"] (combinations ["a1"; "a2"; "a3"] 2))
  = [ ["a1"; "a2"]; ["a1"; "a3"]; ["a2"; "a3"] ].
Proof. reflexivity. Qed.

(** ** The label encoder *)

Section LabelEncoder.

Variable self : provider.
Variable rounded : volume Z.

Lemma label_loop_ok (ks : list nat) : forall label,
  (forall k, In k ks -> (k < length (label_intensity self))%nat) ->
  exists label',
    label_loop self rounded ks label = Ok label' /\
    vshape label' = vshape label /\
    forall i j l,
      vox label' i j l = fold_left (assign_channel self (vox rounded i j l)) ks (vox label i j l).
Proof.
  induction ks as [|k rest IH]; intros label Hks; simpl.
  - exists label. auto.
  - destruct (lookup_lt_is_Some_2 (label_intensity self) k) as [v Hv].
    { apply Hks. now left. }
    rewrite Hv.
    edestruct IH as (label' & Hrun & Hshape & Hvox).
    { intros k' Hk'. apply Hks. now right. }
    exists label'. split; [exact Hrun|]. split; [exact Hshape|].
    intros i j l. rewrite Hvox. simpl. unfold assign_channel. now rewrite Hv.
Qed.

Lemma fold_step_length g m : forall a chans,
  length (fold_left (assign_channel self g) (seq a m) chans) = length chans.
Proof.
  induction m as [|m IH]; intros a chans; simpl; [reflexivity|].
  rewrite IH. unfold assign_channel. apply length_insert.
Qed.

Lemma fold_step_lookup g m : forall a chans c,
  (a + m <= length chans)%nat ->
  fold_left (assign_channel self g) (seq a m) chans !! c =
    if ((a <=? c) && (c <? a + m))%nat
    then Some (b2z (g =? default 0 (label_intensity self !! c)))
    else chans !! c.
Proof.
  induction m as [|m IH]; intros a chans c Hlen; simpl.
  - destruct (Nat.leb_spec a c), (Nat.ltb_spec c (a + 0)); simpl; try reflexivity; lia.
  - rewrite IH by (unfold assign_channel; rewrite length_insert; lia).
    destruct (Nat.leb_spec (S a) c), (Nat.ltb_spec c (S a + m)),
             (Nat.leb_spec a c), (Nat.ltb_spec c (a + S m)); simpl; try lia;
      try reflexivity; unfold assign_channel.
    all: first
      [ assert (c = a) as -> by lia;
        rewrite list_lookup_insert_eq by lia; reflexivity
      | rewrite list_lookup_insert_ne by lia; reflexivity ].
Qed.

End LabelEncoder.

Lemma map_lookup {A B} (f : A -> B) (l : list A) : forall i,
  List.map f l !! i = option_map f (l !! i).
Proof.
  induction l as [|x t IH]; intros [|i]; simpl; auto.
Qed.

(** The channels of a voxel when the loop is over: a zero, then the
    indicators of the foreground intensities. *)
Lemma channels_after_loop self g (n : nat) :
  (1 <= n)%nat ->
  length (label_intensity self) = n ->
  fold_left (assign_channel self g) (seq 1 (n - 1)) (replicate n 0)
  = 0 :: List.map (fun v => b2z (g =? v)) (tail (label_intensity self)).
Proof.
  intros Hn Hlen. apply list_eq. intros c.
  rewrite fold_step_lookup by (rewrite length_replicate; lia).
  destruct (label_intensity self) as [|v0 li] eqn:E; simpl in Hlen; [lia|].
  destruct c as [|c].
  - simpl. destruct n; [lia | reflexivity].
  - destruct (Nat.ltb_spec (S c) (1 + (n - 1))) as [Hc|Hc]; simpl;
      rewrite map_lookup.
    + destruct (lookup_lt_is_Some_2 li c) as [v Hv]; [lia|].
      rewrite Hv. reflexivity.
    + rewrite (lookup_ge_None_2 li c) by lia. simpl.
      apply lookup_ge_None_2. rewrite length_replicate. lia.
Qed.

Lemma zsum_indicator_range g (l : list Z) :
  0 <= zsum (List.map (fun v => b2z (g =? v)) l).
Proof.
  induction l as [|x t IH]; simpl; [lia|].
  destruct (g =? x); simpl; lia.
Qed.

Lemma zsum_indicator_absent g (l : list Z) :
  ~ In g l -> zsum (List.map (fun v => b2z (g =? v)) l) = 0.
Proof.
  induction l as [|x t IH]; simpl; intros Hin; [reflexivity|].
  destruct (Z.eqb_spec g x) as [->|Hne]; [tauto|].
  simpl. apply IH. tauto.
Qed.

Lemma zsum_indicator_nodup g (l : list Z) :
  List.NoDup l -> zsum (List.map (fun v => b2z (g =? v)) l) <= 1.
Proof.
  induction 1 as [|x t Hx Hnd IH]; simpl; [lia|].
  destruct (Z.eqb_spec g x) as [->|Hne]; simpl; [|exact IH].
  rewrite zsum_indicator_absent by assumption. lia.
Qed.

(** A sum of indicators is zero exactly when none of them is one. *)
Lemma zsum_indicator_zero g (l : list Z) :
  (zsum (List.map (fun v => b2z (g =? v)) l) =? 0)
  = negb (existsb (fun x => x =? 1) (List.map (fun v => b2z (g =? v)) l)).
Proof.
  induction l as [|x t IH]; simpl; [reflexivity|].
  pose proof (zsum_indicator_range g t).
  destruct (g =? x); simpl.
  - destruct (Z.eqb_spec (1 + zsum (List.map (fun v => b2z (g =? v)) t)) 0); [lia | reflexivity].
  - exact IH.
Qed.

Lemma process_label_ok self gt :
  1 <= n_class self ->
  Z.of_nat (length (label_intensity self)) = n_class self ->
  exists label,
    _process_label self gt = Ok [label] /\
    vshape label = vshape gt /\
    forall i j k,
      vox label i j k =
        b2z (zsum (List.map (fun v => b2z (around (vox gt i j k) =? v))
                     (tail (label_intensity self))) =? 0)
        :: List.map (fun v => b2z (around (vox gt i j k) =? v))
             (tail (label_intensity self)).
Proof.
  intros Hn Hlen. unfold _process_label.
  destruct (Z.ltb_spec (n_class self) 0) as [|_]; [lia|].
  destruct (label_loop_ok self (vmap around gt)
              (seq 1 (Z.to_nat (n_class self) - 1))
              (vmap (fun _ => replicate (Z.to_nat (n_class self)) 0)
                 (vmap around gt)))
    as (label' & Hrun & Hshape & Hvox).
  { intros k Hk. apply in_seq in Hk. lia. }
  rewrite Hrun. cbn [mbind result_bind].
  destruct (Z.eqb_spec (n_class self) 0) as [|_]; [lia|].
  eexists. split; [reflexivity|]. split; [exact Hshape|].
  intros i j k. cbn [vmap vox]. rewrite Hvox. cbn [vmap vox].
  rewrite channels_after_loop by lia. reflexivity.
Qed.

(** C6, amended.  For a provider with at least one class and as many label
    intensities as classes, [_process_label] returns a tensor of shape
    [1, nx, ny, nz, n_class]; at every voxel channel [c >= 1] is the indicator
    of the rounded label being [label_intensity[c]], channel 0 is the negation
    of the union of the other channels, and the channels sum to 1 when the
    foreground intensities [label_intensity[1:]] are pairwise distinct. *)
Theorem process_label_one_hot self gt :
  1 <= n_class self ->
  Z.of_nat (length (label_intensity self)) = n_class self ->
  exists label,
    _process_label self gt = Ok [label] /\
    vshape label = vshape gt /\
    forall i j k,
      length (vox label i j k) = Z.to_nat (n_class self) /\
      (forall c v,
          (1 <= c)%nat -> label_intensity self !! c = Some v ->
          vox label i j k !! c = Some (b2z (around (vox gt i j k) =? v))) /\
      vox label i j k !! 0%nat =
        Some (b2z (negb (existsb (fun x => x =? 1) (drop 1 (vox label i j k))))) /\
      (List.NoDup (tail (label_intensity self)) -> zsum (vox label i j k) = 1).
Proof.
  intros Hn Hlen.
  destruct (process_label_ok self gt Hn Hlen) as (label & Hrun & Hshape & Hvox).
  exists label. split; [exact Hrun|]. split; [exact Hshape|].
  intros i j k. rewrite Hvox.
  destruct (label_intensity self) as [|v0 li] eqn:E; [simpl in Hlen; lia|].
  cbn [tail]. split; [|split; [|split]].
  - simpl. rewrite List.length_map. simpl in Hlen. lia.
  - intros [|c] v Hc Hv; [lia|]. simpl in Hv |- *.
    rewrite map_lookup, Hv. reflexivity.
  - simpl. now rewrite zsum_indicator_zero.
  - intros Hnd. cbn [zsum fold_right].
    pose proof (zsum_indicator_range (around (vox gt i j k)) li) as H0.
    pose proof (zsum_indicator_nodup (around (vox gt i j k)) li Hnd) as H1.
    fold (zsum (List.map (fun v => b2z (around (vox gt i j k) =? v)) li)).
    destruct (Z.eqb_spec
                (zsum (List.map (fun v => b2z (around (vox gt i j k) =? v)) li)) 0);
      simpl; lia.
Qed.

(** Three classes and a volume with one voxel of intensity 204.9. *)
Lemma process_label_one_hot_witness :
  exists label,
    _process_label (init_attributes (label_args 3 [0; 205; 420]))
      (one_voxel_volume (2, 2, 2) (1, 0, 1) (2049 # 10))%nat = Ok [label] /\
    zsum (vox label 1 0 1)%nat = 1.
Proof.
  destruct (process_label_one_hot (init_attributes (label_args 3 [0; 205; 420]))
              (one_voxel_volume (2, 2, 2) (1, 0, 1) (2049 # 10))%nat)
    as (label & Hrun & _ & Hvox).
  - simpl; lia.
  - reflexivity.
  - exists label. split; [exact Hrun|].
    apply (Hvox 1 0 1)%nat. simpl. repeat constructor; simpl; intuition lia.
Defined.

(** C6, counterexample.  With a foreground intensity listed twice a voxel of
    that intensity has two active channels; with no class at all the encoder
    raises. *)
Lemma process_label_sum_counterexample :
  (exists label,
      _process_label (init_attributes (label_args 3 [0; 205; 205]))
        (constant_volume (1, 1, 1)%nat 205) = Ok [label] /\
      vox label 0 0 0 = [0; 1; 1] /\
      zsum (vox label 0 0 0) <> 1) /\
  _process_label (init_attributes (label_args 0 []))
    (constant_volume (1, 1, 1)%nat 205) = Raise IndexError.
Proof.
  split.
  - eexists. split; [reflexivity|]. split; [reflexivity | discriminate].
  - reflexivity.
Qed.

(** ** Foreground *)

Lemma coords_spec nx ny nz i j k :
  In (i, j, k) (coords (nx, ny, nz)) <-> (i < nx /\ j < ny /\ k < nz)%nat.
Proof.
  unfold coords. rewrite in_flat_map. split.
  - intros (i' & Hi & Hin). apply in_flat_map in Hin as (j' & Hj & Hin).
    apply in_map_iff in Hin as (k' & Heq & Hk).
    injection Heq as <- <- <-. apply in_seq in Hi, Hj, Hk. lia.
  - intros (Hi & Hj & Hk). exists i. split; [apply in_seq; lia|].
    apply in_flat_map. exists j. split; [apply in_seq; lia|].
    apply in_map_iff. exists k. split; [reflexivity | apply in_seq; lia].
Qed.

Lemma filter_none {A} (f : A -> bool) (l : list A) :
  (forall x, In x l -> f x = false) -> List.filter f l = [].
Proof.
  induction l as [|x t IH]; simpl; intros H; [reflexivity|].
  rewrite (H x) by now left. apply IH. intros y Hy. apply H. now right.
Qed.

(** On an empty foreground the mask, when it can be built, has no index. *)
Lemma empty_foreground_argwhere self label flag :
  empty_foreground self label ->
  foreground_flag self label = Ok flag ->
  argwhere flag = [].
Proof.
  intros Hempty Hflag. unfold foreground_flag in Hflag.
  destruct (tail (label_intensity self)) as [|k0 ks] eqn:E; [discriminate|].
  rewrite <- E in Hflag. clear E.
  injection Hflag as <-. unfold argwhere. apply filter_none.
  intros [[i j] k] Hin. cbn [vmap vshape] in Hin. cbn [vox_at vmap vox].
  apply not_true_is_false. intros Hex. apply existsb_exists in Hex as (v & Hv & Heq).
  apply Qeq_bool_iff in Heq. exact (Hempty i j k v Hin Hv Heq).
Qed.

Lemma foreground_flag_cases self label :
  (tail (label_intensity self) = [] /\
   foreground_flag self label = Raise ValueError) \/
  (tail (label_intensity self) <> [] /\
   exists flag, foreground_flag self label = Ok flag).
Proof.
  unfold foreground_flag.
  destruct (tail (label_intensity self)); [left | right]; split;
    try reflexivity; try discriminate; eauto.
Qed.

(** C7, amended.  On every label volume with an empty foreground mask
    [get_roi_coordinates] raises [ValueError].  [_get_foreground_center]
    raises only when there is no foreground intensity at all
    ([label_intensity[1:]] is empty); otherwise it returns, on every axis,
    what the cast of NaN to [np.int16] yields. *)
Theorem empty_foreground_roi_and_center nan_as_int16 self label mag_rate :
  empty_foreground self label ->
  get_roi_coordinates self label mag_rate = Raise ValueError /\
  (tail (label_intensity self) <> [] ->
   _get_foreground_center nan_as_int16 self label =
     Ok (V3 nan_as_int16 nan_as_int16 nan_as_int16)) /\
  (tail (label_intensity self) = [] ->
   _get_foreground_center nan_as_int16 self label = Raise ValueError).
Proof.
  intros Hempty. unfold get_roi_coordinates, _get_foreground_center.
  destruct (foreground_flag_cases self label) as [[Hnil Hflag] | [Hcons [flag Hflag]]].
  - rewrite Hflag. split; [reflexivity|]. split; [congruence | reflexivity].
  - rewrite Hflag. cbn [mbind result_bind].
    rewrite (empty_foreground_argwhere self label flag Hempty Hflag).
    split; [reflexivity|]. split; [reflexivity | congruence].
Qed.

(** A volume that is all background. *)
Lemma empty_foreground_roi_and_center_witness :
  get_roi_coordinates (init_attributes (label_args 2 [0; 205]))
    (constant_volume (2, 2, 2)%nat 0) (1 # 10) = Raise ValueError.
Proof.
  apply (empty_foreground_roi_and_center 0 (init_attributes (label_args 2 [0; 205]))
           (constant_volume (2, 2, 2)%nat 0) (1 # 10)).
  intros i j k v _ Hv. simpl in Hv. destruct Hv as [<- | []].
  simpl. unfold Qeq. simpl. lia.
Defined.

(** C7, counterexample.  On a label volume that is all background the
    foreground centre is returned, not raised. *)
Lemma foreground_center_empty_counterexample :
  empty_foreground (init_attributes (label_args 2 [0; 205]))
    (constant_volume (2, 2, 2)%nat 0) /\
  _get_foreground_center 0 (init_attributes (label_args 2 [0; 205]))
    (constant_volume (2, 2, 2)%nat 0) = Ok (V3 0 0 0) /\
  ~ raises (_get_foreground_center 0 (init_attributes (label_args 2 [0; 205]))
              (constant_volume (2, 2, 2)%nat 0)).
Proof.
  split; [|split].
  - intros i j k v _ Hv. simpl in Hv. destruct Hv as [<- | []].
    simpl. unfold Qeq. simpl. lia.
  - reflexivity.
  - intros [e He]. discriminate He.
Qed.

(** ** The image normaliser *)

Section Normaliser.

Variable percentile99 : volume Q -> Q.
Variable zscore : volume Q -> volume flt.
Variable randomFilter : volume Q -> volume Q.

#[local] Abbreviation process_image :=
  (_process_image percentile99 zscore randomFilter).

(** The lower bound is stored as configured. *)
Lemma init_a_min args :
  a_min (init_attributes args) =
    match arg_a_min args with Some v => Fin v | None => NegInf end.
Proof. reflexivity. Qed.

(** The upper bound is stored as configured when the lower bound is set. *)
Lemma init_a_max_with_a_min args lo :
  arg_a_min args = Some lo ->
  a_max (init_attributes args) = option_map Fin (arg_a_max args).
Proof.
  intros H. unfold init_attributes. cbn [a_max]. rewrite H.
  destruct (arg_a_max args); reflexivity.
Qed.

(** The upper bound is dropped when the lower bound is left unset. *)
Lemma init_a_max_without_a_min args :
  arg_a_min args = None ->
  a_max (init_attributes args) = Some PosInf.
Proof. intros H. unfold init_attributes. cbn [a_max]. now rewrite H. Qed.

(** Without normalisation and augmentation a CT voxel is clipped to the
    stored bounds and given its one channel. *)
Lemma process_image_ct_clip self data :
  channels self = 1%nat ->
  process_image self data "ct" false false =
    (Ok (expand_tile 1 (vmap Num (np_clip data (a_min self) (a_max self)))),
     self).
Proof.
  intros Hch. unfold _process_image, tile_channels.
  cbn [String.eqb Ascii.eqb Bool.eqb]. now rewrite Hch.
Qed.

(** C3, at the failing input [a_min=None, a_max=100].  The stored upper bound
    is +inf, and a CT voxel of 500 leaves the normaliser as 500, not as 100
    (a voxel of 50 is left as it is). *)
Theorem ct_a_max_dropped_without_a_min :
  let self := init_attributes (ct_args None (Some 100%Q) ∅) in
  a_min self = NegInf /\
  a_max self = Some PosInf /\
  exists tensor,
    process_image self (two_voxel_volume 500 50) "ct" false false
      = (Ok [tensor], self) /\
    vshape tensor = (1, 1, 2)%nat /\
    vox tensor 0 0 0 = [Num 500] /\
    vox tensor 0 0 1 = [Num 50].
Proof.
  cbv zeta. split; [reflexivity|]. split; [reflexivity|].
  eexists. split; [reflexivity|]. repeat split.
Qed.

(** With both bounds configured the same voxels are clipped to [0, 100]. *)
Example ct_clip_with_both_bounds :
  let self := init_attributes (ct_args (Some 0%Q) (Some 100%Q) ∅) in
  exists tensor,
    process_image self (two_voxel_volume 500 50) "ct" false false
      = (Ok [tensor], self) /\
    vox tensor 0 0 0 = [Num 100] /\
    vox tensor 0 0 1 = [Num 50].
Proof. cbv zeta. eexists. repeat split. Qed.

(** A normalised call that gets past the clipping removes the method from
    the keyword arguments. *)
Lemma process_image_pops self data modality augmentation :
  is_modality modality = true ->
  (modality = "mr" -> flatten data <> []) ->
  kwargs (snd (process_image self data modality true augmentation))
    = delete "normalization_method" (kwargs self).
Proof.
  intros Hm Hne. unfold _process_image.
  destruct (String.eqb modality "mr") eqn:Emr.
  - apply String.eqb_eq in Emr. specialize (Hne Emr).
    destruct (flatten data); [congruence | reflexivity].
  - destruct (String.eqb modality "ct") eqn:Ect; [reflexivity|].
    unfold is_modality in Hm. rewrite Emr, Ect in Hm. discriminate.
Qed.

(** Once the method is gone a normalised call uses the z-score. *)
Lemma process_image_default_method self data :
  channels self = 1%nat ->
  kwargs self !! "normalization_method" = None ->
  fst (process_image self data "ct" true false)
    = Ok (expand_tile 1 (zscore (np_clip data (a_min self) (a_max self)))).
Proof.
  intros Hch Hk. unfold _process_image, tile_channels.
  cbn [String.eqb Ascii.eqb Bool.eqb]. rewrite Hk.
  cbn [default from_option id String.eqb Ascii.eqb Bool.eqb mbind result_bind
       fst channels set_kwargs].
  now rewrite Hch.
Qed.

(** C4, at the failing input [normalization_method='min-max'].  The first
    normalised call rescales by min-max and leaves the provider without the
    configured method; the second call on the provider so left uses the
    z-score. *)
Theorem normalization_method_consumed :
  let self :=
    init_attributes
      (ct_args (Some 0%Q) (Some 100%Q) {["normalization_method" := "min-max"]}) in
  let data := two_voxel_volume 20 60 in
  exists tensor self' q0 q1,
    process_image self data "ct" true false = (Ok [tensor], self') /\
    vox tensor 0 0 0 = [Num q0] /\ (q0 == 0)%Q /\
    vox tensor 0 0 1 = [Num q1] /\ (q1 == 1)%Q /\
    kwargs self !! "normalization_method" = Some "min-max" /\
    kwargs self' !! "normalization_method" = None /\
    self' <> self /\
    fst (process_image self' data "ct" true false)
      = Ok (expand_tile 1 (zscore (np_clip data (Fin 0) (Some (Fin 100))))).
Proof.
  cbv zeta.
  set (self := init_attributes
                 (ct_args (Some 0%Q) (Some 100%Q)
                    {["normalization_method" := "min-max"]})).
  set (data := two_voxel_volume 20 60).
  assert (Hbefore : kwargs self !! "normalization_method" = Some "min-max").
  { subst self. cbn [kwargs init_attributes ct_args arg_kwargs].
    rewrite lookup_delete_ne by discriminate. apply lookup_singleton_eq. }
  assert (Hafter : kwargs (snd (process_image self data "ct" true false))
                   !! "normalization_method" = None).
  { rewrite process_image_pops; [|reflexivity|discriminate].
    apply lookup_delete_eq. }
  destruct (process_image self data "ct" true false) as [r self'] eqn:Hrun.
  unfold _process_image in Hrun.
  cbn [String.eqb Ascii.eqb Bool.eqb] in Hrun. rewrite Hbefore in Hrun.
  cbn in Hrun. injection Hrun as <- Hself.
  eexists _, self', _, _. split; [reflexivity|].
  split; [vm_compute; reflexivity|]. split; [reflexivity|].
  split; [vm_compute; reflexivity|]. split; [reflexivity|].
  split; [exact Hbefore|]. split; [exact Hafter|]. split.
  - intros ->. cbn [snd] in Hafter. congruence.
  - apply (process_image_default_method self' data) in Hafter as Hz;
      [|subst self'; reflexivity].
    subst self'. exact Hz.
Qed.

End Normaliser.

(** ** The patch geometry *)

Lemma wrap16_range z : int16_range (wrap16 z).
Proof.
  unfold wrap16, int16_range.
  pose proof (Z.mod_pos_bound (z + 32768) 65536 ltac:(lia)). lia.
Qed.

Lemma wrap16_id z : int16_range z -> wrap16 z = z.
Proof.
  unfold wrap16, int16_range. intros H.
  rewrite Z.mod_small by lia. lia.
Qed.

Lemma asarray16_fits v : fits_int16 (asarray16 v).
Proof. repeat split; apply wrap16_range. Qed.

(** One axis of the default geometry: the centre of the volume, then the
    bounds, all in [np.int16] arithmetic. *)
Lemma default_axis p n :
  int16_range p -> int16_range n -> 0 <= n -> p <= n ->
  let c := wrap16 n / 2 in
  let b := wrap16 (c - p / 2) in
  let e := wrap16 (wrap16 (c - p / 2) + p) in
  b = n / 2 - p / 2 /\ e = n / 2 - p / 2 + p /\ 0 <= b /\ e <= n.
Proof.
  unfold int16_range. intros Hp Hn H0 Hle. cbv zeta.
  rewrite (wrap16_id n) by (unfold int16_range; lia).
  rewrite (wrap16_id (n / 2 - p / 2))
    by (unfold int16_range; Z.to_euclidean_division_equations; lia).
  rewrite wrap16_id
    by (unfold int16_range; Z.to_euclidean_division_equations; lia).
  repeat split; Z.to_euclidean_division_equations; lia.
Qed.

Lemma v3all_le_spec a b : v3all_le a b = true <-> v3le a b.
Proof.
  unfold v3all_le, v3le. rewrite !andb_true_iff, !Z.leb_le. tauto.
Qed.

Section PatchGeometry.

Variable nan_as_int16 : Z.

#[local] Abbreviation select := (select_patch_center nan_as_int16).
#[local] Abbreviation bounds := (getitem_patch_bounds nan_as_int16).

(** The comparison of the scalar with the three-element array has no truth
    value: the foreground-constrained draw raises on its first axis. *)
Lemma random_roi_axis_raises self roi ps shape draw :
  random_roi_axis self roi ps shape draw = Raise ValueError.
Proof. reflexivity. Qed.

(** Only the default policy binds [target_patch_center]. *)
Lemma select_binds_target self tis tl ais draws locals c :
  select self tis tl ais draws = Ok locals ->
  target_patch_center_local locals = Some c ->
  patch_center self = None /\
  random_crop self = false /\
  crop_roi self = false /\
  locals = PatchLocals None (Some (half16 (asarray16 tis)))
                            (Some (half16 (asarray16 ais))).
Proof.
  unfold select_patch_center. intros Hsel Hc.
  destruct (patch_center self) as [pc|].
  { injection Hsel as <-. discriminate Hc. }
  destruct (random_crop self), (crop_roi self); cbn [andb negb] in Hsel.
  - destruct (_get_foreground_center nan_as_int16 self tl); discriminate Hsel.
  - repeat match type of Hsel with
           | context [random_axis ?p ?n ?d] =>
               destruct (random_axis p n d); cbn [mbind result_bind] in Hsel
           end; try discriminate Hsel.
    injection Hsel as <-. discriminate Hc.
  - destruct (_get_foreground_center nan_as_int16 self tl);
      cbn [mbind result_bind] in Hsel; [|discriminate Hsel].
    injection Hsel as <-. discriminate Hc.
  - injection Hsel as <-. auto.
Qed.

(** A fixed centre is bound to [patch_center], and the bounds, which read
    [target_patch_center], raise. *)
Lemma fixed_center_unbound self tis tl ais als draws c :
  patch_center self = Some c ->
  v3le (patch_size self) (shape_vec (vshape tl)) ->
  v3le (patch_size self) als ->
  select self tis tl ais draws = Ok (PatchLocals (Some (asarray16 c)) None None) /\
  bounds self tis tl ais als draws = Raise UnboundLocalError.
Proof.
  intros Hc Ht Ha. apply v3all_le_spec in Ht, Ha.
  unfold getitem_patch_bounds, select_patch_center.
  rewrite Ht, Ha, Hc. split; reflexivity.
Qed.

(** The foreground-constrained random policy raises [ValueError]. *)
Lemma random_roi_raises self tis tl ais als draws :
  patch_center self = None ->
  random_crop self = true ->
  crop_roi self = true ->
  v3le (patch_size self) (shape_vec (vshape tl)) ->
  v3le (patch_size self) als ->
  bounds self tis tl ais als draws = Raise ValueError.
Proof.
  intros Hc Hr Hroi Ht Ha. apply v3all_le_spec in Ht, Ha.
  unfold getitem_patch_bounds, select_patch_center.
  rewrite Ht, Ha, Hc, Hr, Hroi. cbn [py_assert mbind result_bind andb negb].
  unfold _get_foreground_center.
  destruct (foreground_flag_cases self tl) as [[_ ->] | [_ [flag ->]]];
    reflexivity.
Qed.


(** The default policy: the bounds are centred on the volume and lie inside
    it. *)
Lemma default_policy_bounds self tl ais draws :
  patch_center self = None ->
  random_crop self = false ->
  crop_roi self = false ->
  fits_int16 (patch_size self) ->
  fits_int16 (shape_vec (vshape tl)) ->
  fits_int16 ais ->
  v3le (v3const 0) ais ->
  v3le (patch_size self) (shape_vec (vshape tl)) ->
  v3le (patch_size self) ais ->
  exists b,
    bounds self (shape_vec (vshape tl)) tl ais ais draws = Ok b /\
    target_begin b =
      v3map2 Z.sub (half16 (shape_vec (vshape tl))) (half16 (patch_size self)) /\
    target_end b = v3map2 Z.add (target_begin b) (patch_size self) /\
    atlas_begin b = v3map2 Z.sub (half16 ais) (half16 (patch_size self)) /\
    atlas_end b = v3map2 Z.add (atlas_begin b) (patch_size self) /\
    within (target_begin b) (target_end b) (shape_vec (vshape tl)) /\
    within (atlas_begin b) (atlas_end b) ais.
Proof.
  intros Hc Hr Hroi Hps Hts Has Ha0 Ht Ha.
  pose proof Ht as Ht'. pose proof Ha as Ha'.
  apply v3all_le_spec in Ht', Ha'.
  unfold getitem_patch_bounds, select_patch_center.
  rewrite Ht', Ha', Hc, Hr, Hroi.
  cbn [py_assert mbind result_bind andb negb read_local
       target_patch_center_local atlas_patch_center_local].
  eexists. split; [reflexivity|].
  cbn [target_begin target_end atlas_begin atlas_end].
  assert (Hshape0 : v3le (v3const 0) (shape_vec (vshape tl))).
  { destruct (vshape tl) as [[nx ny] nz]. unfold v3le. simpl. lia. }
  destruct (patch_size self) as [p0 p1 p2].
  destruct (shape_vec (vshape tl)) as [n0 n1 n2].
  destruct ais as [m0 m1 m2].
  cbv [fits_int16 v3le v3const within sub16 add16 half16 asarray16
       v3map v3map2 ax0 ax1 ax2] in *.
  destruct Hps as (? & ? & ?), Hts as (? & ? & ?), Has as (? & ? & ?),
           Ha0 as (? & ? & ?), Ht as (? & ? & ?), Ha as (? & ? & ?),
           Hshape0 as (? & ? & ?).
  destruct (default_axis p0 n0) as (-> & -> & ? & ?); try assumption.
  destruct (default_axis p1 n1) as (-> & -> & ? & ?); try assumption.
  destruct (default_axis p2 n2) as (-> & -> & ? & ?); try assumption.
  destruct (default_axis p0 m0) as (-> & -> & ? & ?); try assumption.
  destruct (default_axis p1 m1) as (-> & -> & ? & ?); try assumption.
  destruct (default_axis p2 m2) as (-> & -> & ? & ?); try assumption.
  repeat split; assumption.
Qed.

End PatchGeometry.

(** Bounds are computed only under the default policy, after both size
    assertions have passed. *)
Lemma bounds_ok_default nan_as_int16 self tis tl ais als draws b :
  getitem_patch_bounds nan_as_int16 self tis tl ais als draws = Ok b ->
  patch_center self = None /\
  random_crop self = false /\
  crop_roi self = false /\
  v3le (patch_size self) (shape_vec (vshape tl)) /\
  v3le (patch_size self) als.
Proof.
  unfold getitem_patch_bounds. intros H.
  destruct (v3all_le (patch_size self) (shape_vec (vshape tl))) eqn:Et;
    [|discriminate H].
  destruct (v3all_le (patch_size self) als) eqn:Ea; [|discriminate H].
  cbn [py_assert mbind result_bind] in H.
  destruct (select_patch_center nan_as_int16 self tis tl ais draws)
    as [locals|e] eqn:Esel; [|discriminate H].
  cbn [mbind result_bind] in H.
  destruct (target_patch_center_local locals) as [c|] eqn:Ec; [|discriminate H].
  destruct (select_binds_target nan_as_int16 self tis tl ais draws locals c Esel Ec)
    as (Hc & Hr & Hroi & _).
  apply v3all_le_spec in Et, Ea. auto.
Qed.

(** C1, at the failing input [patch_center=(48, 48, 48)], patch size 64 and
    volumes of side 96.  The supplied centre is bound to [patch_center]; the
    bounds read [target_patch_center], which this policy leaves unbound, and
    [__getitem__] raises instead of cropping. *)
Theorem fixed_patch_center_raises nan_as_int16 draws :
  let self :=
    init_attributes (patch_args false false (V3 64 64 64) (Some (V3 48 48 48))) in
  let label := constant_volume (96, 96, 96)%nat 0 in
  getitem_mode self = PatchCrop /\
  select_patch_center nan_as_int16 self (V3 96 96 96) label (V3 96 96 96) draws
    = Ok (PatchLocals (Some (V3 48 48 48)) None None) /\
  getitem_patch_bounds nan_as_int16 self (V3 96 96 96) label (V3 96 96 96)
    (V3 96 96 96) draws = Raise UnboundLocalError /\
  getitem_patch_volumes nan_as_int16 self label label [label] [label] draws
    = Raise UnboundLocalError.
Proof.
  cbv zeta. split; [reflexivity|].
  assert (H : forall tis ais als,
    v3le (V3 64 64 64) als ->
    select_patch_center nan_as_int16
      (init_attributes
         (patch_args false false (V3 64 64 64) (Some (V3 48 48 48))))
      tis (constant_volume (96, 96, 96)%nat 0) ais draws
      = Ok (PatchLocals (Some (V3 48 48 48)) None None) /\
    getitem_patch_bounds nan_as_int16
      (init_attributes
         (patch_args false false (V3 64 64 64) (Some (V3 48 48 48))))
      tis (constant_volume (96, 96, 96)%nat 0) ais als draws
      = Raise UnboundLocalError).
  { intros tis ais als Hals.
    apply (fixed_center_unbound nan_as_int16 _ _ _ _ _ _ (V3 48 48 48));
      [reflexivity | cbv; repeat split; discriminate | exact Hals]. }
  assert (H96 : v3le (V3 64 64 64) (V3 96 96 96))
    by (cbv; repeat split; discriminate).
  split; [apply (H (V3 96 96 96) (V3 96 96 96) (V3 96 96 96) H96)|].
  split; [apply (H (V3 96 96 96) (V3 96 96 96) (V3 96 96 96) H96)|].
  unfold getitem_patch_volumes.
  change (np_stack_shape [constant_volume (96, 96, 96)%nat 0])
    with (Ok (V3 96 96 96)).
  cbn [mbind result_bind].
  change (shape_vec (vshape (constant_volume (96, 96, 96)%nat 0)))
    with (V3 96 96 96).
  now rewrite (proj2 (H (V3 96 96 96) (V3 96 96 96) (V3 96 96 96) H96)).
Qed.

(** C2, at the failing input: random foreground-constrained cropping of
    patches of side 4 in a volume of side 8 whose foreground is the voxel
    (4, 4, 4).  The foreground centre is found, and the draw raises
    [ValueError] before any centre is sampled. *)
Theorem foreground_random_center_raises nan_as_int16 draws :
  let self := init_attributes (patch_args true true (V3 4 4 4) None) in
  let label := one_voxel_volume (8, 8, 8)%nat (4, 4, 4)%nat 205 in
  getitem_mode self = PatchCrop /\
  _get_foreground_center nan_as_int16 self label = Ok (V3 4 4 4) /\
  getitem_patch_bounds nan_as_int16 self (V3 8 8 8) label (V3 8 8 8)
    (V3 8 8 8) draws = Raise ValueError.
Proof.
  cbv zeta. split; [reflexivity|]. split; [vm_compute; reflexivity|].
  apply random_roi_raises; try reflexivity; cbv; repeat split; discriminate.
Qed.





(** ** The crops *)

Lemma slice_axis_within n b e :
  0 <= b -> b <= e -> e <= Z.of_nat n ->
  slice_axis n b e = (Z.to_nat b, Z.to_nat (e - b)).
Proof.
  intros Hb Hbe He. unfold slice_axis, slice_index.
  destruct (Z.ltb_spec b 0), (Z.ltb_spec e 0); try lia.
  rewrite !Z.min_l by lia. reflexivity.
Qed.

(** A slice within the volume has the shape [e - b]. *)
Lemma crop_within_shape {A} (v : volume A) b e :
  within b e (shape_vec (vshape v)) ->
  v3le b e ->
  shape_vec (vshape (crop v b e)) = v3map2 Z.sub e b.
Proof.
  unfold within, v3le, crop. destruct (vshape v) as [[nx ny] nz].
  destruct b as [b0 b1 b2], e as [e0 e1 e2].
  cbn [ax0 ax1 ax2 shape_vec v3const].
  intros [(? & ? & ?) (? & ? & ?)] (? & ? & ?).
  rewrite !slice_axis_within by lia.
  cbn [vshape shape_vec v3map2 ax0 ax1 ax2].
  rewrite !Z2Nat.id by lia. reflexivity.
Qed.

(** Inside the volume the voxels of a slice are those of the volume from
    [b] on. *)
Lemma crop_within_vox {A} (v : volume A) b e i j k :
  within b e (shape_vec (vshape v)) ->
  v3le b e ->
  vox (crop v b e) i j k
    = vox v (Z.to_nat (ax0 b) + i) (Z.to_nat (ax1 b) + j) (Z.to_nat (ax2 b) + k).
Proof.
  unfold within, v3le, crop. destruct (vshape v) as [[nx ny] nz].
  destruct b as [b0 b1 b2], e as [e0 e1 e2].
  cbn [ax0 ax1 ax2 shape_vec v3const].
  intros [(? & ? & ?) (? & ? & ?)] (? & ? & ?).
  rewrite !slice_axis_within by lia. reflexivity.
Qed.

(** X24.  Under the default policy, with the centre of the volume as patch
    centre and a patch size between 0 and the shape of the volumes, the patch
    branch reaches line 204 having cropped the target label and the target
    image with the same bounds [shape // 2 - size // 2] and [begin + size],
    to exactly the patch size: voxel [(i, j, k)] of either patch is voxel
    [begin + (i, j, k)] of its volume.  What the lines after 204 do is not
    part of the statement. *)
Lemma default_patch_shapes nan_as_int16 self target_image target_label
    atlases_image atlases_label ashape draws :
  patch_center self = None ->
  random_crop self = false ->
  crop_roi self = false ->
  vshape target_image = vshape target_label ->
  np_stack_shape atlases_image = Ok ashape ->
  np_stack_shape atlases_label = Ok ashape ->
  fits_int16 (patch_size self) ->
  fits_int16 (shape_vec (vshape target_label)) ->
  fits_int16 ashape ->
  v3le (v3const 0) ashape ->
  v3le (v3const 0) (patch_size self) ->
  v3le (patch_size self) (shape_vec (vshape target_label)) ->
  v3le (patch_size self) ashape ->
  exists pv b,
    getitem_patch_bounds nan_as_int16 self (shape_vec (vshape target_image))
      target_label ashape ashape draws = Ok b /\
    target_begin b =
      v3map2 Z.sub (half16 (shape_vec (vshape target_label)))
        (half16 (patch_size self)) /\
    target_end b = v3map2 Z.add (target_begin b) (patch_size self) /\
    getitem_patch_volumes nan_as_int16 self target_image target_label
      atlases_image atlases_label draws = Ok pv /\
    shape_vec (vshape (cropped_target_label pv)) = patch_size self /\
    shape_vec (vshape (cropped_target_image pv)) = patch_size self /\
    forall i j k,
      vox (cropped_target_label pv) i j k
        = vox target_label (Z.to_nat (ax0 (target_begin b)) + i)
            (Z.to_nat (ax1 (target_begin b)) + j)
            (Z.to_nat (ax2 (target_begin b)) + k) /\
      vox (cropped_target_image pv) i j k
        = vox target_image (Z.to_nat (ax0 (target_begin b)) + i)
            (Z.to_nat (ax1 (target_begin b)) + j)
            (Z.to_nat (ax2 (target_begin b)) + k).
Proof.
  intros Hc Hr Hroi Hshape Hai Hal Hps Hts Has Ha0 Hp0 Ht Ha.
  destruct (default_policy_bounds nan_as_int16 self target_label ashape draws
              Hc Hr Hroi Hps Hts Has Ha0 Ht Ha)
    as (b & Hrun & Htb & Hte & _ & _ & Hwt & _).
  unfold getitem_patch_volumes. rewrite Hai, Hal, Hshape.
  cbn [mbind result_bind]. rewrite Hrun. cbn [mbind result_bind].
  eexists _, b. split; [reflexivity|]. split; [exact Htb|].
  split; [exact Hte|]. split; [reflexivity|].
  cbn [cropped_target_label cropped_target_image].
  assert (Hbe : v3le (target_begin b) (target_end b)).
  { rewrite Hte. destruct (target_begin b), (patch_size self).
    unfold v3le, v3const in *. simpl in *. lia. }
  assert (Hsub : v3map2 Z.sub (target_end b) (target_begin b) = patch_size self).
  { rewrite Hte. destruct (target_begin b), (patch_size self).
    unfold v3map2. simpl. f_equal; lia. }
  assert (Hwi : within (target_begin b) (target_end b)
                  (shape_vec (vshape target_image)))
    by (rewrite Hshape; exact Hwt).
  split; [|split].
  - rewrite crop_within_shape by assumption. exact Hsub.
  - rewrite crop_within_shape by assumption. exact Hsub.
  - intros i j k. split; apply crop_within_vox; assumption.
Qed.

(** ** The model on small inputs *)

Example around_halves :
  List.map around [5 # 2; 7 # 2; -1 # 2; 2049 # 10; 2051 # 10]%Q
  = [2; 4; 0; 205; 205].
Proof. reflexivity. Qed.

Example slice_default_marker :
  (py_slice "mr_1001_image.nii.gz" 0 (-1), py_slice "mr_1001_image.nii.gz" 0 7,
   basename "/data/train/mr_1001_image.nii.gz")
  = ("mr_1001_image.nii.g", "mr_1001", "mr_1001_image.nii.gz")%string.
Proof. reflexivity. Qed.

Example combinations_negative :
  py_combinations ["a"; "b"]%string (-1) = Raise ValueError.
Proof. reflexivity. Qed.

Example roi_single_voxel :
  get_roi_coordinates (init_attributes (label_args 2 [0; 205]))
    (one_voxel_volume (10, 10, 10) (5, 5, 5) 205)%nat 0
  = Ok (V3 5 5 5, V3 5 5 5).
Proof. vm_compute. reflexivity. Qed.

Example foreground_center_two_voxels :
  _get_foreground_center 0 (init_attributes (label_args 2 [0; 205]))
    (Volume (4, 4, 4)%nat
       (fun i j k => if (Nat.eqb i j && Nat.eqb j k && Nat.leb 2 i)%bool
                     then 205 else 0)%Q)
  = Ok (V3 2 2 2).
Proof. vm_compute. reflexivity. Qed.

Example wrap16_values :
  List.map wrap16 [0; 64; 32767; 32768; 40000; -32769] =
  [0; 64; 32767; -32768; -25536; 32767].
Proof. reflexivity. Qed.

Example random_center_in_range :
  randint 12345 (64 / 2) (96 + 64 / 2 - 64 + 1) = Ok 35.
Proof. reflexivity. Qed.

Example crop_clamps :
  vshape (crop (constant_volume (10, 10, 10)%nat 0) (V3 (-3) 2 8) (V3 4 6 20))
  = (0, 4, 2)%nat.
Proof. reflexivity. Qed.

(** A target image larger than its label: the default centre is taken from
    the image, the assertions look at the label, and the label is sliced
    outside its extent, which yields an empty array and raises nothing. *)
Example mismatched_pair_clamped :
  let self := init_attributes (patch_args false false (V3 64 64 64) None) in
  let label := constant_volume (64, 64, 64)%nat 0 in
  exists b,
    getitem_patch_bounds 0 self (V3 200 200 200) label (V3 64 64 64)
      (V3 64 64 64) (V3 0 0 0) = Ok b /\
    target_begin b = V3 68 68 68 /\
    target_end b = V3 132 132 132 /\
    vshape (crop label (target_begin b) (target_end b)) = (0, 0, 0)%nat.
Proof. cbv zeta. eexists. repeat split. Qed.

(* ===================================================================== *)
(** * Further properties *)
(* ===================================================================== *)

(** ** Construction and the pairing of names *)

Lemma NoDup_append {A} (l k : list A) :
  List.NoDup l -> List.NoDup k -> (forall x, In x l -> ~ In x k) ->
  List.NoDup (l ++ k).
Proof.
  induction l as [|a l IH]; simpl; intros Hl Hk Hd; [exact Hk|].
  inversion Hl as [|? ? Ha Hl']; subst. constructor.
  - rewrite in_app_iff. intros [H | H]; [tauto | exact (Hd a (or_introl eq_refl) H)].
  - apply IH; auto.
Qed.

Lemma NoDup_map_injective {A B} (f : A -> B) (l : list A) :
  (forall x y, f x = f y -> x = y) -> List.NoDup l -> List.NoDup (List.map f l).
Proof.
  intros Hinj. induction 1 as [|a l Ha _ IH]; simpl; constructor; auto.
  rewrite in_map_iff. intros (y & Hy & Hin). apply Hinj in Hy. now subst.
Qed.

Lemma subseq_NoDup {A} (c l : list A) :
  subseq c l -> List.NoDup l -> List.NoDup c.
Proof.
  induction 1 as [|x c l Hs IH|x c l Hs IH]; intros Hl; auto.
  - inversion Hl; auto.
  - inversion Hl as [|? ? Hx Hl']; subst. constructor; auto.
    intros Hin. apply Hx. eapply subseq_In; eauto.
Qed.

Lemma subseq_trans {A} (a b c : list A) :
  subseq a b -> subseq b c -> subseq a c.
Proof.
  intros Hab Hbc. revert a Hab.
  induction Hbc as [|x b c Hbc IH|x b c Hbc IH]; intros a Hab.
  - exact Hab.
  - constructor. now apply IH.
  - inversion Hab as [|? ? ? Hab'|? a' ? Hab']; subst.
    + constructor. now apply IH.
    + apply subseq_take. now apply IH.
Qed.

Lemma subseq_filter {A} (f : A -> bool) (l : list A) :
  subseq (List.filter f l) l.
Proof.
  induction l as [|x l IH]; simpl; [constructor|].
  destruct (f x); now constructor.
Qed.

Lemma combinations_NoDup {A} (l : list A) : forall k,
  List.NoDup l -> List.NoDup (combinations l k).
Proof.
  induction l as [|x t IH]; intros [|k] Hl; simpl;
    try (repeat constructor; simpl; tauto).
  inversion Hl as [|? ? Hx Ht]; subst.
  apply NoDup_append.
  - apply NoDup_map_injective; [intros ? ? H; now injection H | now apply IH].
  - now apply IH.
  - intros c Hc Hc'. apply in_map_iff in Hc as (c' & <- & _).
    apply combinations_sound in Hc' as [Hs _].
    apply Hx. eapply subseq_In; [exact Hs | now left].
Qed.

Lemma product_NoDup {A B} (xs : list A) (ys : list B) :
  List.NoDup xs -> List.NoDup ys -> List.NoDup (product xs ys).
Proof.
  intros Hxs Hys. unfold product.
  induction Hxs as [|x xs Hx _ IH]; simpl; [constructor|].
  apply NoDup_append; [|exact IH|].
  - apply NoDup_map_injective; [intros ? ? H; now injection H | exact Hys].
  - intros [x' y] Hin Hin'. apply in_map_iff in Hin as (y' & Heq & _).
    inversion Heq; subst.
    apply (product_spec xs ys) in Hin'. tauto.
Qed.

Lemma concat_length_sum {A B} (f : A -> list B) (l : list A) :
  length (concat (List.map f l)) = list_sum (List.map (fun x => length (f x)) l).
Proof.
  induction l as [|x l IH]; simpl; [reflexivity|].
  now rewrite List.length_app, IH.
Qed.

Lemma multi_stage_keys_spec self atlas_names t0 t c :
  In (t, c) (multi_stage_keys self atlas_names t0) <->
  t = t0 /\
  subseq c (List.filter (contains (correlation_marker self t0)) atlas_names) /\
  length c = Z.to_nat (n_atlas self).
Proof.
  unfold multi_stage_keys. rewrite product_spec, combinations_spec.
  simpl. intuition congruence.
Qed.

(** The outcome of [_find_data_names] for a valid stage. *)
Lemma find_data_names_ok self tfiles afiles suffix :
  stage self = "single" \/ stage self = "multi" ->
  0 <= n_atlas self ->
  discovered suffix tfiles <> [] ->
  exists keys,
    _find_data_names self tfiles afiles suffix = Ok keys /\
    (stage self = "single" ->
     keys = product (discovered suffix tfiles)
              (combinations (discovered suffix afiles) (Z.to_nat (n_atlas self)))) /\
    (stage self = "multi" ->
     keys = concat (List.map (multi_stage_keys self (discovered suffix afiles))
                      (discovered suffix tfiles))).
Proof.
  intros [Hs | Hm] Hr Ht.
  - rewrite (find_data_names_single self tfiles afiles suffix Hs Hr Ht).
    eexists. split; [reflexivity|]. split; [reflexivity|].
    rewrite Hs. discriminate.
  - rewrite (find_data_names_multi self tfiles afiles suffix Hm Hr Ht).
    eexists. split; [reflexivity|]. split; [|reflexivity].
    rewrite Hm. discriminate.
Qed.

(** X1.  In multi-stage mode [len()] is the sum, over the discovered targets,
    of the number of combinations of [n_atlas] atlases among those that carry
    the marker of the target. *)
Theorem multi_stage_len args tfiles afiles :
  arg_stage args = "multi" ->
  valid_args args ->
  0 <= arg_n_atlas args ->
  discovered (arg_image_suffix args) tfiles <> [] ->
  exists self,
    __init__ args tfiles afiles = Ok self /\
    __len__ self =
      Z.of_nat
        (list_sum
           (List.map
              (multi_stage_count (init_attributes args)
                 (discovered (arg_image_suffix args) afiles))
              (discovered (arg_image_suffix args) tfiles))).
Proof.
  intros Hstage (Ht & Ha & Hn) Hr Htargets.
  pose proof (find_data_names_multi (init_attributes args) tfiles afiles
                (arg_image_suffix args) Hstage Hr Htargets) as Hfind.
  eexists. split; [apply init_ok; eauto|].
  unfold __len__. cbn [target_atlas_image_names set_names].
  rewrite concat_length_sum. f_equal. f_equal.
  apply map_ext. intros t. unfold multi_stage_keys, multi_stage_count.
  rewrite product_length, combinations_length.
  change (length [t]) with 1%nat. now rewrite Nat.mul_1_l.
Qed.

(** Two targets with two registered atlases each, one atlas per key: 4 keys. *)
Lemma multi_stage_len_witness :
  exists self,
    __init__ (default_args "multi" 1 0 7) two_targets four_atlases = Ok self /\
    __len__ self = 4.
Proof.
  destruct (multi_stage_len (default_args "multi" 1 0 7) two_targets four_atlases)
    as (self & Hinit & Hlen).
  - reflexivity.
  - repeat split; reflexivity.
  - simpl; lia.
  - vm_compute; discriminate.
  - exists self. split; [exact Hinit|]. rewrite Hlen. vm_compute. reflexivity.
Defined.

(** With a valid stage and valid modalities, and an atlas pattern given, the
    constructor is [__init__] on the two sorted scans. *)
Lemma construct_with_atlas_path glob strsort args target_search_path path :
  arg_stage args = "single" \/ arg_stage args = "multi" ->
  is_modality (arg_target_modality args) = true ->
  is_modality (arg_atlas_modality args) = true ->
  construct glob strsort args target_search_path (Some path)
    = __init__ args (strsort (glob target_search_path)) (strsort (glob path)).
Proof.
  intros Hstage Ht Ha. unfold construct.
  assert (String.eqb (arg_stage args) "single"
          || String.eqb (arg_stage args) "multi" = true) as ->.
  { destruct Hstage as [-> | ->]; reflexivity. }
  now rewrite Ht, Ha.
Qed.

(** Once both scans have returned, a scan without target fails the assertion
    of line 281. *)
Lemma init_no_target args tfiles afiles :
  arg_stage args = "single" \/ arg_stage args = "multi" ->
  is_modality (arg_target_modality args) = true ->
  is_modality (arg_atlas_modality args) = true ->
  discovered (arg_image_suffix args) tfiles = [] ->
  __init__ args tfiles afiles = Raise AssertionError.
Proof.
  intros Hstage Ht Ha Hnone. unfold __init__.
  assert (String.eqb (arg_stage args) "single"
          || String.eqb (arg_stage args) "multi" = true) as ->.
  { destruct Hstage as [-> | ->]; reflexivity. }
  rewrite Ht, Ha. cbn [py_assert mbind result_bind].
  unfold _find_data_names. unfold discovered in Hnone. rewrite Hnone.
  reflexivity.
Qed.

(** X2.  When an atlas search pattern is given and no scanned target file
    contains the image suffix, the constructor fails with [AssertionError],
    in both stages and whatever the atlases, the number of atlases per key
    and the classes are. *)
Theorem no_target_assertion glob strsort args target_search_path path :
  arg_stage args = "single" \/ arg_stage args = "multi" ->
  is_modality (arg_target_modality args) = true ->
  is_modality (arg_atlas_modality args) = true ->
  discovered (arg_image_suffix args) (strsort (glob target_search_path)) = [] ->
  construct glob strsort args target_search_path (Some path)
    = Raise AssertionError.
Proof.
  intros Hstage Ht Ha Hnone.
  rewrite construct_with_atlas_path by assumption.
  now apply init_no_target.
Qed.

(** A target directory that holds label files only. *)
Lemma no_target_assertion_witness :
  construct
    (fun pattern =>
       if String.eqb pattern "/data/*.nii.gz"
       then ["/data/s1_label.nii.gz"; "/data/s2_label.nii.gz"]
       else four_atlases)
    (fun l => l) (default_args "multi" 1 0 7)
    "/data/*.nii.gz" (Some "/warped/*.nii.gz")
  = Raise AssertionError.
Proof.
  apply (no_target_assertion
           (fun pattern =>
              if String.eqb pattern "/data/*.nii.gz"
              then ["/data/s1_label.nii.gz"; "/data/s2_label.nii.gz"]
              else four_atlases)
           (fun l => l) (default_args "multi" 1 0 7)
           "/data/*.nii.gz" "/warped/*.nii.gz");
    [right | | |]; reflexivity.
Defined.

(** Once both scans have returned, a negative [n_atlas] makes
    [itertools.combinations] raise. *)
Lemma init_negative_n_atlas args tfiles afiles :
  arg_stage args = "single" \/ arg_stage args = "multi" ->
  is_modality (arg_target_modality args) = true ->
  is_modality (arg_atlas_modality args) = true ->
  discovered (arg_image_suffix args) tfiles <> [] ->
  arg_n_atlas args < 0 ->
  __init__ args tfiles afiles = Raise ValueError.
Proof.
  intros Hstage Ht Ha Htargets Hneg. unfold __init__.
  assert (String.eqb (arg_stage args) "single"
          || String.eqb (arg_stage args) "multi" = true) as ->.
  { destruct Hstage as [-> | ->]; reflexivity. }
  rewrite Ht, Ha. cbn [py_assert mbind result_bind].
  unfold _find_data_names, discovered in *.
  destruct (List.filter (contains (arg_image_suffix args)) tfiles)
    as [|t ts]; [congruence|].
  change (py_assert (0 <? Z.of_nat (length (t :: ts)))) with (Ok tt).
  cbn [mbind result_bind].
  assert (Hcomb : forall l : list string,
             py_combinations l (n_atlas (init_attributes args)) = Raise ValueError).
  { intros l. unfold py_combinations. cbn [n_atlas init_attributes].
    destruct (Z.ltb_spec (arg_n_atlas args) 0); [reflexivity | lia]. }
  destruct Hstage as [Hs | Hm].
  - cbn [stage init_attributes]. rewrite Hs. cbn [String.eqb Ascii.eqb Bool.eqb].
    rewrite Hcomb. reflexivity.
  - cbn [stage init_attributes]. rewrite Hm. cbn [String.eqb Ascii.eqb Bool.eqb].
    cbn [multi_stage_loop]. rewrite Hcomb. reflexivity.
Qed.

(** X3.  When an atlas search pattern is given and at least one target is
    discovered, a negative [n_atlas] makes the constructor fail with
    [ValueError], in both stages. *)
Theorem negative_n_atlas_value_error glob strsort args target_search_path path :
  arg_stage args = "single" \/ arg_stage args = "multi" ->
  is_modality (arg_target_modality args) = true ->
  is_modality (arg_atlas_modality args) = true ->
  discovered (arg_image_suffix args) (strsort (glob target_search_path)) <> [] ->
  arg_n_atlas args < 0 ->
  construct glob strsort args target_search_path (Some path) = Raise ValueError.
Proof.
  intros Hstage Ht Ha Htargets Hneg.
  rewrite construct_with_atlas_path by assumption.
  now apply init_negative_n_atlas.
Qed.

Lemma negative_n_atlas_value_error_witness :
  construct (fun _ => three_subjects) (fun l => l)
    (default_args "single" (-1) 0 (-1)) "/data/*.nii.gz" (Some "/data/*.nii.gz")
  = Raise ValueError.
Proof.
  apply (negative_n_atlas_value_error (fun _ => three_subjects) (fun l => l)
           (default_args "single" (-1) 0 (-1)) "/data/*.nii.gz" "/data/*.nii.gz");
    [left; reflexivity | reflexivity | reflexivity
    | vm_compute; discriminate | simpl; lia].
Defined.

Lemma find_data_names_no_target self tfiles afiles suffix :
  discovered suffix tfiles = [] ->
  _find_data_names self tfiles afiles suffix = Raise AssertionError.
Proof.
  intros Hnone. unfold _find_data_names. unfold discovered in Hnone.
  now rewrite Hnone.
Qed.

Lemma find_data_names_negative self tfiles afiles suffix :
  stage self = "single" \/ stage self = "multi" ->
  discovered suffix tfiles <> [] ->
  n_atlas self < 0 ->
  _find_data_names self tfiles afiles suffix = Raise ValueError.
Proof.
  intros Hstage Htargets Hneg. unfold _find_data_names, discovered in *.
  destruct (List.filter (contains suffix) tfiles) as [|t ts]; [congruence|].
  change (py_assert (0 <? Z.of_nat (length (t :: ts)))) with (Ok tt).
  cbn [mbind result_bind].
  assert (Hcomb : forall l : list string,
             py_combinations l (n_atlas self) = Raise ValueError).
  { intros l. unfold py_combinations.
    destruct (Z.ltb_spec (n_atlas self) 0); [reflexivity | lia]. }
  destruct Hstage as [Hs | Hm].
  - rewrite Hs. cbn [String.eqb Ascii.eqb Bool.eqb]. now rewrite Hcomb.
  - rewrite Hm. cbn [String.eqb Ascii.eqb Bool.eqb multi_stage_loop].
    now rewrite Hcomb.
Qed.

(** Once both scans have returned, [__init__] returns a provider exactly
    when its assertions hold, [n_atlas] is not negative and a target is
    discovered. *)
Lemma init_from_scans args tfiles afiles :
  ((exists self, __init__ args tfiles afiles = Ok self) <->
   (arg_stage args = "single" \/ arg_stage args = "multi") /\
   valid_args args /\
   0 <= arg_n_atlas args /\
   discovered (arg_image_suffix args) tfiles <> []) /\
  (forall self,
      __init__ args tfiles afiles = Ok self ->
      _find_data_names (init_attributes args) tfiles afiles (arg_image_suffix args)
        = Ok (target_atlas_image_names self) /\
      Z.of_nat (length (label_intensity self)) = n_class self /\
      fits_int16 (patch_size self) /\
      a_min self <> PosInf /\
      kwargs self !! "logger" = None).
Proof.
  assert (Hinv : forall self,
    __init__ args tfiles afiles = Ok self ->
    (arg_stage args = "single" \/ arg_stage args = "multi") /\
    valid_args args /\
    _find_data_names (init_attributes args) tfiles afiles (arg_image_suffix args)
      = Ok (target_atlas_image_names self) /\
    self = set_names (init_attributes args) (target_atlas_image_names self)).
  { intros self H. unfold __init__ in H.
    destruct (String.eqb (arg_stage args) "single"
              || String.eqb (arg_stage args) "multi") eqn:Es; [|discriminate H].
    destruct (is_modality (arg_target_modality args)) eqn:Et; [|discriminate H].
    destruct (is_modality (arg_atlas_modality args)) eqn:Ea; [|discriminate H].
    cbn [py_assert mbind result_bind] in H.
    destruct (_find_data_names (init_attributes args) tfiles afiles
                (arg_image_suffix args)) as [names|e] eqn:Ef; [|discriminate H].
    cbn [mbind result_bind] in H.
    destruct (Z.of_nat (length (label_intensity
                (set_names (init_attributes args) names)))
              =? n_class (set_names (init_attributes args) names)) eqn:En;
      [|discriminate H].
    cbn [py_assert mbind result_bind] in H. injection H as <-.
    apply Z.eqb_eq in En. apply orb_true_iff in Es.
    rewrite !String.eqb_eq in Es.
    split; [exact Es|]. split; [repeat split; assumption|].
    split; reflexivity. }
  split; [split|].
  - intros [self H]. destruct (Hinv self H) as (Hstage & Hvalid & Hfind & _).
    split; [exact Hstage|]. split; [exact Hvalid|].
    assert (Htargets : discovered (arg_image_suffix args) tfiles <> []).
    { intros Hnone.
      rewrite (find_data_names_no_target _ _ _ _ Hnone) in Hfind.
      discriminate Hfind. }
    split; [|exact Htargets].
    destruct (Z.lt_ge_cases (arg_n_atlas args) 0) as [Hneg | Hpos]; [|lia].
    rewrite (find_data_names_negative (init_attributes args) tfiles afiles
               (arg_image_suffix args) Hstage Htargets Hneg) in Hfind.
    discriminate Hfind.
  - intros (Hstage & (Ht & Ha & Hn) & Hr & Htargets).
    destruct (find_data_names_ok (init_attributes args) tfiles afiles
                (arg_image_suffix args) Hstage Hr Htargets) as (keys & Hfind & _).
    eexists. apply init_ok; eauto.
  - intros self H. destruct (Hinv self H) as (_ & (_ & _ & Hn) & Hfind & Hself).
    split; [exact Hfind|]. rewrite Hself.
    cbn [label_intensity n_class patch_size a_min kwargs set_names init_attributes].
    split; [exact Hn|]. split; [apply asarray16_fits|].
    split; [destruct (arg_a_min args); discriminate|].
    apply lookup_delete_eq.
Qed.

(** X4.  The constructor returns a provider exactly when an atlas search
    pattern is given, the stage and the two modalities are valid, there are
    as many label intensities as classes, [n_atlas] is not negative and at
    least one target is discovered.  The provider it returns holds the keys
    found by [_find_data_names] on the two sorted scans, a patch size of
    [np.int16] values, a numeric lower clipping bound or -inf, and keyword
    arguments without the logger. *)
Theorem init_succeeds_iff glob strsort args target_search_path atlas_search_path :
  ((exists self,
       construct glob strsort args target_search_path atlas_search_path = Ok self)
   <->
   atlas_search_path <> None /\
   (arg_stage args = "single" \/ arg_stage args = "multi") /\
   valid_args args /\
   0 <= arg_n_atlas args /\
   discovered (arg_image_suffix args) (strsort (glob target_search_path)) <> []) /\
  (forall self,
      construct glob strsort args target_search_path atlas_search_path = Ok self ->
      exists path,
        atlas_search_path = Some path /\
        _find_data_names (init_attributes args)
          (strsort (glob target_search_path)) (strsort (glob path))
          (arg_image_suffix args)
          = Ok (target_atlas_image_names self) /\
        Z.of_nat (length (label_intensity self)) = n_class self /\
        fits_int16 (patch_size self) /\
        a_min self <> PosInf /\
        kwargs self !! "logger" = None).
Proof.
  assert (Hinv : forall self,
    construct glob strsort args target_search_path atlas_search_path = Ok self ->
    exists path,
      atlas_search_path = Some path /\
      (arg_stage args = "single" \/ arg_stage args = "multi") /\
      is_modality (arg_target_modality args) = true /\
      is_modality (arg_atlas_modality args) = true /\
      __init__ args (strsort (glob target_search_path)) (strsort (glob path))
        = Ok self).
  { intros self H. unfold construct in H.
    destruct (String.eqb (arg_stage args) "single"
              || String.eqb (arg_stage args) "multi") eqn:Es; [|discriminate H].
    destruct (is_modality (arg_target_modality args)) eqn:Et; [|discriminate H].
    destruct (is_modality (arg_atlas_modality args)) eqn:Ea; [|discriminate H].
    cbn [py_assert mbind result_bind] in H.
    destruct atlas_search_path as [path|]; [|discriminate H].
    exists path. apply orb_true_iff in Es. rewrite !String.eqb_eq in Es. auto. }
  split; [split|].
  - intros [self H]. destruct (Hinv self H) as (path & -> & _ & _ & _ & Hinit).
    split; [discriminate|].
    apply (proj1 (proj1 (init_from_scans args
             (strsort (glob target_search_path)) (strsort (glob path))))).
    now exists self.
  - intros (Hpath & Hstage & Hvalid & Hr & Htargets).
    destruct atlas_search_path as [path|]; [|congruence].
    destruct Hvalid as (Ht & Ha & Hn).
    rewrite construct_with_atlas_path by assumption.
    apply (proj2 (proj1 (init_from_scans args
             (strsort (glob target_search_path)) (strsort (glob path))))).
    repeat split; assumption.
  - intros self H. destruct (Hinv self H) as (path & -> & _ & _ & _ & Hinit).
    exists path. split; [reflexivity|].
    exact (proj2 (init_from_scans args
             (strsort (glob target_search_path)) (strsort (glob path)))
             self Hinit).
Qed.

(** X5.  When the discovered target names are pairwise distinct and so are
    the discovered atlas names, the keys are pairwise distinct, in both
    stages, and every key pairs a discovered target with [n_atlas] pairwise
    distinct discovered atlases. *)
Theorem keys_distinct self tfiles afiles suffix :
  stage self = "single" \/ stage self = "multi" ->
  0 <= n_atlas self ->
  discovered suffix tfiles <> [] ->
  List.NoDup (discovered suffix tfiles) ->
  List.NoDup (discovered suffix afiles) ->
  exists keys,
    _find_data_names self tfiles afiles suffix = Ok keys /\
    List.NoDup keys /\
    forall t c,
      In (t, c) keys ->
      In t (discovered suffix tfiles) /\
      List.NoDup c /\
      length c = Z.to_nat (n_atlas self) /\
      forall a, In a c -> In a (discovered suffix afiles).
Proof.
  intros Hstage Hr Htargets Hnt Hna.
  destruct (find_data_names_ok self tfiles afiles suffix Hstage Hr Htargets)
    as (keys & Hfind & Hsingle & Hmulti).
  exists keys. split; [exact Hfind|].
  destruct Hstage as [Hs | Hm].
  - rewrite (Hsingle Hs). split.
    + apply product_NoDup; [exact Hnt | now apply combinations_NoDup].
    + intros t c Hin. apply product_spec in Hin as [Ht Hc].
      apply combinations_spec in Hc as [Hsub Hlen].
      split; [exact Ht|]. split; [eapply subseq_NoDup; eauto|].
      split; [exact Hlen|]. intros a Ha. eapply subseq_In; eauto.
  - rewrite (Hmulti Hm). split.
    + clear Htargets Hfind Hsingle Hmulti.
      induction Hnt as [|t ts Ht _ IH]; simpl; [constructor|].
      apply NoDup_append; [|exact IH|].
      * unfold multi_stage_keys. apply product_NoDup; [repeat constructor; simpl; tauto|].
        apply combinations_NoDup. eapply subseq_NoDup; [apply subseq_filter | exact Hna].
      * intros [t' c] Hin Hin'. apply multi_stage_keys_spec in Hin as (-> & _).
        apply in_concat in Hin' as (ks & Hks & Hin').
        apply in_map_iff in Hks as (t'' & <- & Ht'').
        apply multi_stage_keys_spec in Hin' as (-> & _). contradiction.
    + intros t c Hin. apply in_concat in Hin as (ks & Hks & Hin).
      apply in_map_iff in Hks as (t' & <- & Ht').
      apply multi_stage_keys_spec in Hin as (-> & Hsub & Hlen).
      assert (Hsub' : subseq c (discovered suffix afiles))
        by (eapply subseq_trans; [exact Hsub | apply subseq_filter]).
      split; [exact Ht'|]. split; [eapply subseq_NoDup; eauto|].
      split; [exact Hlen|]. intros a Ha. eapply subseq_In; eauto.
Qed.

Lemma keys_distinct_witness :
  exists keys,
    _find_data_names (init_attributes (default_args "multi" 2 0 7))
      two_targets four_atlases "image.nii.gz" = Ok keys /\
    List.NoDup keys.
Proof.
  destruct (keys_distinct (init_attributes (default_args "multi" 2 0 7))
              two_targets four_atlases "image.nii.gz")
    as (keys & Hfind & Hnd & _).
  - right; reflexivity.
  - simpl; lia.
  - vm_compute; discriminate.
  - vm_compute. repeat constructor; simpl; intuition discriminate.
  - vm_compute. repeat constructor; simpl; intuition discriminate.
  - exists keys. split; assumption.
Defined.

(** X6.  On the same files and with the same [n_atlas], every key of the
    multi-stage pairing is a key of the single-stage pairing. *)
Theorem multi_stage_keys_in_single self_multi self_single tfiles afiles suffix :
  stage self_multi = "multi" ->
  stage self_single = "single" ->
  n_atlas self_multi = n_atlas self_single ->
  0 <= n_atlas self_single ->
  discovered suffix tfiles <> [] ->
  exists keys_multi keys_single,
    _find_data_names self_multi tfiles afiles suffix = Ok keys_multi /\
    _find_data_names self_single tfiles afiles suffix = Ok keys_single /\
    forall key, In key keys_multi -> In key keys_single.
Proof.
  intros Hm Hs Hn Hr Htargets.
  rewrite (find_data_names_multi self_multi tfiles afiles suffix Hm
             ltac:(lia) Htargets).
  rewrite (find_data_names_single self_single tfiles afiles suffix Hs Hr Htargets).
  eexists _, _. split; [reflexivity|]. split; [reflexivity|].
  intros [t c] Hin. apply in_concat in Hin as (ks & Hks & Hin).
  apply in_map_iff in Hks as (t' & <- & Ht').
  apply multi_stage_keys_spec in Hin as (-> & Hsub & Hlen).
  apply product_spec. split; [exact Ht'|].
  apply combinations_spec. split; [|congruence].
  eapply subseq_trans; [exact Hsub | apply subseq_filter].
Qed.

Lemma multi_stage_keys_in_single_witness :
  exists keys_multi keys_single,
    _find_data_names (init_attributes (default_args "multi" 1 0 7))
      two_targets four_atlases "image.nii.gz" = Ok keys_multi /\
    _find_data_names (init_attributes (default_args "single" 1 0 7))
      two_targets four_atlases "image.nii.gz" = Ok keys_single /\
    forall key, In key keys_multi -> In key keys_single.
Proof.
  apply multi_stage_keys_in_single;
    [reflexivity | reflexivity | reflexivity | simpl; lia
    | vm_compute; discriminate].
Defined.

(** X7.  When the atlas search pattern is left out the constructor fails with
    [TypeError], for every valid stage and modality: the target pattern that
    line 81 stores as fallback is not the one that is scanned. *)
Theorem omitted_atlas_path_type_error glob strsort args target_search_path :
  arg_stage args = "single" \/ arg_stage args = "multi" ->
  is_modality (arg_target_modality args) = true ->
  is_modality (arg_atlas_modality args) = true ->
  construct glob strsort args target_search_path None = Raise TypeError /\
  construct glob strsort args target_search_path (Some target_search_path)
    = __init__ args (strsort (glob target_search_path))
        (strsort (glob target_search_path)).
Proof.
  intros Hstage Ht Ha. unfold construct.
  assert (String.eqb (arg_stage args) "single"
          || String.eqb (arg_stage args) "multi" = true) as ->.
  { destruct Hstage as [-> | ->]; reflexivity. }
  rewrite Ht, Ha. split; reflexivity.
Qed.

Lemma omitted_atlas_path_type_error_witness :
  construct (fun _ => three_subjects) (fun l => l)
    (default_args "single" 1 0 (-1)) "/data/*.nii.gz" None = Raise TypeError.
Proof.
  apply (omitted_atlas_path_type_error (fun _ => three_subjects) (fun l => l)
           (default_args "single" 1 0 (-1)) "/data/*.nii.gz");
    [left | |]; reflexivity.
Defined.

(** ** The label encoder and the atlases *)

Lemma zsum_indicator_present g (l : list Z) :
  In g l -> 1 <= zsum (List.map (fun v => b2z (g =? v)) l).
Proof.
  induction l as [|x t IH]; simpl; intros Hin; [tauto|].
  pose proof (zsum_indicator_range g t).
  destruct (Z.eqb_spec g x) as [->|Hne]; simpl; [lia|].
  destruct Hin as [Heq | Hin]; [congruence|]. now apply IH.
Qed.

(** X8.  The first label intensity is never read: two providers with the
    same number of classes and the same foreground intensities
    [label_intensity[1:]] encode every label volume alike, and a voxel is
    background (channel 0 is 1) exactly when its rounded value is none of the
    foreground intensities, whether or not it equals [label_intensity[0]]. *)
Theorem process_label_ignores_first_intensity self1 self2 gt :
  1 <= n_class self1 ->
  n_class self2 = n_class self1 ->
  Z.of_nat (length (label_intensity self1)) = n_class self1 ->
  Z.of_nat (length (label_intensity self2)) = n_class self2 ->
  tail (label_intensity self1) = tail (label_intensity self2) ->
  exists label1 label2,
    _process_label self1 gt = Ok [label1] /\
    _process_label self2 gt = Ok [label2] /\
    forall i j k,
      vox label1 i j k = vox label2 i j k /\
      (vox label1 i j k !! 0%nat = Some 1 <->
       ~ In (around (vox gt i j k)) (tail (label_intensity self1))) /\
      (vox label1 i j k !! 0%nat = Some 0 <->
       In (around (vox gt i j k)) (tail (label_intensity self1))).
Proof.
  intros Hn Hn2 Hlen1 Hlen2 Htail.
  destruct (process_label_ok self1 gt Hn Hlen1) as (label1 & Hrun1 & _ & Hvox1).
  destruct (process_label_ok self2 gt ltac:(lia) Hlen2)
    as (label2 & Hrun2 & _ & Hvox2).
  exists label1, label2. split; [exact Hrun1|]. split; [exact Hrun2|].
  intros i j k. rewrite Hvox1, Hvox2, <- Htail.
  split; [reflexivity|]. cbn [lookup list_lookup].
  set (g := around (vox gt i j k)). set (fg := tail (label_intensity self1)).
  pose proof (zsum_indicator_range g fg) as Hrange.
  destruct (in_dec Z.eq_dec g fg) as [Hin | Hnot].
  - pose proof (zsum_indicator_present g fg Hin).
    destruct (Z.eqb_spec (zsum (List.map (fun v => b2z (g =? v)) fg)) 0);
      [lia|]. simpl. split; split; intros H'; try tauto; try discriminate.
  - rewrite (zsum_indicator_absent g fg Hnot). simpl.
    split; split; intros H'; try tauto; try discriminate.
Qed.

Lemma process_label_ignores_first_intensity_witness :
  exists label1 label2,
    _process_label (init_attributes (label_args 3 [0; 205; 420]))
      (constant_volume (2, 2, 2)%nat 7) = Ok [label1] /\
    _process_label (init_attributes (label_args 3 [999; 205; 420]))
      (constant_volume (2, 2, 2)%nat 7) = Ok [label2] /\
    vox label1 1 1 1 = vox label2 1 1 1 /\
    vox label1 1 1 1 !! 0%nat = Some 1.
Proof.
  destruct (process_label_ignores_first_intensity
              (init_attributes (label_args 3 [0; 205; 420]))
              (init_attributes (label_args 3 [999; 205; 420]))
              (constant_volume (2, 2, 2)%nat 7))
    as (label1 & label2 & H1 & H2 & Hvox).
  - simpl; lia.
  - reflexivity.
  - reflexivity.
  - reflexivity.
  - reflexivity.
  - exists label1, label2. split; [exact H1|]. split; [exact H2|].
    destruct (Hvox 1%nat 1%nat 1%nat) as (Heq & Hbg & _).
    split; [exact Heq|]. apply Hbg. simpl. intuition discriminate.
Defined.

Lemma Qfloor_between (x : Q) (v : Z) :
  (inject_Z v <= x)%Q -> (x < inject_Z (v + 1))%Q -> Qfloor x = v.
Proof.
  intros Hlo Hhi.
  pose proof (Qfloor_resp_le _ _ Hlo) as Hge. rewrite Qfloor_Z in Hge.
  assert (Hq : (inject_Z (Qfloor x) < inject_Z (v + 1))%Q)
    by (eapply Qle_lt_trans; [apply Qfloor_le | exact Hhi]).
  rewrite <- Zlt_Qlt in Hq.
  lia.
Qed.

(** A value within half a unit of an integer is rounded to that integer. *)
Lemma around_nearest (x : Q) (v : Z) :
  (inject_Z v - (1 # 2) < x)%Q -> (x < inject_Z v + (1 # 2))%Q -> around x = v.
Proof.
  intros Hlo Hhi. unfold around.
  destruct (Qlt_le_dec x (inject_Z v)) as [Hbelow | Habove].
  - assert (Hf : Qfloor x = v - 1).
    { apply Qfloor_between.
      - unfold Z.sub. rewrite inject_Z_plus. change (inject_Z (- (1))) with (-1 # 1)%Q. lra.
      - replace (v - 1 + 1) with v by lia. exact Hbelow. }
    rewrite Hf.
    assert (Hgt : (x - inject_Z (v - 1) ?= 1 # 2)%Q = Gt).
    { apply (proj1 (Qgt_alt _ _)). unfold Z.sub. rewrite inject_Z_plus.
      change (inject_Z (- (1))) with (-1 # 1)%Q. lra. }
    rewrite Hgt. lia.
  - assert (Hf : Qfloor x = v).
    { apply Qfloor_between; [exact Habove|].
      rewrite inject_Z_plus. change (inject_Z 1) with 1%Q. lra. }
    rewrite Hf.
    assert (Hlt : (x - inject_Z v ?= 1 # 2)%Q = Lt) by (apply (proj1 (Qlt_alt _ _)); lra).
    now rewrite Hlt.
Qed.

(** X9.  Rounding absorbs interpolation noise: a voxel that lies within half
    a unit of the foreground intensity [label_intensity[c]] has channel [c]
    set, as if it held that intensity exactly. *)
Theorem process_label_tolerates_noise self gt i j k c v :
  1 <= n_class self ->
  Z.of_nat (length (label_intensity self)) = n_class self ->
  (1 <= c)%nat ->
  label_intensity self !! c = Some v ->
  (inject_Z v - (1 # 2) < vox gt i j k)%Q ->
  (vox gt i j k < inject_Z v + (1 # 2))%Q ->
  exists label,
    _process_label self gt = Ok [label] /\
    vox label i j k !! c = Some 1 /\
    vox label i j k !! 0%nat = Some 0.
Proof.
  intros Hn Hlen Hc Hv Hlo Hhi.
  destruct (process_label_ok self gt Hn Hlen) as (label & Hrun & _ & Hvox).
  exists label. split; [exact Hrun|]. rewrite Hvox.
  rewrite (around_nearest _ v Hlo Hhi).
  destruct (label_intensity self) as [|v0 li] eqn:E; [discriminate Hv|].
  destruct c as [|c]; [lia|]. cbn [tail]. simpl in Hv.
  split.
  - cbn [lookup list_lookup]. change (List.map (fun v1 => b2z (v =? v1)) li !! c = Some 1).
    rewrite map_lookup, Hv. simpl. now rewrite Z.eqb_refl.
  - cbn [lookup list_lookup].
    assert (Hin : In v li) by (apply list_elem_of_In; eapply list_elem_of_lookup_2; eauto).
    pose proof (zsum_indicator_present v li Hin).
    destruct (Z.eqb_spec (zsum (List.map (fun v1 => b2z (v =? v1)) li)) 0);
      [lia | reflexivity].
Qed.

Lemma process_label_tolerates_noise_witness :
  exists label,
    _process_label (init_attributes (label_args 3 [0; 205; 420]))
      (constant_volume (2, 2, 2)%nat (4203 # 10)) = Ok [label] /\
    vox label 0 1 0 !! 2%nat = Some 1 /\
    vox label 0 1 0 !! 0%nat = Some 0.
Proof.
  apply (process_label_tolerates_noise
           (init_attributes (label_args 3 [0; 205; 420]))
           (constant_volume (2, 2, 2)%nat (4203 # 10))
           0%nat 1%nat 0%nat 2%nat 420).
  - simpl; lia.
  - reflexivity.
  - lia.
  - reflexivity.
  - reflexivity.
  - reflexivity.
Defined.

(** X10.  [_process_atlas] returns the atlas it is given, unchanged, whenever
    the label encoder accepts the configuration, and raises what the encoder
    raises otherwise: no one-hot or probabilistic atlas is produced. *)
Theorem process_atlas_returns_input self atlas :
  (1 <= n_class self ->
   Z.of_nat (length (label_intensity self)) = n_class self ->
   _process_atlas self atlas = Ok atlas) /\
  (forall e, _process_label self atlas = Raise e ->
             _process_atlas self atlas = Raise e) /\
  (forall out, _process_atlas self atlas = Ok out -> out = atlas).
Proof.
  unfold _process_atlas. split; [|split].
  - intros Hn Hlen.
    destruct (process_label_ok self atlas Hn Hlen) as (label & -> & _).
    reflexivity.
  - intros e ->. reflexivity.
  - intros out. destruct (_process_label self atlas); cbn [mbind result_bind];
      intros H; [now injection H | discriminate H].
Qed.

(** ** The normaliser *)

Lemma flatten_In {A} (v : volume A) i j k :
  In (i, j, k) (coords (vshape v)) -> In (vox v i j k) (flatten v).
Proof.
  intros Hin. unfold flatten.
  change (vox v i j k) with (vox_at v (i, j, k)). now apply in_map.
Qed.

Lemma flatten_vmap {A B} (f : A -> B) (v : volume A) :
  flatten (vmap f v) = List.map f (flatten v).
Proof.
  unfold flatten. cbn [vmap vshape]. rewrite List.map_map.
  apply map_ext. now intros [[i j] k].
Qed.

Lemma fold_Qmin_le (xs : list Q) : forall x,
  (fold_left Qmin xs x <= x)%Q /\
  forall y, In y xs -> (fold_left Qmin xs x <= y)%Q.
Proof.
  induction xs as [|a xs IH]; intros x; simpl.
  - split; [apply Qle_refl | tauto].
  - destruct (IH (Qmin x a)) as [Hm Hall]. split.
    + eapply Qle_trans; [exact Hm | apply Q.le_min_l].
    + intros y [<- | Hy]; [|now apply Hall].
      eapply Qle_trans; [exact Hm | apply Q.le_min_r].
Qed.

Lemma fold_Qmin_glb (xs : list Q) (b : Q) : forall x,
  (b <= x)%Q -> (forall y, In y xs -> (b <= y)%Q) ->
  (b <= fold_left Qmin xs x)%Q.
Proof.
  induction xs as [|a xs IH]; intros x Hx Hall; simpl; [exact Hx|].
  apply IH.
  - apply Q.min_glb; [exact Hx | apply Hall; now left].
  - intros y Hy. apply Hall. now right.
Qed.

Lemma fold_Qmax_ge (xs : list Q) : forall x,
  (x <= fold_left Qmax xs x)%Q /\
  forall y, In y xs -> (y <= fold_left Qmax xs x)%Q.
Proof.
  induction xs as [|a xs IH]; intros x; simpl.
  - split; [apply Qle_refl | tauto].
  - destruct (IH (Qmax x a)) as [Hm Hall]. split.
    + eapply Qle_trans; [apply Q.le_max_l | exact Hm].
    + intros y [<- | Hy]; [|now apply Hall].
      eapply Qle_trans; [apply Q.le_max_r | exact Hm].
Qed.

Lemma fold_Qmax_lub (xs : list Q) (b : Q) : forall x,
  (x <= b)%Q -> (forall y, In y xs -> (y <= b)%Q) ->
  (fold_left Qmax xs x <= b)%Q.
Proof.
  induction xs as [|a xs IH]; intros x Hx Hall; simpl; [exact Hx|].
  apply IH.
  - apply Q.max_lub; [exact Hx | apply Hall; now left].
  - intros y Hy. apply Hall. now right.
Qed.

(** The minimum of a non-empty volume is a lower bound of its voxels. *)
Lemma np_min_spec (v : volume Q) :
  flatten v <> [] ->
  exists lo, np_min v = Ok lo /\ forall y, In y (flatten v) -> (lo <= y)%Q.
Proof.
  unfold np_min. destruct (flatten v) as [|x xs]; [congruence|]. intros _.
  eexists. split; [reflexivity|].
  destruct (fold_Qmin_le xs x) as [Hx Hall].
  intros y [<- | Hy]; auto.
Qed.

Lemma np_max_spec (v : volume Q) :
  flatten v <> [] ->
  exists hi, np_max v = Ok hi /\ forall y, In y (flatten v) -> (y <= hi)%Q.
Proof.
  unfold np_max. destruct (flatten v) as [|x xs]; [congruence|]. intros _.
  eexists. split; [reflexivity|].
  destruct (fold_Qmax_ge xs x) as [Hx Hall].
  intros y [<- | Hy]; auto.
Qed.

(** The least upper bound and the greatest lower bound of the voxels. *)
Lemma np_min_glb (v : volume Q) lo b :
  np_min v = Ok lo ->
  (forall y, In y (flatten v) -> (b <= y)%Q) -> (b <= lo)%Q.
Proof.
  unfold np_min. destruct (flatten v) as [|x xs]; [discriminate|].
  intros H Hall. injection H as <-.
  apply fold_Qmin_glb; [apply Hall; now left|].
  intros y Hy. apply Hall. now right.
Qed.

Lemma np_max_lub (v : volume Q) hi b :
  np_max v = Ok hi ->
  (forall y, In y (flatten v) -> (y <= b)%Q) -> (hi <= b)%Q.
Proof.
  unfold np_max. destruct (flatten v) as [|x xs]; [discriminate|].
  intros H Hall. injection H as <-.
  apply fold_Qmax_lub; [apply Hall; now left|].
  intros y Hy. apply Hall. now right.
Qed.

(** The rescaling on a volume with at least one voxel, step by step. *)
Lemma min_max_steps (data : volume Q) :
  flatten data <> [] ->
  exists lo hi,
    np_min data = Ok lo /\
    np_max (vmap (fun x => (x - lo)%Q) data) = Ok hi /\
    (forall y, In y (flatten data) -> lo <= y /\ y - lo <= hi)%Q /\
    min_max data =
      Ok (vmap (fun x => if Qeq_bool hi 0 then NaN else Num (x / hi)%Q)
            (vmap (fun x => (x - lo)%Q) data)).
Proof.
  intros Hne.
  destruct (np_min_spec data Hne) as (lo & Hmin & Hlo).
  assert (Hne' : flatten (vmap (fun x => (x - lo)%Q) data) <> []).
  { rewrite flatten_vmap. destruct (flatten data); [congruence | discriminate]. }
  destruct (np_max_spec _ Hne') as (hi & Hmax & Hhi).
  exists lo, hi. split; [exact Hmin|]. split; [exact Hmax|]. split.
  - intros y Hy. split; [now apply Hlo|]. apply Hhi.
    rewrite flatten_vmap. now apply (in_map (fun x => (x - lo)%Q)).
  - unfold min_max. rewrite Hmin. cbn [mbind result_bind].
    rewrite Hmax. reflexivity.
Qed.

(** X11.  On a volume whose voxels are not all equal and lie within
    [-2^126, 2^126], so that no difference of two voxels leaves the range of
    the float type of the volume, the min-max rescaling succeeds, keeps the
    shape and returns a number between 0 and 1 at every voxel; a smallest
    voxel becomes 0, a largest voxel becomes 1, and the order of the voxels
    is kept.  (The quotient itself is rounded by the float type; nothing
    more is stated about it.) *)
Theorem min_max_unit_interval (data : volume Q) (a b : Q) :
  In a (flatten data) ->
  In b (flatten data) ->
  (a < b)%Q ->
  (forall x, In x (flatten data) ->
     - inject_Z (2 ^ 126) <= x /\ x <= inject_Z (2 ^ 126))%Q ->
  exists out (value : nat -> nat -> nat -> Q),
    min_max data = Ok out /\
    vshape out = vshape data /\
    (forall i j k,
        In (i, j, k) (coords (vshape data)) ->
        vox out i j k = Num (value i j k) /\
        0 <= value i j k /\ value i j k <= 1)%Q /\
    (forall i j k,
        In (i, j, k) (coords (vshape data)) ->
        (forall y, In y (flatten data) -> vox data i j k <= y) ->
        value i j k == 0)%Q /\
    (forall i j k,
        In (i, j, k) (coords (vshape data)) ->
        (forall y, In y (flatten data) -> y <= vox data i j k) ->
        value i j k == 1)%Q /\
    (forall i j k i' j' k',
        vox data i j k <= vox data i' j' k' ->
        value i j k <= value i' j' k')%Q.
Proof.
  intros Ha Hb Hab _.
  assert (Hne : flatten data <> []) by (intros E; now rewrite E in Ha).
  destruct (min_max_steps data Hne) as (lo & hi & Hmin & Hmax & Hbounds & Hrun).
  assert (Hpos : (0 < hi)%Q).
  { pose proof (Hbounds a Ha) as [Hla _]. pose proof (Hbounds b Hb) as [_ Hbh].
    lra. }
  assert (Hnz : Qeq_bool hi 0 = false).
  { destruct (Qeq_bool hi 0) eqn:E; [|reflexivity].
    apply Qeq_bool_iff in E. lra. }
  exists (vmap (fun x => if Qeq_bool hi 0 then NaN else Num (x / hi)%Q)
            (vmap (fun x => (x - lo)%Q) data)),
         (fun i j k => ((vox data i j k - lo) / hi)%Q).
  split; [exact Hrun|]. split; [reflexivity|]. split; [|split; [|split]].
  - intros i j k Hin. cbn [vmap vox]. rewrite Hnz. split; [reflexivity|].
    pose proof (Hbounds _ (flatten_In data i j k Hin)) as [Hl Hh]. split.
    + apply Qle_shift_div_l; [exact Hpos | lra].
    + apply Qle_shift_div_r; [exact Hpos | lra].
  - intros i j k Hin Hleast.
    pose proof (Hbounds _ (flatten_In data i j k Hin)) as [Hl _].
    pose proof (np_min_glb data lo _ Hmin Hleast) as Hg.
    assert (Hz : (vox data i j k - lo == 0)%Q) by lra.
    rewrite Hz. unfold Qdiv. apply Qmult_0_l.
  - intros i j k Hin Hmost.
    pose proof (Hbounds _ (flatten_In data i j k Hin)) as [_ Hh].
    assert (Hlub : (hi <= vox data i j k - lo)%Q).
    { apply (np_max_lub _ hi _ Hmax). intros y Hy.
      rewrite flatten_vmap in Hy. apply in_map_iff in Hy as (z & <- & Hz).
      pose proof (Hmost z Hz). lra. }
    assert (Hz : (vox data i j k - lo == hi)%Q) by lra.
    rewrite Hz. unfold Qdiv. apply Qmult_inv_r. lra.
  - intros i j k i' j' k' Hle. unfold Qdiv.
    apply Qmult_le_compat_r; [lra|].
    apply Qlt_le_weak, Qinv_lt_0_compat, Hpos.
Qed.

Lemma min_max_unit_interval_witness :
  exists out q0 q1,
    min_max (two_voxel_volume 20 60) = Ok out /\
    vox out 0 0 0 = Num q0 /\ (q0 == 0)%Q /\
    vox out 0 0 1 = Num q1 /\ (q1 == 1)%Q.
Proof.
  destruct (min_max_unit_interval (two_voxel_volume 20 60) 20 60)
    as (out & value & Hrun & _ & Hnum & Hleast & Hmost & _).
  - left; reflexivity.
  - right; left; reflexivity.
  - reflexivity.
  - intros x [<- | [<- | []]]; split; vm_compute; discriminate.
  - exists out, (value 0 0 0)%nat, (value 0 0 1)%nat.
    split; [exact Hrun|].
    split; [apply (Hnum 0 0 0)%nat; vm_compute; auto|].
    split; [apply (Hleast 0 0 0)%nat; [vm_compute; auto|];
            intros y [<- | [<- | []]]; vm_compute; discriminate|].
    split; [apply (Hnum 0 0 1)%nat; vm_compute; auto|].
    apply (Hmost 0 0 1)%nat; [vm_compute; auto|].
    intros y [<- | [<- | []]]; vm_compute; discriminate.
Defined.

(** X12.  The two edge cases of the min-max rescaling: a volume whose voxels
    all have the same value is mapped to NaN at every voxel, and a volume
    without voxels raises [ValueError]. *)
Theorem min_max_edge_cases (data : volume Q) :
  (forall c,
      flatten data <> [] ->
      (forall x, In x (flatten data) -> x == c)%Q ->
      exists out,
        min_max data = Ok out /\ vshape out = vshape data /\
        forall i j k, vox out i j k = NaN) /\
  (flatten data = [] -> min_max data = Raise ValueError).
Proof.
  split.
  - intros c Hne Hconst.
    destruct (min_max_steps data Hne) as (lo & hi & Hmin & Hmax & _ & Hrun).
    eexists. split; [exact Hrun|]. split; [reflexivity|].
    assert (Hnan : (hi == 0)%Q);
      [|intros i j k; cbn [vmap vox]; apply Qeq_bool_iff in Hnan;
        now rewrite Hnan].
    unfold np_min in Hmin. unfold np_max in Hmax. rewrite flatten_vmap in Hmax.
    destruct (flatten data) as [|x xs]; [congruence|].
    injection Hmin as <-. cbn [List.map] in Hmax. injection Hmax as <-.
    pose proof (Hconst x (or_introl eq_refl)) as Hxc.
    assert (Hlo : (fold_left Qmin xs x == c)%Q).
    { apply Qle_antisym.
      - pose proof (proj1 (fold_Qmin_le xs x)). lra.
      - apply fold_Qmin_glb; [lra|].
        intros y Hy. pose proof (Hconst y (or_intror Hy)). lra. }
    apply Qle_antisym.
    + apply fold_Qmax_lub; [lra|].
      intros y Hy. apply in_map_iff in Hy as (z & <- & Hz).
      pose proof (Hconst z (or_intror Hz)). lra.
    + pose proof (proj1 (fold_Qmax_ge
                    (List.map (fun x0 => (x0 - fold_left Qmin xs x)%Q) xs)
                    (x - fold_left Qmin xs x)%Q)).
      lra.
  - intros Hnil. unfold min_max, np_min. now rewrite Hnil.
Qed.

Section NormaliserCalls.

Variable percentile99 : volume Q -> Q.
Variable zscore : volume Q -> volume flt.
Variable randomFilter : volume Q -> volume Q.

#[local] Abbreviation run_image :=
  (_process_image percentile99 zscore randomFilter).

(** X13.  A normalisation method other than ['z-score'] and ['min-max'] makes
    a normalised call raise [ValueError], and the call still removes the
    method from the keyword arguments: the same call repeated on the provider
    so left raises nothing and normalises with the z-score.  The volume has
    at least one voxel and the provider has one channel, so that neither
    [np.percentile] on line 352 nor [np.tile] on line 377 raises. *)
Theorem unknown_method_raises_once self data modality augmentation method :
  is_modality modality = true ->
  channels self = 1%nat ->
  flatten data <> [] ->
  kwargs self !! "normalization_method" = Some method ->
  method <> "z-score" ->
  method <> "min-max" ->
  exists self' tensor,
    run_image self data modality true augmentation = (Raise ValueError, self') /\
    kwargs self' !! "normalization_method" = None /\
    run_image self' data modality true augmentation = (Ok tensor, self').
Proof.
  intros Hm Hch Hne Hk Hz Hmm.
  apply String.eqb_neq in Hz, Hmm.
  exists (set_kwargs self (delete "normalization_method" (kwargs self))).
  unfold _process_image, tile_channels.
  destruct (flatten data) as [|x xs]; [congruence|].
  assert (Hclip : exists clipped,
            (if String.eqb modality "mr"
             then Ok (np_clip data NegInf (Some (Fin (percentile99 data))))
             else if String.eqb modality "ct"
                  then Ok (np_clip data (a_min self) (a_max self))
                  else Raise UnboundLocalError) = Ok clipped /\
            (if String.eqb modality "mr"
             then Ok (np_clip data NegInf (Some (Fin (percentile99 data))))
             else if String.eqb modality "ct"
                  then Ok (np_clip data
                             (a_min (set_kwargs self
                                (delete "normalization_method" (kwargs self))))
                             (a_max (set_kwargs self
                                (delete "normalization_method" (kwargs self)))))
                  else Raise UnboundLocalError) = Ok clipped).
  { unfold is_modality in Hm.
    destruct (String.eqb modality "mr");
      [|destruct (String.eqb modality "ct"); [|discriminate Hm]];
      eexists; split; reflexivity. }
  destruct Hclip as (clipped & -> & ->).
  rewrite Hk. cbn [default from_option id]. rewrite Hz, Hmm.
  cbn [kwargs set_kwargs channels mbind result_bind].
  rewrite lookup_delete_eq, Hch.
  cbn [default from_option id String.eqb Ascii.eqb Bool.eqb mbind result_bind
       Nat.eqb].
  eexists. split; [reflexivity|]. split; [reflexivity|].
  rewrite delete_delete_eq. reflexivity.
Qed.

(** X14.  A call without normalisation never changes the provider, whatever
    the modality and the augmentation are; and a call with a modality other
    than ['mr'] and ['ct'] raises [UnboundLocalError] and leaves the provider
    unchanged, normalised or not. *)
Theorem process_image_frame self data modality normalization augmentation :
  snd (run_image self data modality false augmentation) = self /\
  (is_modality modality = false ->
   run_image self data modality normalization augmentation
     = (Raise UnboundLocalError, self)).
Proof.
  unfold _process_image, is_modality.
  destruct (String.eqb modality "mr"), (String.eqb modality "ct");
    cbn [orb]; split; try discriminate; try reflexivity;
    destruct (flatten data); reflexivity.
Qed.

Lemma clip_above_below lo hi x :
  (lo <= hi)%Q ->
  let q := clip_above (Some (Fin hi)) (clip_below (Fin lo) x) in
  (lo <= q)%Q /\ (q <= hi)%Q /\ ((lo <= x)%Q -> (x <= hi)%Q -> q = x).
Proof.
  intros Hle. cbn [clip_above clip_below].
  destruct (Qle_bool lo x) eqn:E1.
  - apply Qle_bool_iff in E1.
    destruct (Qle_bool x hi) eqn:E2.
    + apply Qle_bool_iff in E2. auto.
    + split; [exact Hle|]. split; [apply Qle_refl|]. intros _ H.
      apply Qle_bool_iff in H. congruence.
  - destruct (Qle_bool lo hi) eqn:E2.
    + split; [apply Qle_refl|]. split; [exact Hle|]. intros H _.
      apply Qle_bool_iff in H. congruence.
    + apply Qle_bool_iff in Hle. congruence.
Qed.

(** X15.  With one channel and both clipping bounds configured as integers
    of at most 24 bits, which every float type of a volume holds exactly,
    [a_min <= a_max], a CT call without normalisation and augmentation
    returns a tensor of shape [1, nx, ny, nz, 1] whose channel holds the
    voxel clipped to [a_min, a_max]: a value inside the interval is left as
    it is, and every value returned lies inside it. *)
Theorem ct_clip_within_bounds args (lo hi : Z) data :
  arg_channels args = 1%nat ->
  arg_a_min args = Some (inject_Z lo) ->
  arg_a_max args = Some (inject_Z hi) ->
  - 16777216 <= lo ->
  lo <= hi ->
  hi <= 16777216 ->
  exists tensor,
    run_image (init_attributes args) data "ct" false false
      = (Ok [tensor], init_attributes args) /\
    vshape tensor = vshape data /\
    forall i j k,
      exists q,
        vox tensor i j k = [Num q] /\
        (inject_Z lo <= q)%Q /\ (q <= inject_Z hi)%Q /\
        ((inject_Z lo <= vox data i j k)%Q ->
         (vox data i j k <= inject_Z hi)%Q ->
         q = vox data i j k).
Proof.
  intros Hch Hlo Hhi _ Hle _. rewrite process_image_ct_clip by exact Hch.
  rewrite init_a_min, (init_a_max_with_a_min args _ Hlo), Hlo, Hhi.
  rewrite Zle_Qle in Hle.
  eexists. split; [reflexivity|]. split; [reflexivity|].
  intros i j k.
  exists (clip_above (Some (Fin (inject_Z hi)))
            (clip_below (Fin (inject_Z lo)) (vox data i j k))).
  split; [reflexivity|].
  apply (clip_above_below (inject_Z lo) (inject_Z hi) (vox data i j k) Hle).
Qed.


End NormaliserCalls.

(** Instances on a volume of two voxels.  The percentile is the one of
    linear interpolation; the z-score and the random filter are stood in by
    the identity, and no result below depends on them. *)
Lemma ct_clip_within_bounds_witness :
  exists tensor,
    _process_image (percentile_linear 99) (vmap Num) (fun v => v)
      (init_attributes (ct_args (Some 0%Q) (Some 100%Q) ∅))
      (two_voxel_volume 500 50) "ct" false false
      = (Ok [tensor], init_attributes (ct_args (Some 0%Q) (Some 100%Q) ∅)) /\
    vox tensor 0 0 0 = [Num 100%Q] /\ vox tensor 0 0 1 = [Num 50%Q].
Proof.
  destruct (ct_clip_within_bounds (percentile_linear 99) (vmap Num) (fun v => v)
              (ct_args (Some 0%Q) (Some 100%Q) ∅) 0 100
              (two_voxel_volume 500 50))
    as (tensor & Hrun & _ & _).
  - reflexivity.
  - reflexivity.
  - reflexivity.
  - lia.
  - lia.
  - lia.
  - exists tensor. split; [exact Hrun|].
    injection Hrun as <-. split; reflexivity.
Defined.


Lemma unknown_method_raises_once_witness :
  exists self' tensor,
    _process_image (percentile_linear 99) (vmap Num) (fun v => v)
      (init_attributes
         (ct_args (Some 0%Q) (Some 100%Q) {["normalization_method" := "minmax"]}))
      (two_voxel_volume 20 60) "ct" true false = (Raise ValueError, self') /\
    _process_image (percentile_linear 99) (vmap Num) (fun v => v) self'
      (two_voxel_volume 20 60) "ct" true false = (Ok tensor, self').
Proof.
  destruct (unknown_method_raises_once (percentile_linear 99) (vmap Num)
              (fun v => v)
              (init_attributes
                 (ct_args (Some 0%Q) (Some 100%Q)
                    {["normalization_method" := "minmax"]}))
              (two_voxel_volume 20 60) "ct" false "minmax")
    as (self' & tensor & Hraise & _ & Hretry).
  - reflexivity.
  - reflexivity.
  - vm_compute. discriminate.
  - cbn [kwargs init_attributes ct_args arg_kwargs].
    rewrite lookup_delete_ne by discriminate. apply lookup_singleton_eq.
  - discriminate.
  - discriminate.
  - exists self', tensor. split; assumption.
Defined.

(** ** The region of interest and the foreground centre *)

Lemma fold_Zmin_spec (xs : list Z) : forall x,
  fold_left Z.min xs x <= x /\
  forall y, In y xs -> fold_left Z.min xs x <= y.
Proof.
  induction xs as [|a xs IH]; intros x; simpl; [split; [lia | tauto]|].
  destruct (IH (Z.min x a)) as [Hm Hall]. split; [lia|].
  intros y [<- | Hy]; [lia | now apply Hall].
Qed.

Lemma fold_Zmin_glb (xs : list Z) (b : Z) : forall x,
  b <= x -> (forall y, In y xs -> b <= y) -> b <= fold_left Z.min xs x.
Proof.
  induction xs as [|a xs IH]; intros x Hx Hall; simpl; [exact Hx|].
  apply IH; [|intros y Hy; apply Hall; now right].
  pose proof (Hall a (or_introl eq_refl)). lia.
Qed.

Lemma fold_Zmax_spec (xs : list Z) : forall x,
  x <= fold_left Z.max xs x /\
  forall y, In y xs -> y <= fold_left Z.max xs x.
Proof.
  induction xs as [|a xs IH]; intros x; simpl; [split; [lia | tauto]|].
  destruct (IH (Z.max x a)) as [Hm Hall]. split; [lia|].
  intros y [<- | Hy]; [lia | now apply Hall].
Qed.

Lemma fold_Zmax_lub (xs : list Z) (b : Z) : forall x,
  x <= b -> (forall y, In y xs -> y <= b) -> fold_left Z.max xs x <= b.
Proof.
  induction xs as [|a xs IH]; intros x Hx Hall; simpl; [exact Hx|].
  apply IH; [|intros y Hy; apply Hall; now right].
  pose proof (Hall a (or_introl eq_refl)). lia.
Qed.

Lemma zsum_between (xs : list Z) (l h : Z) :
  (forall x, In x xs -> l <= x <= h) ->
  l * Z.of_nat (length xs) <= zsum xs <= h * Z.of_nat (length xs).
Proof.
  induction xs as [|a xs IH]; intros Hall; [simpl; lia|].
  pose proof (Hall a (or_introl eq_refl)).
  assert (IH' := IH (fun x Hx => Hall x (or_intror Hx))).
  cbn [zsum fold_right length]. fold (zsum xs).
  rewrite Nat2Z.inj_succ. lia.
Qed.

(** One axis of the coordinates of a non-empty mask inside an axis of length
    [n]: the minimum, the maximum and the floor of the mean. *)
Lemma axis_analysis (arg_index : list (nat * nat * nat))
    (idx : nat * nat * nat -> Z) (n : Z) :
  arg_index <> [] ->
  (forall c, In c arg_index -> 0 <= idx c <= n - 1) ->
  exists l h,
    axis_min (List.map idx arg_index) = Ok l /\
    axis_max (List.map idx arg_index) = Ok h /\
    0 <= l /\ l <= h /\ h <= n - 1 /\
    (forall c, In c arg_index -> l <= idx c <= h) /\
    l <= zsum (List.map idx arg_index)
         / Z.of_nat (length (List.map idx arg_index)) <= h.
Proof.
  intros Hne Hall.
  destruct arg_index as [|a rest]; [congruence|]. cbn [List.map axis_min axis_max].
  set (xs := List.map idx rest).
  assert (Hxs : forall y, In y xs -> 0 <= y <= n - 1).
  { intros y Hy. apply in_map_iff in Hy as (c & <- & Hc). apply Hall. now right. }
  pose proof (Hall a (or_introl eq_refl)) as Ha.
  destruct (fold_Zmin_spec xs (idx a)) as [Hmin1 Hmin2].
  destruct (fold_Zmax_spec xs (idx a)) as [Hmax1 Hmax2].
  pose proof (fold_Zmin_glb xs 0 (idx a) ltac:(lia) (fun y Hy => proj1 (Hxs y Hy))).
  pose proof (fold_Zmax_lub xs (n - 1) (idx a) ltac:(lia)
                (fun y Hy => proj2 (Hxs y Hy))).
  exists (fold_left Z.min xs (idx a)), (fold_left Z.max xs (idx a)).
  assert (Hbetween : forall c, In c (a :: rest) ->
            fold_left Z.min xs (idx a) <= idx c <= fold_left Z.max xs (idx a)).
  { intros c [<- | Hc]; [lia|].
    assert (In (idx c) xs) by (now apply in_map).
    split; [now apply Hmin2 | now apply Hmax2]. }
  repeat split; try lia; try (now apply Hbetween).
  - apply Z.div_le_lower_bound; [simpl; lia|].
    pose proof (zsum_between (idx a :: xs) _ _
                  (fun x Hx => ltac:(destruct Hx as [<- | Hx];
                     [exact (Hbetween a (or_introl eq_refl))
                     | apply in_map_iff in Hx as (c & <- & Hc);
                       exact (Hbetween c (or_intror Hc))]))) as Hs.
    rewrite Z.mul_comm. exact (proj1 Hs).
  - apply Z.div_le_upper_bound; [simpl; lia|].
    pose proof (zsum_between (idx a :: xs) _ _
                  (fun x Hx => ltac:(destruct Hx as [<- | Hx];
                     [exact (Hbetween a (or_introl eq_refl))
                     | apply in_map_iff in Hx as (c & <- & Hc);
                       exact (Hbetween c (or_intror Hc))]))) as Hs.
    rewrite Z.mul_comm. exact (proj2 Hs).
Qed.

(** One axis of the margined bounds. *)
Lemma soft_bounds (l h n : Z) (mag_rate : Q) :
  0 <= l -> l <= h -> h <= n - 1 -> (0 <= mag_rate)%Q ->
  let margin := (inject_Z (h - l) * mag_rate / 2)%Q in
  let slo := Z.max (Qfloor (inject_Z l - margin)) 0 in
  let shi := Z.min (Qfloor (inject_Z h + margin)) (n - 1) in
  0 <= slo /\ slo <= l /\ h <= shi /\ shi <= n - 1.
Proof.
  intros Hl Hlh Hh Hm. cbv zeta.
  assert (Hmargin : (0 <= inject_Z (h - l) * mag_rate / 2)%Q).
  { apply Qle_shift_div_l; [reflexivity|].
    assert (0 <= inject_Z (h - l))%Q
      by (change 0%Q with (inject_Z 0); rewrite <- Zle_Qle; lia).
    rewrite Qmult_0_l. now apply Qmult_le_0_compat. }
  pose proof (Qfloor_resp_le
                (inject_Z l - inject_Z (h - l) * mag_rate / 2) (inject_Z l)
                ltac:(lra)) as Hlo.
  pose proof (Qfloor_resp_le
                (inject_Z h) (inject_Z h + inject_Z (h - l) * mag_rate / 2)
                ltac:(lra)) as Hhi.
  rewrite Qfloor_Z in Hlo, Hhi. lia.
Qed.

Lemma argwhere_foreground self label flag c :
  foreground_flag self label = Ok flag ->
  (In c (argwhere flag) <-> foreground_voxel self label c).
Proof.
  unfold foreground_flag, foreground_voxel. intros Hflag.
  destruct (tail (label_intensity self)) as [|k0 ks] eqn:E; [discriminate|].
  rewrite <- E in Hflag |- *. clear E. injection Hflag as <-.
  unfold argwhere. rewrite filter_In. cbn [vmap vshape].
  destruct c as [[i j] k]. cbn [vox_at vmap vox].
  rewrite existsb_exists. split.
  - intros [Hin (v & Hv & Heq)]. split; [exact Hin|].
    exists v. split; [exact Hv | now apply Qeq_bool_iff].
  - intros [Hin (v & Hv & Heq)]. split; [exact Hin|].
    exists v. split; [exact Hv | now apply Qeq_bool_iff].
Qed.

Lemma foreground_flag_nonempty self label c :
  foreground_voxel self label c ->
  exists flag, foreground_flag self label = Ok flag.
Proof.
  intros (_ & v & Hv & _).
  destruct (foreground_flag_cases self label) as [[Hnil _] | [_ H]]; [|exact H].
  rewrite Hnil in Hv. destruct Hv.
Qed.

Lemma coords_idx_range {A} (label : volume A) c :
  In c (coords (vshape label)) ->
  0 <= idx0 c <= ax0 (shape_vec (vshape label)) - 1 /\
  0 <= idx1 c <= ax1 (shape_vec (vshape label)) - 1 /\
  0 <= idx2 c <= ax2 (shape_vec (vshape label)) - 1.
Proof.
  destruct c as [[i j] k]. destruct (vshape label) as [[nx ny] nz].
  rewrite coords_spec. unfold idx0, idx1, idx2. simpl. lia.
Qed.

(** X17.  On a label volume with at least one foreground voxel and for a
    magnification rate that is not negative, [get_roi_coordinates] succeeds
    and returns a box that lies inside the volume and contains every
    foreground voxel. *)
Theorem roi_contains_foreground self label mag_rate c0 :
  foreground_voxel self label c0 ->
  (0 <= mag_rate)%Q ->
  exists lo hi,
    get_roi_coordinates self label mag_rate = Ok (lo, hi) /\
    v3le (v3const 0) lo /\
    v3le hi (v3map (fun n => n - 1) (shape_vec (vshape label))) /\
    forall c,
      foreground_voxel self label c ->
      v3le lo (idx_vec c) /\ v3le (idx_vec c) hi.
Proof.
  intros Hc0 Hm.
  destruct (foreground_flag_nonempty self label c0 Hc0) as [flag Hflag].
  pose proof (fun c => argwhere_foreground self label flag c Hflag) as Harg.
  assert (Hne : argwhere flag <> []).
  { apply Harg in Hc0. intros E. now rewrite E in Hc0. }
  assert (Hrange : forall c, In c (argwhere flag) ->
            In c (coords (vshape label))).
  { intros c Hc. apply Harg in Hc. exact (proj1 Hc). }
  destruct (axis_analysis (argwhere flag) idx0 (ax0 (shape_vec (vshape label))) Hne)
    as (l0 & h0 & Hl0 & Hh0 & ? & ? & ? & Hb0 & _).
  { intros c Hc. apply (coords_idx_range label c (Hrange c Hc)). }
  destruct (axis_analysis (argwhere flag) idx1 (ax1 (shape_vec (vshape label))) Hne)
    as (l1 & h1 & Hl1 & Hh1 & ? & ? & ? & Hb1 & _).
  { intros c Hc. apply (coords_idx_range label c (Hrange c Hc)). }
  destruct (axis_analysis (argwhere flag) idx2 (ax2 (shape_vec (vshape label))) Hne)
    as (l2 & h2 & Hl2 & Hh2 & ? & ? & ? & Hb2 & _).
  { intros c Hc. apply (coords_idx_range label c (Hrange c Hc)). }
  unfold get_roi_coordinates. rewrite Hflag. cbn [mbind result_bind].
  rewrite Hl0, Hl1, Hl2, Hh0, Hh1, Hh2. cbn [mbind result_bind].
  destruct (soft_bounds l0 h0 (ax0 (shape_vec (vshape label))) mag_rate)
    as (? & ? & ? & ?); try assumption.
  destruct (soft_bounds l1 h1 (ax1 (shape_vec (vshape label))) mag_rate)
    as (? & ? & ? & ?); try assumption.
  destruct (soft_bounds l2 h2 (ax2 (shape_vec (vshape label))) mag_rate)
    as (? & ? & ? & ?); try assumption.
  eexists _, _. split; [reflexivity|].
  unfold v3le, v3const, v3map, idx_vec. cbn [ax0 ax1 ax2].
  split; [auto|]. split; [auto|].
  intros c Hc. apply Harg in Hc.
  pose proof (Hb0 c Hc). pose proof (Hb1 c Hc). pose proof (Hb2 c Hc).
  repeat split; lia.
Qed.

Lemma roi_contains_foreground_witness :
  exists lo hi,
    get_roi_coordinates (init_attributes (label_args 2 [0; 205]))
      (one_voxel_volume (10, 10, 10) (5, 5, 5) 205)%nat (1 # 10) = Ok (lo, hi) /\
    v3le lo (idx_vec (5, 5, 5)%nat) /\ v3le (idx_vec (5, 5, 5)%nat) hi.
Proof.
  assert (Hfg : foreground_voxel (init_attributes (label_args 2 [0; 205]))
                  (one_voxel_volume (10, 10, 10) (5, 5, 5) 205)%nat (5, 5, 5)%nat).
  { split; [apply coords_spec; lia|].
    exists 205. split; [now left | reflexivity]. }
  destruct (roi_contains_foreground (init_attributes (label_args 2 [0; 205]))
              (one_voxel_volume (10, 10, 10) (5, 5, 5) 205)%nat (1 # 10)
              (5, 5, 5)%nat Hfg)
    as (lo & hi & Hrun & _ & _ & Hin).
  - vm_compute. discriminate.
  - exists lo, hi. split; [exact Hrun | exact (Hin _ Hfg)].
Defined.

(** X18.  On a label volume with at least one foreground voxel and sides
    below 2^15 the foreground centre is computed and lies inside the region
    of interest that [get_roi_coordinates] returns for any magnification rate
    that is not negative, hence inside the volume. *)
Theorem foreground_center_in_roi nan_as_int16 self label mag_rate c0 :
  foreground_voxel self label c0 ->
  (0 <= mag_rate)%Q ->
  fits_int16 (shape_vec (vshape label)) ->
  exists lo hi center,
    get_roi_coordinates self label mag_rate = Ok (lo, hi) /\
    _get_foreground_center nan_as_int16 self label = Ok center /\
    v3le lo center /\ v3le center hi /\
    v3le (v3const 0) center /\
    v3le center (v3map (fun n => n - 1) (shape_vec (vshape label))).
Proof.
  intros Hc0 Hm Hfit.
  destruct (foreground_flag_nonempty self label c0 Hc0) as [flag Hflag].
  pose proof (fun c => argwhere_foreground self label flag c Hflag) as Harg.
  assert (Hne : argwhere flag <> []).
  { apply Harg in Hc0. intros E. now rewrite E in Hc0. }
  assert (Hrange : forall c, In c (argwhere flag) ->
            In c (coords (vshape label))).
  { intros c Hc. apply Harg in Hc. exact (proj1 Hc). }
  destruct (axis_analysis (argwhere flag) idx0 (ax0 (shape_vec (vshape label))) Hne)
    as (l0 & h0 & Hl0 & Hh0 & ? & ? & ? & _ & Hmean0).
  { intros c Hc. apply (coords_idx_range label c (Hrange c Hc)). }
  destruct (axis_analysis (argwhere flag) idx1 (ax1 (shape_vec (vshape label))) Hne)
    as (l1 & h1 & Hl1 & Hh1 & ? & ? & ? & _ & Hmean1).
  { intros c Hc. apply (coords_idx_range label c (Hrange c Hc)). }
  destruct (axis_analysis (argwhere flag) idx2 (ax2 (shape_vec (vshape label))) Hne)
    as (l2 & h2 & Hl2 & Hh2 & ? & ? & ? & _ & Hmean2).
  { intros c Hc. apply (coords_idx_range label c (Hrange c Hc)). }
  unfold get_roi_coordinates, _get_foreground_center.
  rewrite Hflag. cbn [mbind result_bind].
  rewrite Hl0, Hl1, Hl2, Hh0, Hh1, Hh2. cbn [mbind result_bind].
  destruct (soft_bounds l0 h0 (ax0 (shape_vec (vshape label))) mag_rate)
    as (? & ? & ? & ?); try assumption.
  destruct (soft_bounds l1 h1 (ax1 (shape_vec (vshape label))) mag_rate)
    as (? & ? & ? & ?); try assumption.
  destruct (soft_bounds l2 h2 (ax2 (shape_vec (vshape label))) mag_rate)
    as (? & ? & ? & ?); try assumption.
  eexists _, _, _. split; [reflexivity|]. split; [reflexivity|].
  destruct Hfit as (Hf0 & Hf1 & Hf2). unfold int16_range in *.
  assert (Hmean : forall idx,
            floor_mean16 nan_as_int16 (List.map idx (argwhere flag))
            = wrap16 (zsum (List.map idx (argwhere flag))
                      / Z.of_nat (length (List.map idx (argwhere flag))))).
  { intros idx. destruct (argwhere flag); [congruence | reflexivity]. }
  rewrite !Hmean.
  rewrite !wrap16_id by (unfold int16_range; lia).
  unfold v3le, v3const, v3map. cbn [ax0 ax1 ax2].
  repeat split; lia.
Qed.

Lemma foreground_center_in_roi_witness :
  exists lo hi center,
    get_roi_coordinates (init_attributes (label_args 2 [0; 205]))
      (one_voxel_volume (10, 10, 10) (5, 5, 5) 205)%nat (1 # 10) = Ok (lo, hi) /\
    _get_foreground_center 0 (init_attributes (label_args 2 [0; 205]))
      (one_voxel_volume (10, 10, 10) (5, 5, 5) 205)%nat = Ok center /\
    v3le lo center /\ v3le center hi.
Proof.
  destruct (foreground_center_in_roi 0 (init_attributes (label_args 2 [0; 205]))
              (one_voxel_volume (10, 10, 10) (5, 5, 5) 205)%nat (1 # 10)
              (5, 5, 5)%nat)
    as (lo & hi & center & Hroi & Hcenter & Hlo & Hhi & _).
  - split; [apply coords_spec; lia|].
    exists 205. split; [now left | reflexivity].
  - vm_compute. discriminate.
  - cbv; repeat split; discriminate.
  - exists lo, hi, center. auto.
Defined.

(** ** The patch centre policies *)

Lemma random_axis_fits (p n d : Z) :
  0 <= p -> p <= n -> n <= 32767 ->
  exists c,
    random_axis p n d = Ok c /\ wrap16 c = c /\
    0 <= c - p / 2 /\ c - p / 2 + p <= n.
Proof.
  intros Hp Hpn Hn. unfold random_axis, randint.
  destruct (Z.ltb_spec (p / 2) (n + p / 2 - p + 1)) as [Hlt | Hge]; [|lia].
  eexists. split; [reflexivity|].
  pose proof (Z.mod_pos_bound d (n + p / 2 - p + 1 - p / 2) ltac:(lia)) as Hmod.
  assert (0 <= p / 2 <= p) by (Z.to_euclidean_division_equations; lia).
  split; [apply wrap16_id; unfold int16_range; lia | lia].
Qed.

(** X19.  The unconstrained random policy always draws a centre whose patch
    fits: for every value of the random source, a patch size that is not
    negative and not larger than the target label volume, and sides below
    2^15, the centre [c] that the policy binds satisfies
    [0 <= c - size // 2] and [c - size // 2 + size <= shape] on every axis. *)
Theorem random_center_fits nan_as_int16 self tis tl ais draws :
  patch_center self = None ->
  random_crop self = true ->
  crop_roi self = false ->
  fits_int16 (shape_vec (vshape tl)) ->
  v3le (v3const 0) (patch_size self) ->
  v3le (patch_size self) (shape_vec (vshape tl)) ->
  exists c,
    select_patch_center nan_as_int16 self tis tl ais draws
      = Ok (PatchLocals (Some c) None None) /\
    within (v3map2 Z.sub c (half16 (patch_size self)))
           (v3map2 Z.add (v3map2 Z.sub c (half16 (patch_size self)))
              (patch_size self))
           (shape_vec (vshape tl)).
Proof.
  intros Hc Hr Hroi Hfit Hp0 Hle. unfold select_patch_center.
  rewrite Hc, Hr, Hroi. cbn [andb negb].
  destruct (patch_size self) as [p0 p1 p2].
  destruct (shape_vec (vshape tl)) as [n0 n1 n2].
  cbv [fits_int16 int16_range v3le v3const ax0 ax1 ax2] in Hfit, Hp0, Hle.
  cbn [ax0 ax1 ax2].
  destruct (random_axis_fits p0 n0 (ax0 draws)) as (c0 & -> & Hw0 & ? & ?);
    try lia.
  destruct (random_axis_fits p1 n1 (ax1 draws)) as (c1 & -> & Hw1 & ? & ?);
    try lia.
  destruct (random_axis_fits p2 n2 (ax2 draws)) as (c2 & -> & Hw2 & ? & ?);
    try lia.
  cbn [mbind result_bind]. eexists. split; [reflexivity|].
  cbv [within v3le v3const v3map v3map2 half16 asarray16 ax0 ax1 ax2].
  rewrite Hw0, Hw1, Hw2. repeat split; lia.
Qed.

Lemma random_center_fits_witness :
  exists c,
    select_patch_center 0
      (init_attributes (patch_args true false (V3 64 64 64) None))
      (V3 96 96 96) (constant_volume (96, 96, 96)%nat 0) (V3 96 96 96)
      (V3 12345 7 (-3))
      = Ok (PatchLocals (Some c) None None) /\
    v3le (v3const 0) (v3map2 Z.sub c (V3 32 32 32)).
Proof.
  destruct (random_center_fits 0
              (init_attributes (patch_args true false (V3 64 64 64) None))
              (V3 96 96 96) (constant_volume (96, 96, 96)%nat 0) (V3 96 96 96)
              (V3 12345 7 (-3)))
    as (c & Hsel & Hwithin & _).
  - reflexivity.
  - reflexivity.
  - reflexivity.
  - cbv; repeat split; discriminate.
  - cbv; repeat split; discriminate.
  - cbv; repeat split; discriminate.
  - exists c. split; [exact Hsel | exact Hwithin].
Defined.

(** X20.  Of the centre policies of the patch branch only the centre of the
    volume yields slicing bounds: when a patch centre is configured or
    [random_crop] or [crop_roi] is set, and the two size assertions pass, the
    branch raises [UnboundLocalError] or [ValueError] for every label volume
    and every value of the random source.  The sides of the label volume, a
    configured centre and the patch size, which is not negative, fit in 16
    bits, so that no conversion to [np.int16] is out of range. *)
Theorem patch_branch_needs_default_policy nan_as_int16 self tis tl ais als draws :
  fits_int16 (shape_vec (vshape tl)) ->
  v3le (v3const 0) (patch_size self) ->
  (forall c, patch_center self = Some c -> fits_int16 c) ->
  v3le (patch_size self) (shape_vec (vshape tl)) ->
  v3le (patch_size self) als ->
  patch_center self <> None \/ random_crop self = true \/ crop_roi self = true ->
  getitem_patch_bounds nan_as_int16 self tis tl ais als draws
    = Raise UnboundLocalError \/
  getitem_patch_bounds nan_as_int16 self tis tl ais als draws
    = Raise ValueError.
Proof.
  intros _ _ _ Ht Ha Hpolicy. apply v3all_le_spec in Ht, Ha.
  unfold getitem_patch_bounds, select_patch_center. rewrite Ht, Ha.
  cbn [py_assert mbind result_bind].
  destruct (patch_center self) as [c|]; [left; reflexivity|].
  destruct (random_crop self), (crop_roi self); cbn [andb negb].
  - right. unfold _get_foreground_center.
    destruct (foreground_flag_cases self tl) as [[_ ->] | [_ [flag ->]]];
      reflexivity.
  - unfold random_axis, randint.
    repeat match goal with
           | |- context [if ?a <? ?b then _ else _] => destruct (a <? b)
           end; cbn [mbind result_bind read_local target_patch_center_local];
      auto.
  - unfold _get_foreground_center.
    destruct (foreground_flag_cases self tl) as [[_ ->] | [_ [flag ->]]];
      [right | left]; reflexivity.
  - destruct Hpolicy as [H | [H | H]]; congruence.
Qed.

Lemma patch_branch_needs_default_policy_witness :
  getitem_patch_bounds 0
    (init_attributes (patch_args true false (V3 64 64 64) None))
    (V3 96 96 96) (constant_volume (96, 96, 96)%nat 0) (V3 96 96 96)
    (V3 96 96 96) (V3 12345 7 (-3)) = Raise UnboundLocalError \/
  getitem_patch_bounds 0
    (init_attributes (patch_args true false (V3 64 64 64) None))
    (V3 96 96 96) (constant_volume (96, 96, 96)%nat 0) (V3 96 96 96)
    (V3 96 96 96) (V3 12345 7 (-3)) = Raise ValueError.
Proof.
  apply patch_branch_needs_default_policy.
  - cbv; repeat split; discriminate.
  - cbv; repeat split; discriminate.
  - discriminate.
  - cbv; repeat split; discriminate.
  - cbv; repeat split; discriminate.
  - right; left; reflexivity.
Defined.

(** Patches of side 64 at the centre of one target and two atlases of side
    96: the patch starts at voxel (16, 16, 16) of the image, the one voxel
    that holds 7. *)
Lemma default_patch_shapes_witness :
  exists pv,
    getitem_patch_volumes 0
      (init_attributes (patch_args false false (V3 64 64 64) None))
      (one_voxel_volume (96, 96, 96) (16, 16, 16) 7)%nat
      (constant_volume (96, 96, 96)%nat 0)
      [constant_volume (96, 96, 96)%nat 2; constant_volume (96, 96, 96)%nat 3]
      [constant_volume (96, 96, 96)%nat 0; constant_volume (96, 96, 96)%nat 0]
      (V3 0 0 0) = Ok pv /\
    shape_vec (vshape (cropped_target_label pv)) = V3 64 64 64 /\
    shape_vec (vshape (cropped_target_image pv)) = V3 64 64 64 /\
    vox (cropped_target_image pv) 0 0 0 = 7%Q /\
    vox (cropped_target_image pv) 0 0 1 = 0%Q.
Proof.
  destruct (default_patch_shapes 0
              (init_attributes (patch_args false false (V3 64 64 64) None))
              (one_voxel_volume (96, 96, 96) (16, 16, 16) 7)%nat
              (constant_volume (96, 96, 96)%nat 0)
              [constant_volume (96, 96, 96)%nat 2; constant_volume (96, 96, 96)%nat 3]
              [constant_volume (96, 96, 96)%nat 0; constant_volume (96, 96, 96)%nat 0]
              (V3 96 96 96) (V3 0 0 0))
    as (pv & b & _ & Htb & _ & Hrun & Hlabel & Himage & Hvox);
    try reflexivity; try (cbv; repeat split; discriminate).
  exists pv. split; [exact Hrun|]. split; [exact Hlabel|].
  split; [exact Himage|].
  rewrite (proj2 (Hvox 0 0 0)%nat), (proj2 (Hvox 0 0 1)%nat), Htb.
  split; reflexivity.
Defined.

(** ** The region-of-interest branch *)

(** X21.  The region-of-interest branch of [__getitem__] never returns a
    crop: on a target label with at least one foreground voxel the region is
    computed and the first slicing raises [TypeError], because the bounds are
    floats; on a target label without foreground voxel the branch raises
    [ValueError]. *)
Theorem roi_branch_never_crops self target_label :
  ((exists c, foreground_voxel self target_label c) ->
   getitem_roi_crop self target_label = Raise TypeError) /\
  (~ (exists c, foreground_voxel self target_label c) ->
   getitem_roi_crop self target_label = Raise ValueError) /\
  (forall v, getitem_roi_crop self target_label <> Ok v).
Proof.
  assert (Hcases :
    (exists c, foreground_voxel self target_label c) /\
      getitem_roi_crop self target_label = Raise TypeError \/
    ~ (exists c, foreground_voxel self target_label c) /\
      getitem_roi_crop self target_label = Raise ValueError).
  { unfold getitem_roi_crop, get_roi_coordinates.
    destruct (foreground_flag_cases self target_label)
      as [[Hnil Hflag] | [_ [flag Hflag]]].
    - right. rewrite Hflag. split; [|reflexivity].
      intros [c (_ & v & Hv & _)]. rewrite Hnil in Hv. destruct Hv.
    - rewrite Hflag. cbn [mbind result_bind].
      pose proof (fun c => argwhere_foreground self target_label flag c Hflag)
        as Harg.
      destruct (argwhere flag) as [|a rest] eqn:E.
      + right. split; [|reflexivity].
        intros [c Hc]. apply Harg in Hc. destruct Hc.
      + left. split; [exists a; apply Harg; now left | reflexivity]. }
  destruct Hcases as [[Hfg Hrun] | [Hnone Hrun]]; rewrite Hrun;
    (split; [|split]); try tauto; try discriminate.
Qed.

(** ** The collation of a batch *)

Lemma list_sum_const {A} (f : A -> nat) (n : nat) (l : list A) :
  (forall a, In a l -> f a = n) ->
  list_sum (List.map f l) = (n * length l)%nat.
Proof.
  induction l as [|a l IH]; intros Hall; [simpl; lia|].
  cbn [List.map length]. change (list_sum (f a :: List.map f l))
    with (f a + list_sum (List.map f l))%nat.
  rewrite (Hall a (or_introl eq_refl)), IH by (intros b Hb; apply Hall; now right).
  lia.
Qed.

Lemma shape_eqb_eq (s t : list nat) : shape_eqb s t = true -> s = t.
Proof.
  revert t. induction s as [|x s IH]; intros [|y t] H; try discriminate;
    [reflexivity|].
  simpl in H. apply andb_true_iff in H as [Hxy Hst].
  apply Nat.eqb_eq in Hxy. f_equal; [exact Hxy | now apply IH].
Qed.

Lemma np_concatenate0_ok (arrays : list ndarray) out :
  np_concatenate0 arrays = Ok out ->
  arrays <> [] /\
  leading out = list_sum (List.map leading arrays) /\
  nd_data out = concat (List.map nd_data arrays) /\
  (forall a, In a arrays -> tail (nd_shape a) = tail (nd_shape out)) /\
  ((forall a, In a arrays -> leading a = 1%nat) ->
   leading out = length arrays).
Proof.
  unfold np_concatenate0. destruct arrays as [|a rest]; [discriminate|].
  destruct (nd_shape a) as [|n trailing] eqn:Ea; [discriminate|].
  destruct (forallb _ rest) eqn:Eall; [|discriminate].
  intros H. injection H as <-.
  split; [discriminate|]. split; [reflexivity|]. split; [reflexivity|]. split.
  - cbn [nd_shape tail]. intros b [<- | Hb]; [now rewrite Ea|].
    rewrite forallb_forall in Eall. specialize (Eall b Hb).
    destruct (nd_shape b) as [|m t]; [discriminate|]. cbn [tail].
    now apply shape_eqb_eq.
  - intros Hone.
    change (list_sum (List.map leading (a :: rest)) = length (a :: rest)).
    rewrite (list_sum_const leading 1 (a :: rest) Hone). lia.
Qed.

Lemma np_concatenate0_error (arrays : list ndarray) e :
  np_concatenate0 arrays = Raise e -> e = ValueError.
Proof.
  unfold np_concatenate0. destruct arrays as [|a rest]; [congruence|].
  destruct (nd_shape a); [congruence|].
  destruct (forallb _ rest); congruence.
Qed.

(** X22.  When [collate_fn] succeeds on a batch, the affines and the headers
    are those of the samples, in the order of the batch; each array of the
    result holds the elements of the samples' arrays, sample after sample,
    and its first axis is as long as the sum of theirs: as long as the batch
    when each sample has a first axis of length one.  The centre percentages,
    arrays of three numbers, come out as one flat array of three numbers per
    sample. *)
Theorem collate_stacks_samples {M H} (res_list : list (sample M H)) out :
  collate_fn res_list = Ok out ->
  res_list <> [] /\
  b_target_affine out = List.map s_target_affine res_list /\
  b_target_header out = List.map s_target_header res_list /\
  (forall fs fb,
      In (fs, fb) array_fields ->
      nd_data (fb out) = concat (List.map (fun s => nd_data (fs s)) res_list) /\
      leading (fb out) = list_sum (List.map (fun s => leading (fs s)) res_list) /\
      (forall s, In s res_list -> tail (nd_shape (fs s)) = tail (nd_shape (fb out))) /\
      ((forall s, In s res_list -> leading (fs s) = 1%nat) ->
       leading (fb out) = length res_list)) /\
  ((forall s, In s res_list -> nd_shape (s_center_percent s) = [3%nat]) ->
   nd_shape (b_center_percent out) = [(3 * length res_list)%nat]).
Proof.
  unfold collate_fn. intros Hrun.
  repeat match type of Hrun with
         | context [np_concatenate0 ?l] =>
             let E := fresh "E" in
             destruct (np_concatenate0 l) eqn:E;
             cbn [mbind result_bind] in Hrun; [|discriminate Hrun]
         end.
  injection Hrun as <-.
  cbn [b_target_affine b_target_header].
  assert (Hfield : forall (fs : sample M H -> ndarray) r,
            np_concatenate0 (List.map fs res_list) = Ok r ->
            nd_data r = concat (List.map (fun s => nd_data (fs s)) res_list) /\
            leading r = list_sum (List.map (fun s => leading (fs s)) res_list) /\
            (forall s, In s res_list -> tail (nd_shape (fs s)) = tail (nd_shape r)) /\
            ((forall s, In s res_list -> leading (fs s) = 1%nat) ->
             leading r = length res_list)).
  { intros fs res Hres.
    destruct (np_concatenate0_ok _ _ Hres) as (_ & Hlead & Hdata & Htail & Hone).
    rewrite List.map_map in Hlead, Hdata. rewrite List.length_map in Hone.
    split; [exact Hdata|]. split; [exact Hlead|]. split.
    - intros s Hs. apply Htail. now apply in_map.
    - intros Hall. apply Hone. intros arr Harr.
      apply in_map_iff in Harr as (s & <- & Hs). now apply Hall. }
  assert (Hne : res_list <> []).
  { intros ->. match goal with
               | E : np_concatenate0 (List.map s_target_image []) = Ok _ |- _ =>
                   discriminate E
               end. }
  split; [exact Hne|].
  split; [reflexivity|]. split; [reflexivity|]. split.
  - intros fs fb Hin. unfold array_fields in Hin. simpl in Hin.
    repeat destruct Hin as [Heq | Hin];
      try (injection Heq as <- <-; cbn; eapply Hfield; eassumption).
    destruct Hin.
  - intros H3. cbn [b_center_percent].
    match goal with
    | E : np_concatenate0 (List.map s_center_percent res_list) = Ok ?r |- _ =>
        rename E into E5; set (r5 := r) in *
    end.
    destruct (Hfield s_center_percent _ E5) as (_ & Hlead & Htail & _).
    destruct res_list as [|s0 rest]; [congruence|].
    pose proof (Htail s0 (or_introl eq_refl)) as Ht.
    rewrite (H3 s0 (or_introl eq_refl)) in Ht. cbn [tail] in Ht.
    assert (Hsum : list_sum (List.map (fun s => leading (s_center_percent s))
                               (s0 :: rest)) = (3 * length (s0 :: rest))%nat).
    { apply list_sum_const. intros s Hs. unfold leading. now rewrite (H3 s Hs). }
    rewrite Hsum in Hlead. unfold leading in Hlead.
    destruct (nd_shape r5) as [|n t] eqn:Er.
    + unfold np_concatenate0 in E5. cbn [List.map] in E5.
      destruct (nd_shape (s_center_percent s0)); [discriminate E5|].
      destruct (forallb _ _); [|discriminate E5].
      injection E5 as <-. discriminate Er.
    + cbn [hd tail] in *. now subst.
Qed.

Lemma collate_stacks_samples_witness :
  exists out,
    collate_fn
      [ uniform_sample (NdArray [1; 2]%nat [1; 2]%Q) (NdArray [3%nat] [0; 0; 0]%Q) 10 20;
        uniform_sample (NdArray [1; 2]%nat [3; 4]%Q) (NdArray [3%nat] [1; 1; 1]%Q) 11 21 ]
      = Ok out /\
    b_target_affine out = [10; 11]%nat /\
    nd_shape (b_center_percent out) = [6%nat].
Proof.
  eexists. split; [reflexivity|].
  match goal with
  | |- b_target_affine ?o = _ /\ _ =>
      destruct (collate_stacks_samples
                  [ uniform_sample (NdArray [1; 2]%nat [1; 2]%Q)
                      (NdArray [3%nat] [0; 0; 0]%Q) 10 20;
                    uniform_sample (NdArray [1; 2]%nat [3; 4]%Q)
                      (NdArray [3%nat] [1; 1; 1]%Q) 11 21 ] o eq_refl)
        as (_ & Haff & _ & _ & Hcp)
  end.
  split; [exact Haff|]. apply Hcp.
  intros s [<- | [<- | []]]; reflexivity.
Defined.

(** X23.  [collate_fn] raises nothing but [ValueError]; it raises it on the
    empty batch; and on a batch of one sample whose arrays all have at least
    one axis it returns the arrays of that sample unchanged, with the affine
    and the header as lists of one element. *)
Theorem collate_edge_cases {M H} (res_list : list (sample M H)) :
  (forall e, collate_fn res_list = Raise e -> e = ValueError) /\
  (res_list = [] -> collate_fn res_list = Raise ValueError) /\
  (forall s,
      res_list = [s] ->
      (forall fs fb, In (fs, fb) (@array_fields M H) -> nd_shape (fs s) <> []) ->
      exists out,
        collate_fn res_list = Ok out /\
        b_target_affine out = [s_target_affine s] /\
        b_target_header out = [s_target_header s] /\
        forall fs fb,
          In (fs, fb) array_fields ->
          nd_shape (fb out) = nd_shape (fs s) /\ nd_data (fb out) = nd_data (fs s)).
Proof.
  split; [|split].
  - intros e. unfold collate_fn.
    repeat match goal with
           | |- context [np_concatenate0 ?l] =>
               let E := fresh "E" in
               destruct (np_concatenate0 l) eqn:E; cbn [mbind result_bind];
               [|intros He; injection He as <-;
                 eapply np_concatenate0_error; eassumption]
           end.
    discriminate.
  - intros ->. reflexivity.
  - intros s -> Hdim.
    assert (Hone : forall fs fb,
              In (fs, fb) (@array_fields M H) ->
              np_concatenate0 (List.map fs [s])
              = Ok (NdArray (nd_shape (fs s)) (nd_data (fs s) ++ []))).
    { intros fs fb Hin. pose proof (Hdim fs fb Hin) as Hd.
      unfold np_concatenate0. cbn [List.map].
      destruct (nd_shape (fs s)) as [|n t] eqn:E; [congruence|].
      unfold leading, list_sum. cbn [forallb fold_right List.map concat].
      rewrite E. cbn [hd]. now rewrite Nat.add_0_r. }
    unfold collate_fn.
    rewrite (Hone s_target_image b_target_image) by (simpl; tauto).
    rewrite (Hone s_target_label b_target_label) by (simpl; tauto).
    rewrite (Hone s_target_weight b_target_weight) by (simpl; tauto).
    rewrite (Hone s_atlases_image b_atlases_image) by (simpl; tauto).
    rewrite (Hone s_atlases_label b_atlases_label) by (simpl; tauto).
    rewrite (Hone s_atlases_weight b_atlases_weight) by (simpl; tauto).
    rewrite (Hone s_center_percent b_center_percent) by (simpl; tauto).
    cbn [mbind result_bind]. eexists. split; [reflexivity|].
    split; [reflexivity|]. split; [reflexivity|].
    intros fs fb Hin. unfold array_fields in Hin. simpl in Hin.
    repeat destruct Hin as [Heq | Hin];
      try (injection Heq as <- <-; cbn; rewrite app_nil_r; split; reflexivity).
    destruct Hin.
Qed.
